(** * Mission coordination core of [scripts/server_ai_model.py]

    A shallow embedding of the Flask handlers that share the module-level
    state ([MISSION_STATE], [LAST_STATUS], [CURRENT_MISSION_ID], [MISSIONS],
    [CONTROL_COMMAND], [LAST_TERMINAL_STATUS]) and of the helpers they call,
    followed by the properties of the mission state machine, of the one-shot
    command registers and of the read-only views.

    Conventions of the embedding:
    - a Python [dict] is an association list in insertion order with unique
      keys ([dict_get], [dict_set], [dict_setdefault]);
    - the telemetry payloads are Python objects that are shared between
      [LAST_STATUS] and [mission["last_status"]]: they live in a [heap] of
      dicts and are named by their address;
    - a handler is a computation in a state-and-exception monad: it returns
      the new module state together with either a response or the Python
      exception that escaped it;
    - [datetime.now()] and [uuid.uuid4()] are inputs of the handlers that
      call them. *)

From Stdlib Require Import ZArith List String Ascii Bool Lia.
From Stdlib Require Import Floats.SpecFloat.
From stdpp Require Import base option list sorting strings gmap.

Local Open Scope string_scope.
Local Open Scope Z_scope.
Local Open Scope list_scope.
Local Set Warnings "-register-all".

(** ** JSON values, as [request.get_json] produces them *)

Inductive jvalue : Type :=
| JNull
| JBool (b : bool)
| JInt (z : Z)
| JFloat (f : spec_float)
| JStr (s : string)
| JArr (l : list jvalue)
| JObj (d : list (string * jvalue)).

(** A payload dict: keys in insertion order. *)
Abbreviation dict := (list (string * jvalue)).

(** ** Python dicts *)

Section PyDict.
Context {V : Type}.

  (** [d.get(k)] *)
Fixpoint dict_get (d : list (string * V)) (k : string) : option V :=
    match d with
    | [] => None
    | (k', v) :: d' => if String.eqb k' k then Some v else dict_get d' k
    end.

  (** [d[k] = v]: an existing key keeps its position, a new key is appended. *)
Fixpoint dict_set (d : list (string * V)) (k : string) (v : V)
    : list (string * V) :=
    match d with
    | [] => [(k, v)]
    | (k', v') :: d' =>
        if String.eqb k' k then (k', v) :: d' else (k', v') :: dict_set d' k v
    end.

  (** [d.setdefault(k, v)], for its effect on [d]. *)
Definition dict_setdefault (d : list (string * V)) (k : string) (v : V)
    : list (string * V) :=
    match dict_get d k with
    | Some _ => d
    | None => dict_set d k v
    end.

  (** [k in d] *)
Definition dict_mem (d : list (string * V)) (k : string) : bool :=
    match dict_get d k with Some _ => true | None => false end.

  (** [d.values()] *)
Definition dict_values (d : list (string * V)) : list V := map snd d.

Definition dict_keys (d : list (string * V)) : list string := map fst d.
End PyDict.

(** ** Python exceptions and outcomes *)

Inductive exn : Type :=
| NameError | ValueError | TypeError | AttributeError | OverflowError.

Inductive outcome (A : Type) : Type :=
| Ok (a : A)
| Raise (e : exn).
Arguments Ok {A} a.
Arguments Raise {A} e.

(** ** The Python builtins the handlers apply to JSON values *)

(** Truth value of a JSON value ([x or {}], [not x]). *)
Definition truthy (v : jvalue) : bool :=
  match v with
  | JNull => false
  | JBool b => b
  | JInt z => negb (z =? 0)
  | JFloat (S754_zero _) => false
  | JFloat _ => true
  | JStr s => negb (String.eqb s "")
  | JArr l => match l with [] => false | _ => true end
  | JObj d => match d with [] => false | _ => true end
  end.

(** [v == s] for a string literal [s]. *)
Definition py_eq_str (v : jvalue) (s : string) : bool :=
  match v with
  | JStr t => String.eqb t s
  | _ => false
  end.

(** [v.startswith(p)]: only [str] has the method. *)
Definition py_startswith (v : jvalue) (p : string) : outcome bool :=
  match v with
  | JStr t => Ok (String.prefix p t)
  | _ => Raise AttributeError
  end.

(** [int(s)] for a string, base 10, as CPython 3.11 with its defaults does
    it.  A string is kept as its bytes in UTF-8.  Its code points are first
    brought to ASCII: a code point below 127 stays, a white space of Unicode
    becomes a space, a decimal digit of Unicode (version 14.0) becomes the
    ASCII digit of its value, and anything else makes the conversion fail.
    Of the result the ASCII white space (9 to 13, and 32) at both ends is
    dropped, one sign is allowed, single underscores may separate digits,
    and more than 4300 digits are refused.  Every failure is a
    [ValueError]. *)
Definition continuation (b : ascii) : option N :=
  let n := N_of_ascii b in
  if ((128 <=? n) && (n <? 192))%N then Some (n - 128)%N else None.

(** The code points of a string in UTF-8; bytes that are the UTF-8 form of
    no string have none. *)
Fixpoint code_points (bs : list ascii) : option (list N) :=
  match bs with
  | [] => Some []
  | b0 :: bs1 =>
      let n0 := N_of_ascii b0 in
      if (n0 <? 128)%N then cons n0 <$> code_points bs1
      else if ((192 <=? n0) && (n0 <? 224))%N then
        match bs1 with
        | b1 :: bs2 =>
            match continuation b1 with
            | Some c1 =>
                let cp := ((n0 - 192) * 64 + c1)%N in
                if (128 <=? cp)%N then cons cp <$> code_points bs2 else None
            | None => None
            end
        | [] => None
        end
      else if ((224 <=? n0) && (n0 <? 240))%N then
        match bs1 with
        | b1 :: b2 :: bs3 =>
            match continuation b1, continuation b2 with
            | Some c1, Some c2 =>
                let cp := (((n0 - 224) * 64 + c1) * 64 + c2)%N in
                if (2048 <=? cp)%N then cons cp <$> code_points bs3 else None
            | _, _ => None
            end
        | _ => None
        end
      else if ((240 <=? n0) && (n0 <? 248))%N then
        match bs1 with
        | b1 :: b2 :: b3 :: bs4 =>
            match continuation b1, continuation b2, continuation b3 with
            | Some c1, Some c2, Some c3 =>
                let cp := ((((n0 - 240) * 64 + c1) * 64 + c2) * 64 + c3)%N in
                if ((65536 <=? cp) && (cp <=? 1114111))%N
                then cons cp <$> code_points bs4 else None
            | _, _, _ => None
            end
        | _ => None
        end
      else None
  end.

(** The white space of Unicode beyond ASCII. *)
Definition unicode_spaces : list N :=
  [133; 160; 5760; 8192; 8193; 8194; 8195; 8196; 8197; 8198; 8199; 8200;
   8201; 8202; 8232; 8233; 8239; 8287; 12288]%N.

(** The digit zero of each run of ten decimal digits of Unicode 14.0 beyond
    ASCII. *)
Definition decimal_zeros : list N :=
  [1632; 1776; 1984; 2406; 2534; 2662; 2790; 2918; 3046; 3174; 3302; 3430;
   3558; 3664; 3792; 3872; 4160; 4240; 6112; 6160; 6470; 6608; 6784; 6800;
   6992; 7088; 7232; 7248; 42528; 43216; 43264; 43472; 43504; 43600; 44016;
   65296; 66720; 68912; 69734; 69872; 69942; 70096; 70384; 70736; 70864;
   71248; 71360; 71472; 71904; 72016; 72784; 73040; 73120; 92768; 92864;
   93008; 120782; 120792; 120802; 120812; 120822; 123200; 123632; 125264;
   130032]%N.

Definition unicode_decimal (cp : N) : option N :=
  (fun zero => (cp - zero)%N)
  <$> List.find (fun zero => ((zero <=? cp) && (cp <? zero + 10))%N)
        decimal_zeros.

(** The ASCII character parsed in place of a code point. *)
Definition to_ascii (cp : N) : option ascii :=
  if (cp <? 127)%N then Some (ascii_of_N cp)
  else if existsb (N.eqb cp) unicode_spaces then Some " "%char
  else (fun d => ascii_of_N (48 + d)) <$> unicode_decimal cp.

Definition is_space (c : ascii) : bool :=
  let n := N_of_ascii c in
  ((9 <=? n) && (n <=? 13) || (n =? 32))%N.

Definition is_digit (c : ascii) : bool :=
  let n := N_of_ascii c in ((48 <=? n) && (n <=? 57))%N.

Definition digit_val (c : ascii) : Z := Z.of_N (N_of_ascii c) - 48.

Fixpoint lstrip (cs : list ascii) : list ascii :=
  match cs with
  | c :: cs' => if is_space c then lstrip cs' else cs
  | [] => []
  end.

Definition strip (cs : list ascii) : list ascii :=
  rev (lstrip (rev (lstrip cs))).

Fixpoint digits_acc (cs : list ascii) (after_digit : bool) (acc : Z)
  : option Z :=
  match cs with
  | [] => if after_digit then Some acc else None
  | c :: cs' =>
      if is_digit c then digits_acc cs' true (10 * acc + digit_val c)
      else if Ascii.eqb c "_" && after_digit then digits_acc cs' false acc
      else None
  end.

(** [sys.int_max_str_digits], by default. *)
Definition int_max_str_digits : nat := 4300.

Definition int_of_string (s : string) : option Z :=
  match code_points (list_ascii_of_string s) with
  | Some cps =>
      match mapM to_ascii cps with
      | Some chars =>
          if (length (List.filter is_digit chars) <=? int_max_str_digits)%nat
          then
            match strip chars with
            | c :: cs =>
                if Ascii.eqb c "-" then Z.opp <$> digits_acc cs false 0
                else if Ascii.eqb c "+" then digits_acc cs false 0
                else digits_acc (c :: cs) false 0
            | [] => None
            end
          else None
      | None => None
      end
  | None => None
  end.

(** [int(f)] for a float: truncation toward zero. *)
Definition int_of_float (f : spec_float) : outcome Z :=
  match f with
  | S754_zero _ => Ok 0
  | S754_infinity _ => Raise OverflowError
  | S754_nan => Raise ValueError
  | S754_finite sign m e =>
      let mag := Z.shiftl (Z.pos m) e in
      Ok (if sign then - mag else mag)
  end.

(** [int(v)] *)
Definition py_int (v : jvalue) : outcome Z :=
  match v with
  | JNull => Raise TypeError
  | JBool b => Ok (if b then 1 else 0)
  | JInt z => Ok z
  | JFloat f => int_of_float f
  | JStr s =>
      match int_of_string s with
      | Some z => Ok z
      | None => Raise ValueError
      end
  | JArr _ | JObj _ => Raise TypeError
  end.

(** ** Module state *)

(** Address of a payload dict on the heap. *)
Abbreviation addr := nat.

Module Mission.
  (** The dict built by [_start_new_mission].  [last_status] is [None] or a
      reference to the payload object last folded into the mission. *)
Record t : Type := mk {
    id : string;
    started_at : string;
    ended_at : option string;
    status : string;
    waypoints_reached : gset Z;
    waypoints_unreachable : gset Z;
    images_count : Z;
    last_status : option addr
  }.

Definition set_ended_at (v : option string) (m : t) : t :=
    mk (id m) (started_at m) v (status m) (waypoints_reached m)
       (waypoints_unreachable m) (images_count m) (last_status m).
Definition set_status (v : string) (m : t) : t :=
    mk (id m) (started_at m) (ended_at m) v (waypoints_reached m)
       (waypoints_unreachable m) (images_count m) (last_status m).
Definition set_waypoints_reached (v : gset Z) (m : t) : t :=
    mk (id m) (started_at m) (ended_at m) (status m) v
       (waypoints_unreachable m) (images_count m) (last_status m).
Definition set_waypoints_unreachable (v : gset Z) (m : t) : t :=
    mk (id m) (started_at m) (ended_at m) (status m) (waypoints_reached m)
       v (images_count m) (last_status m).
Definition set_images_count (v : Z) (m : t) : t :=
    mk (id m) (started_at m) (ended_at m) (status m) (waypoints_reached m)
       (waypoints_unreachable m) v (last_status m).
Definition set_last_status (v : option addr) (m : t) : t :=
    mk (id m) (started_at m) (ended_at m) (status m) (waypoints_reached m)
       (waypoints_unreachable m) (images_count m) v.
End Mission.

(** The module-level variables (source lines 36-41) and the heap of payload
    dicts they and the missions refer to. *)
Record state : Type := mkState {
  MISSION_STATE : string;
  LAST_STATUS : addr;
  CURRENT_MISSION_ID : option string;
  MISSIONS : list (string * Mission.t);
  CONTROL_COMMAND : string;
  LAST_TERMINAL_STATUS : option string;
  heap : list dict
}.

Definition set_MISSION_STATE (v : string) (s : state) : state :=
  mkState v (LAST_STATUS s) (CURRENT_MISSION_ID s) (MISSIONS s)
          (CONTROL_COMMAND s) (LAST_TERMINAL_STATUS s) (heap s).
Definition set_LAST_STATUS (v : addr) (s : state) : state :=
  mkState (MISSION_STATE s) v (CURRENT_MISSION_ID s) (MISSIONS s)
          (CONTROL_COMMAND s) (LAST_TERMINAL_STATUS s) (heap s).
Definition set_CURRENT_MISSION_ID (v : option string) (s : state) : state :=
  mkState (MISSION_STATE s) (LAST_STATUS s) v (MISSIONS s)
          (CONTROL_COMMAND s) (LAST_TERMINAL_STATUS s) (heap s).
Definition set_MISSIONS (v : list (string * Mission.t)) (s : state) : state :=
  mkState (MISSION_STATE s) (LAST_STATUS s) (CURRENT_MISSION_ID s) v
          (CONTROL_COMMAND s) (LAST_TERMINAL_STATUS s) (heap s).
Definition set_CONTROL_COMMAND (v : string) (s : state) : state :=
  mkState (MISSION_STATE s) (LAST_STATUS s) (CURRENT_MISSION_ID s) (MISSIONS s)
          v (LAST_TERMINAL_STATUS s) (heap s).
Definition set_LAST_TERMINAL_STATUS (v : option string) (s : state) : state :=
  mkState (MISSION_STATE s) (LAST_STATUS s) (CURRENT_MISSION_ID s) (MISSIONS s)
          (CONTROL_COMMAND s) v (heap s).
Definition set_heap (v : list dict) (s : state) : state :=
  mkState (MISSION_STATE s) (LAST_STATUS s) (CURRENT_MISSION_ID s) (MISSIONS s)
          (CONTROL_COMMAND s) (LAST_TERMINAL_STATUS s) v.

(** The state right after the module is loaded: [LAST_STATUS = {}] is the
    one dict on the heap. *)
Definition initial_state : state :=
  mkState "idle" 0%nat None [] "none" None [ [] ].

(** The dict at an address. *)
Definition deref (s : state) (a : addr) : dict := default [] (heap s !! a).

(** ** The monad of handlers: module state and escaping exceptions *)

Definition M (A : Type) : Type := state -> state * outcome A.

#[export] Instance M_ret : MRet M := fun A a s => (s, Ok a).
#[export] Instance M_bind : MBind M := fun A B k c s =>
  match c s with
  | (s', Ok a) => k a s'
  | (s', Raise e) => (s', Raise e)
  end.

Definition get : M state := fun s => (s, Ok s).
Definition modify (f : state -> state) : M unit := fun s => (f s, Ok tt).
Definition raise {A : Type} (e : exn) : M A := fun s => (s, Raise e).
Definition lift {A : Type} (o : outcome A) : M A := fun s => (s, o).
Definition when (b : bool) (c : M unit) : M unit := if b then c else mret tt.

(** A new dict object. *)
Definition alloc (d : dict) : M addr :=
  fun s => (set_heap (heap s ++ [d]) s, Ok (length (heap s))).

(** In-place mutation of the dict at [a]. *)
Definition mutate (a : addr) (f : dict -> dict) : M unit :=
  modify (fun s => set_heap (<[a := f (deref s a)]> (heap s)) s).

(** In-place mutation of the mission dict registered under [mid]. *)
Definition update_mission (mid : string) (f : Mission.t -> Mission.t) : M unit :=
  modify (fun s =>
    match dict_get (MISSIONS s) mid with
    | Some m => set_MISSIONS (dict_set (MISSIONS s) mid (f m)) s
    | None => s
    end).

(** [not CURRENT_MISSION_ID]: [None] and the empty string are false. *)
Definition id_truthy (o : option string) : bool :=
  match o with
  | Some k => negb (String.eqb k "")
  | None => false
  end.

(** [mission = MISSIONS.get(CURRENT_MISSION_ID)]: the mission dict found,
    together with the key it is registered under, which is how the handlers
    below refer to that object when they mutate it. *)
Definition current_mission (s : state) : option (string * Mission.t) :=
  match CURRENT_MISSION_ID s with
  | Some k => pair k <$> dict_get (MISSIONS s) k
  | None => None
  end.

(** [CURRENT_MISSION_ID or d] *)
Definition current_id_or (s : state) (d : string) : string :=
  match CURRENT_MISSION_ID s with
  | Some k => if String.eqb k "" then d else k
  | None => d
  end.

(** [None] or a string, as a JSON value. *)
Definition jopt (o : option string) : jvalue :=
  match o with Some t => JStr t | None => JNull end.

(** ** Helpers: missions (source lines 48-146) *)

(** What [_start_new_mission] reads from the clock and from [uuid4]:
    [ts] is [datetime.now().strftime("%Y%m%d_%H%M%S")], [short] is
    [uuid.uuid4().hex[:6].upper()], [created] is
    [datetime.now().isoformat(timespec="seconds")]. *)
Record mission_env : Type := mkEnv {
  ts : string;
  short : string;
  created : string
}.

Definition _new_mission_id (e : mission_env) : string :=
  "mission_" +:+ ts e +:+ "_" +:+ short e.

Definition _start_new_mission (e : mission_env) : M string :=
  let mission_id := _new_mission_id e in
  let now := created e in
  modify (fun s =>
    set_MISSIONS
      (dict_set (MISSIONS s) mission_id
         (Mission.mk mission_id now None "pending" ∅ ∅ 0 None)) s);;
  modify (set_CURRENT_MISSION_ID (Some mission_id));;
  modify (set_LAST_TERMINAL_STATUS None);;
  mret mission_id.

(** [mission["waypoints_reached"].add(i)] and its sibling. *)
Definition add_reached (i : Z) (m : Mission.t) : Mission.t :=
  Mission.set_waypoints_reached ({[i]} ∪ Mission.waypoints_reached m) m.
Definition add_unreachable (i : Z) (m : Mission.t) : Mission.t :=
  Mission.set_waypoints_unreachable ({[i]} ∪ Mission.waypoints_unreachable m) m.

(** The shared tail of the two waypoint branches: [idx = payload.get("index")],
    then [add(int(idx))] unless [idx is None]. *)
Definition add_waypoint (payload : dict) (mid : string)
    (add : Z -> Mission.t -> Mission.t) : M unit :=
  match dict_get payload "index" with
  | None | Some JNull => mret tt
  | Some idx => i ← lift (py_int idx); update_mission mid (add i)
  end.

(** A terminal transition: status, [ended_at] and [LAST_TERMINAL_STATUS]. *)
Definition finish (mid : string) (st : string) (now : string)
    (terminal : string) : M unit :=
  update_mission mid (Mission.set_status st);;
  update_mission mid (Mission.set_ended_at (Some now));;
  modify (set_LAST_TERMINAL_STATUS (Some terminal)).

(** Lines 88-121 of [_update_mission_on_status]: the report is folded into
    the current mission.  [payload] is the content of the dict at
    [status_payload]; [now] is the clock reading of line 94. *)
Definition fold_status (payload : dict) (status_payload : addr)
    (now : string) : M unit :=
  s ← get;
  match current_mission s with
  | None => mret tt
  | Some (mid, mission) =>
      update_mission mid (Mission.set_last_status (Some status_payload));;
      let status := default (JStr "") (dict_get payload "status") in
      when (py_eq_str status "mission_started")
        (update_mission mid (Mission.set_status "running"));;
      (if py_eq_str status "waypoint_reached" then
         add_waypoint payload mid add_reached
       else if py_eq_str status "waypoint_unreachable" then
         add_waypoint payload mid add_unreachable
       else mret tt);;
      if py_eq_str status "mission_complete"
         || py_eq_str status "mission_complete_after_abort"
      then finish mid "complete" now "mission_complete"
      else
        home ← lift (py_startswith status "home_unreachable");
        if home : bool
        then finish mid "home_unreachable" now "home_unreachable"
        else if py_eq_str status "mission_aborted_by_operator"
        then finish mid "aborted" now "mission_aborted_by_operator"
        else mret tt
  end.

(** [status_payload] is the address of the payload dict.  Lines 82-86 decide
    whether there is a mission to update, creating one for a
    [mission_started] report. *)
Definition _update_mission_on_status (status_payload : addr)
    (e : mission_env) (now : string) : M unit :=
  s ← get;
  let payload := deref s status_payload in
  proceed ←
    (if negb (id_truthy (CURRENT_MISSION_ID s)) then
       if py_eq_str (default JNull (dict_get payload "status")) "mission_started"
       then _start_new_mission e;; mret true
       else mret false
     else mret true);
  if proceed : bool then fold_status payload status_payload now else mret tt.

(** [mission["images_count"] += 1] *)
Definition count_image (m : Mission.t) : Mission.t :=
  Mission.set_images_count (Mission.images_count m + 1) m.

(** [if mission["status"] == "pending": mission["status"] = "running"] *)
Definition advance_pending (m : Mission.t) : Mission.t :=
  if String.eqb (Mission.status m) "pending"
  then Mission.set_status "running" m else m.

Definition _register_image_for_current_mission (e : mission_env) : M unit :=
  s ← get;
  when (negb (id_truthy (CURRENT_MISSION_ID s)))
    (_start_new_mission e;; mret tt);;
  s ← get;
  match current_mission s with
  | None => mret tt
  | Some (mid, mission) =>
      update_mission mid count_image;;
      update_mission mid advance_pending
  end.

(** ** [sorted] *)

(** Python's [sorted] is stable, also with [reverse=True]: elements whose
    keys compare equal keep their order of the input.  It is modelled by a
    stable insertion sort; [before k1 k2] tells that an element of key [k1]
    met first may stay in front of an element of key [k2]. *)
Section PySorted.
Context {A K : Type} (key : A -> K) (before : K -> K -> bool).

Fixpoint insert_sorted (x : A) (l : list A) : list A :=
  match l with
  | [] => [x]
  | y :: l' =>
      if before (key x) (key y) then x :: y :: l' else y :: insert_sorted x l'
  end.

Fixpoint py_sorted (l : list A) : list A :=
  match l with
  | [] => []
  | x :: l' => insert_sorted x (py_sorted l')
  end.

(** [x] may stay in front of [y]. *)
Definition in_order (x y : A) : Prop := before (key x) (key y) = true.
End PySorted.

(** [sorted(l)] on integers. *)
Definition sorted_ints (l : list Z) : list Z := py_sorted (fun z => z) Z.leb l.

(** [sorted(l, key=key, reverse=True)] with string keys. *)
Definition sorted_reverse {A : Type} (key : A -> string) (l : list A) : list A :=
  py_sorted key (fun k1 k2 => String.leb k2 k1) l.

(** [a or b] on strings. *)
Definition str_or (a b : string) : string := if String.eqb a "" then b else a.

Module Summary.
(** The dict [_mission_summary] returns. *)
Record t : Type := mk {
  id : string;
  started_at : string;
  ended_at : option string;
  status : string;
  waypoints_reached : list Z;
  waypoints_unreachable : list Z;
  images_count : Z
}.
End Summary.

Definition _mission_summary (mission : Mission.t) : Summary.t :=
  Summary.mk (Mission.id mission) (Mission.started_at mission)
    (Mission.ended_at mission) (Mission.status mission)
    (sorted_ints (elements (Mission.waypoints_reached mission)))
    (sorted_ints (elements (Mission.waypoints_unreachable mission)))
    (Mission.images_count mission).

(** ** Routes (source lines 462-552, 656-657) *)

(** The JSON bodies the handlers return. *)
Inductive response : Type :=
| RStartMission (mission_id : string)  (* {"ok": True, "mission_id": ..} *)
| RMissionState (st : string)          (* {"mission_state": ..} *)
| RCommandSet (command : string)       (* {"ok": True, "command": ..} *)
| RCommand (cmd : string)              (* {"command": ..} *)
| ROk                                  (* {"ok": True} *)
| RStatus (d : dict)                   (* a status dict *)
| RMissions (items : list Summary.t)   (* {"missions": [..]} *)
| RImage (mission_id : string).        (* the id the photo is filed under *)

(** [jsonify] is imported from flask on line 3. *)
Definition jsonify (r : response) : M response := mret r.

(** [jupytext], called on line 496, is bound nowhere in the module (neither
    defined nor imported): evaluating the name raises [NameError]. *)
Definition jupytext (r : response) : M response := raise NameError.

Definition start_mission (e : mission_env) : M response :=
  modify (set_MISSION_STATE "start");;
  mission_id ← _start_new_mission e;
  s ← get;
  mutate (LAST_STATUS s) (fun d => dict_setdefault d "status" (JStr "mission_idle"));;
  mutate (LAST_STATUS s) (fun d => dict_set d "mission_id" (JStr mission_id));;
  modify (set_LAST_TERMINAL_STATUS None);;
  jsonify (RStartMission mission_id).

Definition mission_state : M response :=
  s ← get;
  let st := MISSION_STATE s in
  when (String.eqb (MISSION_STATE s) "start") (modify (set_MISSION_STATE "idle"));;
  jsonify (RMissionState st).

Definition abort_mission : M response :=
  modify (set_CONTROL_COMMAND "abort");;
  jsonify (RCommandSet "abort").

Definition return_home : M response :=
  modify (set_CONTROL_COMMAND "go_home");;
  jupytext (RCommandSet "go_home").

Definition control_state : M response :=
  s ← get;
  let cmd := CONTROL_COMMAND s in
  modify (set_CONTROL_COMMAND "none");;
  jsonify (RCommand cmd).

(** The body of a request to [/status_update]: [get_json(force=True)] either
    raises (caught on line 512) or yields the parsed value. *)
Inductive request_body : Type :=
| Unparseable
| Parsed (v : jvalue).

(** Lines 510-513: [request.get_json(force=True) or {}], or the sentinel. *)
Definition get_payload (body : request_body) : jvalue :=
  match body with
  | Unparseable => JObj [("status", JStr "bad_status_payload")]
  | Parsed v => if truthy v then v else JObj []
  end.

Definition status_update (body : request_body) (e : mission_env)
    (now : string) : M response :=
  (* [payload.get] on line 515: only a dict has the method *)
  payload ← match get_payload body with
            | JObj d => alloc d
            | _ => raise AttributeError
            end;
  s ← get;
  let status := default (JStr "") (dict_get (deref s payload) "status") in
  when (py_eq_str status "mission_idle") (modify (set_MISSION_STATE "idle"));;
  s ← get;
  mutate payload (fun d => dict_setdefault d "mission_state" (JStr (MISSION_STATE s)));;
  mutate payload (fun d => dict_setdefault d "mission_id" (JStr (current_id_or s "—")));;
  modify (set_LAST_STATUS payload);;
  _update_mission_on_status payload e now;;
  jsonify ROk.

Definition last_status : M response :=
  s ← get;
  let a := LAST_STATUS s in
  if negb (truthy (JObj (deref s a))) then
    jsonify (RStatus [("status", JStr "no_status_yet");
                      ("mission_state", JStr (MISSION_STATE s));
                      ("mission_id", JStr (current_id_or s "—"));
                      ("terminal_status", jopt (LAST_TERMINAL_STATUS s))])
  else
    when (negb (dict_mem (deref s a) "mission_state"))
      (mutate a (fun d => dict_set d "mission_state" (JStr (MISSION_STATE s))));;
    s ← get;
    when (negb (dict_mem (deref s a) "mission_id"))
      (mutate a (fun d => dict_set d "mission_id" (JStr (current_id_or s "—"))));;
    mutate a (fun d => dict_set d "terminal_status" (jopt (LAST_TERMINAL_STATUS s)));;
    s ← get;
    jsonify (RStatus (deref s a)).

Definition missions : M response :=
  s ← get;
  let items := map _mission_summary (dict_values (MISSIONS s)) in
  let items_sorted :=
    sorted_reverse (fun x => str_or (Summary.started_at x) "") items in
  jsonify (RMissions items_sorted).

(** [registerImage]: what [upload_photo] does to the module state (lines
    656-657) before it stores the file under the id it read. *)
Definition register_image (e : mission_env) : M response :=
  _register_image_for_current_mission e;;
  s ← get;
  mret (RImage (current_id_or s "nomission")).

(** ** Requests and their sequential execution *)

Inductive op : Type :=
| StartMission (e : mission_env)
| MissionState
| AbortMission
| ReturnHome
| ControlState
| StatusUpdate (body : request_body) (e : mission_env) (now : string)
| LastStatus
| ListMissions
| RegisterImage (e : mission_env).

Definition handle (o : op) : M response :=
  match o with
  | StartMission e => start_mission e
  | MissionState => mission_state
  | AbortMission => abort_mission
  | ReturnHome => return_home
  | ControlState => control_state
  | StatusUpdate body e now => status_update body e now
  | LastStatus => last_status
  | ListMissions => missions
  | RegisterImage e => register_image e
  end.

(** The handlers run one after the other; an exception that escapes one is
    turned into a response by Flask and the next request runs on the state it
    left. *)
Fixpoint run (ops : list op) (s : state) : state * list (outcome response) :=
  match ops with
  | [] => (s, [])
  | o :: ops' =>
      let '(s1, r) := handle o s in
      let '(s2, rs) := run ops' s1 in
      (s2, r :: rs)
  end.

Definition exec (ops : list op) (s : state) : state := fst (run ops s).
Definition replies (ops : list op) (s : state) : list (outcome response) :=
  snd (run ops s).

(** ** Definitions used by the statements and the proofs *)

(** The state with the mission dict under [mid] replaced. *)
Definition with_mission (s : state) (mid : string) (m : Mission.t) : state :=
  set_MISSIONS (dict_set (MISSIONS s) mid m) s.

(** What a waypoint branch makes of the mission: the new record, or the
    exception [int] raised. *)
Definition waypoint_effect (payload : dict) (add : Z → Mission.t → Mission.t)
    (m : Mission.t) : outcome Mission.t :=
  match dict_get payload "index" with
  | None | Some JNull => Ok m
  | Some idx =>
      match py_int idx with
      | Ok i => Ok (add i m)
      | Raise ex => Raise ex
      end
  end.

(** The effect of lines 92-121 on the current mission record [m] and on
    [LAST_TERMINAL_STATUS]; [fold_status_eq] derives it from
    [_update_mission_on_status]. *)
Definition report_effect (payload : dict) (a : addr) (now : string)
    (m : Mission.t) (terminal : option string)
  : Mission.t * option string * outcome unit :=
  let status := default (JStr "") (dict_get payload "status") in
  let m1 := Mission.set_last_status (Some a) m in
  let m2 := if py_eq_str status "mission_started"
            then Mission.set_status "running" m1 else m1 in
  let r3 := if py_eq_str status "waypoint_reached"
            then waypoint_effect payload add_reached m2
            else if py_eq_str status "waypoint_unreachable"
            then waypoint_effect payload add_unreachable m2
            else Ok m2 in
  let ended st m := Mission.set_ended_at (Some now) (Mission.set_status st m) in
  match r3 with
  | Raise ex => (m2, terminal, Raise ex)
  | Ok m3 =>
      if py_eq_str status "mission_complete"
         || py_eq_str status "mission_complete_after_abort"
      then (ended "complete" m3, Some "mission_complete", Ok tt)
      else
        match py_startswith status "home_unreachable" with
        | Raise ex => (m3, terminal, Raise ex)
        | Ok true => (ended "home_unreachable" m3, Some "home_unreachable", Ok tt)
        | Ok false =>
            if py_eq_str status "mission_aborted_by_operator"
            then (ended "aborted" m3, Some "mission_aborted_by_operator", Ok tt)
            else (m3, terminal, Ok tt)
        end
  end.

(** The mission dict of lines 61-70. *)
Definition fresh_mission (e : mission_env) : Mission.t :=
  Mission.mk (_new_mission_id e) (created e) None "pending" ∅ ∅ 0 None.

(** The state [_start_new_mission] leaves. *)
Definition started (s : state) (e : mission_env) : state :=
  set_LAST_TERMINAL_STATUS None
    (set_CURRENT_MISSION_ID (Some (_new_mission_id e))
       (with_mission s (_new_mission_id e) (fresh_mission e))).

(** The payload after the two [setdefault] of lines 520-521. *)
Definition defaulted (s : state) (d : dict) : dict :=
  let status := default (JStr "") (dict_get d "status") in
  let mission_state :=
    if py_eq_str status "mission_idle" then "idle" else MISSION_STATE s in
  dict_setdefault
    (dict_setdefault d "mission_state" (JStr mission_state))
    "mission_id" (JStr (current_id_or s "—")).

(** The state on line 526: the payload is a new object, [LAST_STATUS] refers
    to it, and [MISSION_STATE] is [idle] if the agent said so. *)
Definition received (s : state) (d : dict) : state :=
  let status := default (JStr "") (dict_get d "status") in
  let s0 := if py_eq_str status "mission_idle"
            then set_MISSION_STATE "idle" s else s in
  set_LAST_STATUS (length (heap s)) (set_heap (heap s ++ [defaulted s d]) s0).

(** The reply of [status_update], from the outcome of the helper. *)
Definition reply_ok (r : outcome unit) : outcome response :=
  match r with Ok _ => Ok ROk | Raise ex => Raise ex end.

(** A report of a reached waypoint whose index is the string [abc]. *)
Definition bad_index_report : request_body :=
  Parsed (JObj [("status", JStr "waypoint_reached"); ("index", JStr "abc")]).

Definition started_report : request_body :=
  Parsed (JObj [("status", JStr "mission_started")]).

Definition report (status : string) : request_body :=
  Parsed (JObj [("status", JStr status)]).

Definition report_at (status : string) (index : Z) : request_body :=
  Parsed (JObj [("status", JStr status); ("index", JInt index)]).

(** What [last_status] makes of the dict [LAST_STATUS] refers to. *)
Definition completed (s : state) (d : dict) : dict :=
  let d1 := if dict_mem d "mission_state" then d
            else dict_set d "mission_state" (JStr (MISSION_STATE s)) in
  let d2 := if dict_mem d1 "mission_id" then d1
            else dict_set d1 "mission_id" (JStr (current_id_or s "—")) in
  dict_set d2 "terminal_status" (jopt (LAST_TERMINAL_STATUS s)).

(** [LAST_STATUS] refers to a dict of the heap. *)
Definition snapshot_valid (s : state) : Prop :=
  (LAST_STATUS s < length (heap s))%nat.

(** The state in which the dict [LAST_STATUS] refers to is [x]. *)
Definition with_snapshot (s : state) (x : dict) : state :=
  set_heap (<[LAST_STATUS s := x]> (heap s)) s.

(** A state in which the agent has reported once. *)
Definition reported_state : state :=
  exec [StatusUpdate (report "mission_started")
          (mkEnv "20251210_123456" "AB12CD" "2025-12-10T12:34:56")
          "2025-12-10T12:34:57"] initial_state.

(** Two missions started within the same second. *)
Definition tied_state : state :=
  exec [StartMission (mkEnv "20251210_123456" "AAAAAA" "2025-12-10T12:34:56");
        StartMission (mkEnv "20251210_123456" "BBBBBB" "2025-12-10T12:34:56")]
    initial_state.

(** The id the request draws if it has to create a mission. *)
Definition drawn_id (o : op) : option string :=
  match o with
  | StartMission e | StatusUpdate _ e _ | RegisterImage e =>
      Some (_new_mission_id e)
  | _ => None
  end.

(** The statuses on which lines 96-121 assign [mission["status"]]. *)
Definition lifecycle_status (d : dict) : bool :=
  let status := default (JStr "") (dict_get d "status") in
  py_eq_str status "mission_started"
  || py_eq_str status "mission_complete"
  || py_eq_str status "mission_complete_after_abort"
  || match py_startswith status "home_unreachable" with
     | Ok b => b
     | Raise _ => false
     end
  || py_eq_str status "mission_aborted_by_operator".

Definition lifecycle_report (o : op) : bool :=
  match o with
  | StatusUpdate body _ _ =>
      match get_payload body with
      | JObj d => lifecycle_status d
      | _ => false
      end
  | _ => false
  end.

(** A request is [quiet] for a mission when it leaves its image count at
    least as large, leaves it untouched unless it is the current one, and,
    provided [keeps] holds, leaves its status. *)
Definition quiet (s s' : state) (mid : string) (m : Mission.t) (keeps : Prop)
  : Prop :=
  ∃ m', dict_get (MISSIONS s') mid = Some m'
    ∧ Mission.images_count m ≤ Mission.images_count m'
    ∧ (CURRENT_MISSION_ID s ≠ Some mid →
       m' = m ∧ CURRENT_MISSION_ID s' ≠ Some mid)
    ∧ (keeps → Mission.status m' = Mission.status m).

(** [complete], [home_unreachable], [aborted]. *)
Definition terminal (status : string) : bool :=
  String.eqb status "complete" || String.eqb status "home_unreachable"
  || String.eqb status "aborted".

Definition first_env : mission_env :=
  mkEnv "20251210_123456" "AB12CD" "2025-12-10T12:34:56".

(** Flask serves each request in a thread of its own and the module has no
    lock.  [control_state] reads the global on line 502 and writes it on line
    503; under the interpreter lock each of the two is atomic and another
    thread can run in between.  A poller is at one of three points. *)
Inductive poller : Type :=
| BeforeRead                 (* line 502 not yet executed *)
| BeforeWrite (cmd : string) (* [cmd] read on line 502, line 503 pending *)
| Returned (cmd : string).   (* replied [{"command": cmd}] *)

(** One atomic step of a poller. *)
Definition poller_step (s : state) (p : poller) : state * poller :=
  match p with
  | BeforeRead => (s, BeforeWrite (CONTROL_COMMAND s))
  | BeforeWrite cmd => (set_CONTROL_COMMAND "none" s, Returned cmd)
  | Returned cmd => (s, Returned cmd)
  end.

(** The scheduler lets poller [i] take its next step. *)
Definition schedule_step (c : state * list poller) (i : nat)
  : state * list poller :=
  match c.2 !! i with
  | Some p => let '(s', p') := poller_step c.1 p in (s', <[i := p']> c.2)
  | None => c
  end.

(** An interleaving is the list of the pollers scheduled, in order. *)
Definition interleave (sched : list nat) (c : state * list poller)
  : state * list poller :=
  foldl schedule_step c sched.

(** The command a poller has read, if it has. *)
Definition observed (p : poller) : option string :=
  match p with
  | BeforeRead => None
  | BeforeWrite cmd | Returned cmd => Some cmd
  end.

Definition has_returned (p : poller) : bool :=
  match p with Returned _ => true | _ => false end.

(** The schedule that runs pollers [i], [i+1], ... one after the other. *)
Fixpoint serial (i n : nat) : list nat :=
  match n with
  | O => []
  | S n' => i :: i :: serial (S i) n'
  end.

(** What holds of the register and the pollers along every interleaving
    that starts with the command [cmd] pending and nobody polling. *)
Definition race_inv (cmd : string) (c : state * list poller) : Prop :=
  (∀ j p v, c.2 !! j = Some p → observed p = Some v → v = cmd ∨ v = "none")
  ∧ (CONTROL_COMMAND c.1 = cmd ∨ CONTROL_COMMAND c.1 = "none")
  ∧ (CONTROL_COMMAND c.1 = cmd →
     ∀ j p, c.2 !! j = Some p → p = BeforeRead ∨ p = BeforeWrite cmd)
  ∧ (CONTROL_COMMAND c.1 ≠ cmd →
     ∃ j p, c.2 !! j = Some p ∧ observed p = Some cmd).

(** What [n] polls return when they run one after the other. *)
Fixpoint polled (n : nat) (s : state) : list poller :=
  match n with
  | O => []
  | S n' => Returned (CONTROL_COMMAND s) :: polled n' (set_CONTROL_COMMAND "none" s)
  end.

(** The pollers of two requests that both read before either writes. *)
Definition racing_polls : state * list poller :=
  interleave [0; 1; 0; 1]%nat ((abort_mission initial_state).1,
                               [BeforeRead; BeforeRead]).

(** ** Definitions for the invariants of the registry *)

(** The command a request stores in [CONTROL_COMMAND], if it stores one. *)
Definition stored_command (o : op) : option string :=
  match o with
  | AbortMission => Some "abort"
  | ReturnHome => Some "go_home"
  | ControlState => Some "none"
  | _ => None
  end.

(** The five values [mission["status"]] is ever assigned (lines 65-119). *)
Definition known_status (status : string) : bool :=
  String.eqb status "pending" || String.eqb status "running"
  || terminal status.

(** What every mission dict of the registry satisfies. *)
Definition mission_ok (m : Mission.t) : Prop :=
  known_status (Mission.status m) = true
  ∧ (terminal (Mission.status m) = true → Mission.ended_at m ≠ None)
  ∧ 0 ≤ Mission.images_count m.

(** The three values [LAST_TERMINAL_STATUS] is ever assigned, or [None]. *)
Definition terminal_ok (t : option string) : Prop :=
  t = None ∨ t = Some "mission_complete" ∨ t = Some "home_unreachable"
  ∨ t = Some "mission_aborted_by_operator".

(** The registry is keyed by the ids of its missions, and the current id,
    when there is one, is a non-empty registered key. *)
Definition registry_ok (s : state) : Prop :=
  (∀ k m, dict_get (MISSIONS s) k = Some m → Mission.id m = k ∧ mission_ok m)
  ∧ match CURRENT_MISSION_ID s with
    | Some k => String.eqb k "" = false ∧ is_Some (dict_get (MISSIONS s) k)
    | None => True
    end
  ∧ terminal_ok (LAST_TERMINAL_STATUS s).

(** One request changes a mission dict and [LAST_TERMINAL_STATUS] in one of
    three ways: not at all, by folding a report, or by counting a photo. *)
Definition mission_step (m : Mission.t) (t : option string)
    (m' : Mission.t) (t' : option string) : Prop :=
  (m' = m ∧ t' = t)
  ∨ (∃ payload a now, (m', t') = (report_effect payload a now m t).1)
  ∨ (m' = advance_pending (count_image m) ∧ t' = t).

(** How one request changes the registry: it leaves it, or changes the
    current mission by a [mission_step], or registers a new current mission
    under the id it draws. *)
Definition registry_step (o : op) (s s' : state) : Prop :=
  (MISSIONS s' = MISSIONS s
   ∧ CURRENT_MISSION_ID s' = CURRENT_MISSION_ID s
   ∧ LAST_TERMINAL_STATUS s' = LAST_TERMINAL_STATUS s)
  ∨ (∃ k m m',
       current_mission s = Some (k, m)
       ∧ id_truthy (CURRENT_MISSION_ID s) = true
       ∧ MISSIONS s' = dict_set (MISSIONS s) k m'
       ∧ CURRENT_MISSION_ID s' = CURRENT_MISSION_ID s
       ∧ mission_step m (LAST_TERMINAL_STATUS s) m' (LAST_TERMINAL_STATUS s'))
  ∨ (∃ e m',
       drawn_id o = Some (_new_mission_id e)
       ∧ MISSIONS s' = dict_set (MISSIONS s) (_new_mission_id e) m'
       ∧ CURRENT_MISSION_ID s' = Some (_new_mission_id e)
       ∧ mission_step (fresh_mission e) None m' (LAST_TERMINAL_STATUS s')).

(** [m'] is [m] with possibly more waypoints. *)
Definition more_waypoints (m m' : Mission.t) : Prop :=
  Mission.id m' = Mission.id m
  ∧ Mission.started_at m' = Mission.started_at m
  ∧ Mission.ended_at m' = Mission.ended_at m
  ∧ Mission.status m' = Mission.status m
  ∧ Mission.images_count m' = Mission.images_count m
  ∧ Mission.last_status m' = Mission.last_status m
  ∧ Mission.waypoints_reached m ⊆ Mission.waypoints_reached m'
  ∧ Mission.waypoints_unreachable m ⊆ Mission.waypoints_unreachable m'.

(** The status strings lines 96-121 act on. *)
Definition handled_status (status : string) : bool :=
  String.eqb status "mission_started"
  || String.eqb status "waypoint_reached"
  || String.eqb status "waypoint_unreachable"
  || String.eqb status "mission_complete"
  || String.eqb status "mission_complete_after_abort"
  || String.prefix "home_unreachable" status
  || String.eqb status "mission_aborted_by_operator".

(** ** The photo routes (source lines 555-630 and 647-703) *)

(** What the photo routes read from the disk.  [BASE_SAVE_DIR] (line 26) and
    [os.path.join] depend on where and on which platform the server runs;
    [isdir], [isfile] and [listdir] are [os.path.isdir], [os.path.isfile] and
    [os.listdir]; [load_json p] is the value [json.load] reads from the file
    at [p], [None] if opening or parsing it raises.  File names are strings
    of bytes in UTF-8, whose order is the order of Python's strings.  The
    routes list a directory only after [isdir] has answered [True] for it,
    and [listdir] is taken to answer then. *)
Record disk : Type := mkDisk {
  BASE_SAVE_DIR : string;
  path_join : string -> string -> string;
  isdir : string -> bool;
  isfile : string -> bool;
  listdir : string -> list string;
  load_json : string -> option jvalue
}.

(** [sorted(l)] on strings. *)
Definition sorted_strings (l : list string) : list string :=
  py_sorted (fun x => x) String.leb l.

(** [s.startswith(p)] and [s.endswith(suffix)] on strings. *)
Definition str_startswith (s p : string) : bool := String.prefix p s.

Fixpoint str_endswith (s suffix : string) : bool :=
  String.eqb s suffix
  || match s with
     | EmptyString => false
     | String _ s' => str_endswith s' suffix
     end.

(** [s.split(sep)] for a separator of one character. *)
Fixpoint py_split (sep : ascii) (s : string) : list string :=
  match s with
  | EmptyString => [EmptyString]
  | String c s' =>
      if Ascii.eqb c sep then EmptyString :: py_split sep s'
      else match py_split sep s' with
           | piece :: pieces => String c piece :: pieces
           | [] => [String c EmptyString]
           end
  end.

(** [s.replace(old, new)]: the occurrences of [old] are replaced from left to
    right, and the search goes on behind each one; [skip] counts the
    characters of an occurrence still to pass. *)
Fixpoint replace_from (old new : string) (skip : nat) (s : string) : string :=
  match s with
  | EmptyString => EmptyString
  | String c s' =>
      match skip with
      | S k => replace_from old new k s'
      | O =>
          if String.prefix old s
          then new +:+ replace_from old new (String.length old - 1) s'
          else String c (replace_from old new 0 s')
      end
  end.

Fixpoint replace_empty (new : string) (s : string) : string :=
  match s with
  | EmptyString => EmptyString
  | String c s' => String c (new +:+ replace_empty new s')
  end.

Definition py_replace (old new s : string) : string :=
  match old with
  | EmptyString => new +:+ replace_empty new s
  | String _ _ => replace_from old new 0 s
  end.

Module Photo.
(** An entry of [latest_photos]. *)
Record t : Type := mk {
  url : string;
  label : string
}.
End Photo.

Module Prediction.
(** An entry of [latest_predictions]. *)
Record t : Type := mk {
  url : string;
  label : string;
  detections : jvalue
}.
End Prediction.

(** The bodies the photo routes return. *)
Inductive file_response : Type :=
| RPhotos (photos : list Photo.t)            (* {"photos": [..]} *)
| RPredictions (photos : list Prediction.t)  (* {"photos": [..]} *)
| RNoImage                                   (* the error body, with code 400 *)
| RSaveFailed    (* os.makedirs or file.save raised: the handler is left *)
| RSaved (filename waypoint_folder mission_id : string).

(** The two filters of lines 569 and 602. *)
Definition photo_name (f : string) : bool :=
  str_startswith f "img" && str_endswith f ".jpg".
Definition prediction_name (f : string) : bool :=
  str_startswith f "pred_" && str_endswith f ".jpg".

(** [photos[-8:]]. *)
Definition last_eight {A : Type} (photos : list A) : list A :=
  drop (length photos - 8) photos.

Definition latest_photos (fs : disk) : M file_response :=
  s ← get;
  if negb (id_truthy (CURRENT_MISSION_ID s)) then mret (RPhotos [])
  else
    let mission_id := current_id_or s "" in
    let mission_root := path_join fs (BASE_SAVE_DIR fs) mission_id in
    if negb (isdir fs mission_root) then mret (RPhotos [])
    else
      let photos :=
        foldl (fun photos wp_name =>
                 let wp_path := path_join fs mission_root wp_name in
                 if negb (isdir fs wp_path) then photos
                 else
                   let files :=
                     List.filter photo_name (sorted_strings (listdir fs wp_path)) in
                   match last files with
                   | None => photos
                   | Some last_file =>
                       let url :=
                         "/photo/" +:+ mission_id +:+ "/" +:+ wp_name +:+ "/"
                           +:+ last_file in
                       let label := wp_name +:+ " · " +:+ last_file in
                       photos ++ [Photo.mk url label]
                   end)
          [] (sorted_strings (listdir fs mission_root)) in
      mret (RPhotos (last_eight photos)).

(** Lines 607-611: the index in the name of a prediction image. *)
Definition image_index_of (file : string) : string :=
  match py_split "_" file !! 1%nat with
  | Some img_part => py_replace "img" "" img_part
  | None => "unknown"
  end.

(** Lines 614 and 690. *)
Definition dets_filename (image_index : string) : string :=
  "pred_dets_" +:+ image_index +:+ ".json".

(** Lines 616-622. *)
Definition load_detections (fs : disk) (dets_path : string) : jvalue :=
  if isfile fs dets_path then default (JArr []) (load_json fs dets_path)
  else JArr [].

Definition latest_predictions (fs : disk) : M file_response :=
  s ← get;
  if negb (id_truthy (CURRENT_MISSION_ID s)) then mret (RPredictions [])
  else
    let mission_id := current_id_or s "" in
    let mission_root := path_join fs (BASE_SAVE_DIR fs) mission_id in
    if negb (isdir fs mission_root) then mret (RPredictions [])
    else
      let photos :=
        foldl (fun photos wp_name =>
                 let wp_path := path_join fs mission_root wp_name in
                 if negb (isdir fs wp_path) then photos
                 else
                   let files :=
                     List.filter prediction_name
                       (sorted_strings (listdir fs wp_path)) in
                   foldl (fun photos file =>
                            let image_index := image_index_of file in
                            let dets_file := dets_filename image_index in
                            let dets_path := path_join fs wp_path dets_file in
                            let detections := load_detections fs dets_path in
                            let url :=
                              "/photo/" +:+ mission_id +:+ "/" +:+ wp_name
                                +:+ "/" +:+ file in
                            let label :=
                              wp_name +:+ " · " +:+ py_replace "pred_" "" file in
                            photos ++ [Prediction.mk url label detections])
                     photos files)
          [] (sorted_strings (listdir fs mission_root)) in
      mret (RPredictions photos).

(** What [upload_photo] gets: the form fields, the file of the field
    [image] if there is one, the clock reading of line 664, and whether
    [os.makedirs] and [file.save] go through. *)
Record upload : Type := mkUpload {
  form : list (string * string);
  image : option string;
  clock : string;
  disk_ok : bool
}.

(** Lines 665 and 678. *)
Definition upload_filename (image_index ts : string) : string :=
  "img" +:+ image_index +:+ "_" +:+ ts +:+ ".jpg".
Definition pred_filename (filename : string) : string := "pred_" +:+ filename.

(** [upload_photo], without the files the detector writes: the block of
    lines 673-696 catches what it raises and touches no global. *)
Definition upload_photo (u : upload) (e : mission_env) : M file_response :=
  let waypoint_index := default "unknown" (dict_get (form u) "waypoint_index") in
  let image_index := default "0" (dict_get (form u) "image_index") in
  match image u with
  | None => mret RNoImage
  | Some file =>
      _register_image_for_current_mission e;;
      s ← get;
      let mission_id := current_id_or s "nomission" in
      let wp_folder_name := "wp" +:+ waypoint_index in
      let filename := upload_filename image_index (clock u) in
      if disk_ok u then mret (RSaved filename wp_folder_name mission_id)
      else mret RSaveFailed
  end.

(** The entry of [latest_photos] for the file [p.2] of the folder [p.1]
    (lines 573-575). *)
Definition photo_entry (mission_id : string) (p : string * string) : Photo.t :=
  Photo.mk ("/photo/" +:+ mission_id +:+ "/" +:+ p.1 +:+ "/" +:+ p.2)
    (p.1 +:+ " · " +:+ p.2).

(** The entry of [latest_predictions] for the file [file] of the folder [wp]
    under [root] (lines 607-627). *)
Definition prediction_entry (fs : disk) (mission_id root wp file : string) :
    Prediction.t :=
  Prediction.mk ("/photo/" +:+ mission_id +:+ "/" +:+ wp +:+ "/" +:+ file)
    (wp +:+ " · " +:+ py_replace "pred_" "" file)
    (load_detections fs
       (path_join fs (path_join fs root wp) (dets_filename (image_index_of file)))).

(** No character of [s] is [c]. *)
Fixpoint str_avoids (c : ascii) (s : string) : bool :=
  match s with
  | EmptyString => true
  | String c' s' => negb (Ascii.eqb c' c) && str_avoids c s'
  end.

(** * Properties *)

(** ** [int] *)

Example int_of_string_12 : int_of_string " 1_2 " = Some 12.
Proof. reflexivity. Qed.
Example int_of_string_neg : int_of_string "-7" = Some (-7).
Proof. reflexivity. Qed.
Example int_of_string_abc : int_of_string "abc" = None.
Proof. reflexivity. Qed.

(** The separators 28 to 31 are no white space for [int]; the vertical tab
    and the no-break space are. *)
Example int_of_string_separator :
  int_of_string (String (ascii_of_N 28) "7") = None
  ∧ int_of_string (String (ascii_of_N 31) "7") = None
  ∧ int_of_string (String (ascii_of_N 11) "7") = Some 7
  ∧ int_of_string (string_of_list_ascii (map ascii_of_N [194; 160; 55]%N))
    = Some 7.
Proof. split_and!; vm_compute; reflexivity. Qed.

(** Decimal digits of other scripts count: Arabic-Indic three, fullwidth
    one and two. *)
Example int_of_string_scripts :
  int_of_string (string_of_list_ascii (map ascii_of_N [217; 163]%N)) = Some 3
  ∧ int_of_string
      (string_of_list_ascii
         (map ascii_of_N [45; 239; 188; 145; 239; 188; 146]%N)) = Some (-12).
Proof. split_and!; vm_compute; reflexivity. Qed.

(** 4300 digits convert, 4301 do not, whatever the digits. *)
Example int_of_string_limit :
  is_Some (int_of_string (string_of_list_ascii (repeat "1"%char 4300)))
  ∧ int_of_string (string_of_list_ascii (repeat "1"%char 4301)) = None
  ∧ int_of_string (string_of_list_ascii (repeat "0"%char 4301)) = None.
Proof.
  split_and!.
  - destruct (int_of_string _) eqn:E; [by eexists|]. vm_compute in E. discriminate E.
  - vm_compute. reflexivity.
  - vm_compute. reflexivity.
Qed.
Example int_of_float_2_5 : int_of_float (S754_finite true 5 (-1)) = Ok (-2).
Proof. reflexivity. Qed.

(** ** Python dicts *)

Section PyDictFacts.
Context {V : Type}.
Implicit Types (d : list (string * V)) (k : string) (v : V).

Lemma dict_get_set_eq d k v : dict_get (dict_set d k v) k = Some v.
Proof.
  induction d as [|[k' v'] d IH]; simpl.
  - by rewrite String.eqb_refl.
  - destruct (String.eqb k' k) eqn:E; simpl; rewrite E; auto.
Qed.

Lemma dict_get_set_ne d k k' v :
  k ≠ k' → dict_get (dict_set d k v) k' = dict_get d k'.
Proof.
  intros Hne. induction d as [|[k0 v0] d IH]; simpl.
  - destruct (String.eqb k k') eqn:E; [|done].
    apply String.eqb_eq in E. contradiction.
  - destruct (String.eqb k0 k) eqn:E; simpl.
    + apply String.eqb_eq in E. subst k0.
      destruct (String.eqb k k') eqn:E'; [|done].
      apply String.eqb_eq in E'. contradiction.
    + by rewrite IH.
Qed.

Lemma dict_set_present d k v v0 :
  dict_get d k = Some v0 → dict_keys (dict_set d k v) = dict_keys d.
Proof.
  induction d as [|[k' v'] d IH]; simpl; [done|].
  destruct (String.eqb k' k) eqn:E; simpl; [done|].
  intros H. by rewrite IH.
Qed.

Lemma dict_set_absent d k v :
  dict_get d k = None → dict_set d k v = d ++ [(k, v)].
Proof.
  induction d as [|[k' v'] d IH]; simpl; [done|].
  destruct (String.eqb k' k) eqn:E; [done|].
  intros H. by rewrite IH.
Qed.
End PyDictFacts.

(** The ids [_new_mission_id] builds are never the empty string. *)
Lemma new_mission_id_truthy e : String.eqb (_new_mission_id e) "" = false.
Proof. reflexivity. Qed.

(** ** The one-shot registers, sequentially *)

Lemma control_state_eq s :
  control_state s = (set_CONTROL_COMMAND "none" s, Ok (RCommand (CONTROL_COMMAND s))).
Proof. reflexivity. Qed.

Lemma mission_state_eq s :
  mission_state s =
  (if String.eqb (MISSION_STATE s) "start" then set_MISSION_STATE "idle" s else s,
   Ok (RMissionState (MISSION_STATE s))).
Proof.
  unfold mission_state, when, mbind, M_bind, get. cbv beta.
  destruct (String.eqb _ _); reflexivity.
Qed.

Lemma run_cons o ops s :
  run (o :: ops) s =
  ((run ops (handle o s).1).1, (handle o s).2 :: (run ops (handle o s).1).2).
Proof. simpl. destruct (handle o s) as [s1 r]. simpl. by destruct (run ops s1). Qed.

Lemma exec_cons o ops s : exec (o :: ops) s = exec ops (handle o s).1.
Proof. unfold exec. by rewrite run_cons. Qed.

Lemma polls_after_consume n s :
  CONTROL_COMMAND s = "none" →
  replies (repeat ControlState n) s = repeat (Ok (RCommand "none")) n
  ∧ CONTROL_COMMAND (exec (repeat ControlState n) s) = "none".
Proof.
  unfold replies, exec. revert s. induction n as [|n IH]; intros s Hs; [done|].
  cbn [repeat]. rewrite run_cons. cbn [handle fst snd].
  rewrite control_state_eq. cbn [fst snd]. rewrite Hs.
  destruct (IH (set_CONTROL_COMMAND "none" s)) as [-> ->]; done.
Qed.

Lemma start_polls_after_consume n s :
  MISSION_STATE s = "idle" →
  replies (repeat MissionState n) s = repeat (Ok (RMissionState "idle")) n.
Proof.
  unfold replies. revert s. induction n as [|n IH]; intros s Hs; [done|].
  cbn [repeat]. rewrite run_cons. cbn [handle fst snd].
  rewrite mission_state_eq. cbn [fst snd]. rewrite Hs. cbn.
  rewrite IH; done.
Qed.

Lemma start_mission_state e s :
  MISSION_STATE (start_mission e s).1 = "start"
  ∧ (start_mission e s).2 = Ok (RStartMission (_new_mission_id e)).
Proof. done. Qed.

(** C1: after [abort_mission], of any number of [control_state] polls that
    follow with no other request in between, the first returns [abort] and
    every later one [none]; after [start_mission], the first [mission_state]
    poll returns [start] and every later one [idle]. *)
Theorem C1_one_shot_sequential (s : state) (e : mission_env) (n : nat) :
  replies (AbortMission :: repeat ControlState (S n)) s
  = Ok (RCommandSet "abort") :: Ok (RCommand "abort")
    :: repeat (Ok (RCommand "none")) n
  ∧ replies (StartMission e :: repeat MissionState (S n)) s
  = Ok (RStartMission (_new_mission_id e)) :: Ok (RMissionState "start")
    :: repeat (Ok (RMissionState "idle")) n.
Proof.
  split.
  - unfold replies. cbn [repeat]. rewrite !run_cons. cbn [handle fst snd].
    rewrite control_state_eq. cbn [fst snd].
    do 2 f_equal.
    by apply (polls_after_consume n).
  - unfold replies. cbn [repeat]. rewrite !run_cons. cbn [handle fst snd].
    destruct (start_mission_state e s) as [Hst ->].
    rewrite mission_state_eq. cbn [fst snd]. rewrite Hst. cbn [String.eqb Ascii.eqb Bool.eqb].
    do 2 f_equal.
    by apply (start_polls_after_consume n).
Qed.

(** ** Effects of the helpers on the state *)

(** Unfolds the monad, so that a handler applied to a state steps. *)
Ltac mrun :=
  unfold mbind, M_bind, mret, M_ret, get, modify, lift, raise, when, jsonify;
  cbv beta iota.

Lemma dict_set_set {V : Type} (d : list (string * V)) k v v' :
  dict_set (dict_set d k v) k v' = dict_set d k v'.
Proof.
  induction d as [|[k0 v0] d IH]; simpl.
  - by rewrite String.eqb_refl.
  - destruct (String.eqb k0 k) eqn:E; simpl; rewrite E; [done|]. by rewrite IH.
Qed.

Lemma dict_set_same {V : Type} (d : list (string * V)) k v :
  dict_get d k = Some v → dict_set d k v = d.
Proof.
  induction d as [|[k0 v0] d IH]; simpl; [done|].
  destruct (String.eqb k0 k) eqn:E; [congruence|].
  intros H. by rewrite IH.
Qed.

Lemma update_mission_eq s mid f m :
  dict_get (MISSIONS s) mid = Some m →
  update_mission mid f s = (with_mission s mid (f m), Ok tt).
Proof. intros H. unfold update_mission, modify. by rewrite H. Qed.

Lemma update_mission_none s mid f :
  dict_get (MISSIONS s) mid = None → update_mission mid f s = (s, Ok tt).
Proof. intros H. unfold update_mission, modify. by rewrite H. Qed.

Lemma with_mission_get s mid m :
  dict_get (MISSIONS (with_mission s mid m)) mid = Some m.
Proof. apply dict_get_set_eq. Qed.

Lemma with_mission_twice s mid m m' :
  with_mission (with_mission s mid m) mid m' = with_mission s mid m'.
Proof. unfold with_mission. cbn. by rewrite dict_set_set. Qed.

Lemma with_mission_same s mid m :
  dict_get (MISSIONS s) mid = Some m → with_mission s mid m = s.
Proof.
  intros H. unfold with_mission. rewrite (dict_set_same _ _ _ H). by destruct s.
Qed.

Lemma finish_eq s mid m st now terminal :
  dict_get (MISSIONS s) mid = Some m →
  finish mid st now terminal s
  = (set_LAST_TERMINAL_STATUS (Some terminal)
       (with_mission s mid (Mission.set_ended_at (Some now) (Mission.set_status st m))),
     Ok tt).
Proof.
  intros H. unfold finish. mrun.
  rewrite (update_mission_eq _ _ _ _ H).
  rewrite (update_mission_eq _ _ _ _ (with_mission_get _ _ _)).
  by rewrite with_mission_twice.
Qed.

Lemma add_waypoint_eq s payload mid add m :
  dict_get (MISSIONS s) mid = Some m →
  add_waypoint payload mid add s
  = match waypoint_effect payload add m with
    | Ok m' => (with_mission s mid m', Ok tt)
    | Raise ex => (s, Raise ex)
    end.
Proof.
  intros H. unfold add_waypoint, waypoint_effect.
  destruct (dict_get payload "index") as [idx|];
    [|by rewrite (with_mission_same _ _ _ H)].
  destruct idx; try by rewrite (with_mission_same _ _ _ H).
  all: mrun; destruct (py_int _); [by rewrite (update_mission_eq _ _ _ _ H)|done].
Qed.

Lemma set_terminal_same s : set_LAST_TERMINAL_STATUS (LAST_TERMINAL_STATUS s) s = s.
Proof. by destruct s. Qed.

Lemma current_mission_Some s mid m :
  current_mission s = Some (mid, m) →
  CURRENT_MISSION_ID s = Some mid ∧ dict_get (MISSIONS s) mid = Some m.
Proof.
  unfold current_mission. destruct (CURRENT_MISSION_ID s) as [k|]; [|done].
  destruct (dict_get (MISSIONS s) k) eqn:E; simpl; [|done].
  intros [= <- <-]. done.
Qed.

Lemma bind_step {A B : Type} (c : M A) (k : A → M B) s s' a :
  c s = (s', Ok a) → (c ≫= k) s = k a s'.
Proof. intros H. unfold mbind, M_bind. by rewrite H. Qed.

Lemma bind_fail {A B : Type} (c : M A) (k : A → M B) s s' ex :
  c s = (s', Raise ex) → (c ≫= k) s = (s', Raise ex).
Proof. intros H. unfold mbind, M_bind. by rewrite H. Qed.

Lemma bind_eq {A B : Type} (c : M A) (k : A → M B) s :
  (c ≫= k) s
  = match c s with
    | (s', Ok a) => k a s'
    | (s', Raise ex) => (s', Raise ex)
    end.
Proof. reflexivity. Qed.

(** One step of a handler whose first action is a primitive or a mutation of
    a mission that is known to be registered. *)
Ltac bstep :=
  first
    [ erewrite bind_step by
        (first [ apply update_mission_eq; first [eassumption | apply with_mission_get]
               | apply finish_eq; first [eassumption | apply with_mission_get] ])
    | erewrite bind_step by reflexivity ];
  cbv beta iota zeta.

Lemma fold_status_eq payload a now s mid m :
  current_mission s = Some (mid, m) →
  fold_status payload a now s
  = let '(m', terminal, r) :=
      report_effect payload a now m (LAST_TERMINAL_STATUS s) in
    (set_LAST_TERMINAL_STATUS terminal (with_mission s mid m'), r).
Proof.
  intros Hcur.
  destruct (current_mission_Some _ _ _ Hcur) as [Hid Hm].
  unfold fold_status, report_effect.
  bstep. rewrite Hcur. cbv beta iota.
  bstep.
  generalize (default (JStr "") (dict_get payload "status")). intros status.
  set (m1 := Mission.set_last_status (Some a) m).
  destruct (py_eq_str status "mission_started"); unfold when; bstep;
    rewrite ?with_mission_twice.
  all: match goal with |- context [with_mission _ _ ?m2] => set (m2' := m2) end.
  all: rewrite bind_eq.
  all: destruct (py_eq_str status "waypoint_reached");
    [|destruct (py_eq_str status "waypoint_unreachable")].
  all: rewrite ?(add_waypoint_eq _ _ _ _ _ (with_mission_get _ _ _)).
  all: try (destruct (waypoint_effect _ _ _) as [m3|ex]; [|done]).
  all: unfold mret, M_ret.
  all: cbv beta iota; rewrite ?with_mission_twice.
  all: destruct (_ || _);
    [by rewrite (finish_eq _ _ _ _ _ _ (with_mission_get _ _ _)), with_mission_twice|].
  all: rewrite bind_eq; unfold lift;
    destruct (py_startswith status "home_unreachable") as [[|]|ex]; cbv beta iota;
    [by rewrite (finish_eq _ _ _ _ _ _ (with_mission_get _ _ _)), with_mission_twice
    | |by destruct s].
  all: destruct (py_eq_str status "mission_aborted_by_operator");
    [by rewrite (finish_eq _ _ _ _ _ _ (with_mission_get _ _ _)), with_mission_twice
    |by destruct s].
Qed.

(** *** [_start_new_mission] *)

Lemma _start_new_mission_eq e s :
  _start_new_mission e s = (started s e, Ok (_new_mission_id e)).
Proof. reflexivity. Qed.

Lemma started_current s e :
  current_mission (started s e) = Some (_new_mission_id e, fresh_mission e).
Proof.
  unfold current_mission, started. cbn [CURRENT_MISSION_ID MISSIONS
    set_LAST_TERMINAL_STATUS set_CURRENT_MISSION_ID].
  by rewrite with_mission_get.
Qed.

Lemma started_truthy s e : id_truthy (CURRENT_MISSION_ID (started s e)) = true.
Proof. reflexivity. Qed.

(** *** [status_update], up to the call of [_update_mission_on_status] *)

Lemma deref_received s d : deref (received s d) (length (heap s)) = defaulted s d.
Proof.
  unfold deref, received. cbn [heap set_LAST_STATUS set_heap].
  by rewrite list_lookup_middle.
Qed.

Lemma deref_received_old s d a :
  (a < length (heap s))%nat → deref (received s d) a = deref s a.
Proof.
  intros Ha. unfold deref, received. cbn [heap set_LAST_STATUS set_heap].
  by rewrite lookup_app_l.
Qed.

Lemma lookup_last_alloc (h : list dict) d : (h ++ [d]) !! length h = Some d.
Proof. by rewrite list_lookup_middle. Qed.

Lemma insert_last_alloc (h : list dict) d d' :
  <[length h := d']> (h ++ [d]) = (h ++ [d']).
Proof. rewrite insert_app_r_alt by lia. by rewrite Nat.sub_diag. Qed.

Lemma status_update_dict body d e now s :
  get_payload body = JObj d →
  status_update body e now s
  = let r := _update_mission_on_status (length (heap s)) e now (received s d) in
    (r.1, reply_ok r.2).
Proof.
  intros Hd. unfold status_update. rewrite Hd.
  erewrite bind_step by reflexivity. bstep.
  unfold deref at 1. cbn [heap set_heap]. rewrite lookup_last_alloc. cbn [default].
  unfold received, defaulted.
  destruct (py_eq_str _ "mission_idle"); unfold when; bstep; bstep.
  all: unfold mutate; bstep; unfold deref; cbn [heap set_heap set_MISSION_STATE].
  all: rewrite lookup_last_alloc, insert_last_alloc; cbn [default].
  all: bstep; cbn [heap set_heap set_MISSION_STATE].
  all: rewrite lookup_last_alloc, insert_last_alloc; cbn [default].
  all: bstep; rewrite bind_eq.
  all: match goal with
       | |- (let (_, _) := ?f ?x in _) = ((?f ?y).1, _) =>
           replace x with y by (by destruct s)
       end.
  all: by destruct (_update_mission_on_status _ _ _ _) as [s' [[]|ex]].
Qed.

Lemma dict_get_setdefault_ne {V : Type} (d : list (string * V)) k k' v :
  k ≠ k' → dict_get (dict_setdefault d k v) k' = dict_get d k'.
Proof.
  intros Hne. unfold dict_setdefault.
  destruct (dict_get d k); [done|]. by apply dict_get_set_ne.
Qed.

Lemma defaulted_status s d : dict_get (defaulted s d) "status" = dict_get d "status".
Proof. unfold defaulted. by rewrite !dict_get_setdefault_ne. Qed.

Lemma defaulted_index s d : dict_get (defaulted s d) "index" = dict_get d "index".
Proof. unfold defaulted. by rewrite !dict_get_setdefault_ne. Qed.

Lemma report_effect_defaulted s d a now m terminal :
  report_effect (defaulted s d) a now m terminal = report_effect d a now m terminal.
Proof.
  unfold report_effect, waypoint_effect.
  by rewrite defaulted_status, defaulted_index.
Qed.

Lemma received_view s d :
  CURRENT_MISSION_ID (received s d) = CURRENT_MISSION_ID s
  ∧ MISSIONS (received s d) = MISSIONS s
  ∧ LAST_TERMINAL_STATUS (received s d) = LAST_TERMINAL_STATUS s
  ∧ CONTROL_COMMAND (received s d) = CONTROL_COMMAND s
  ∧ LAST_STATUS (received s d) = length (heap s)
  ∧ heap (received s d) = heap s ++ [defaulted s d].
Proof. unfold received. by destruct (py_eq_str _ _). Qed.

Lemma received_current s d : current_mission (received s d) = current_mission s.
Proof.
  unfold current_mission.
  destruct (received_view s d) as (-> & -> & _). done.
Qed.

Lemma py_eq_str_default o t :
  py_eq_str (default JNull o) t = py_eq_str (default (JStr "") o) t
  ∨ (o = None ∧ t = "").
Proof.
  destruct o as [v|]; [by left|]. simpl.
  destruct t; [by right|by left].
Qed.

(** A report that finds no current mission and is not [mission_started] is
    dropped after it was recorded as [LAST_STATUS]. *)
Lemma status_update_dropped body d e now s :
  get_payload body = JObj d →
  id_truthy (CURRENT_MISSION_ID s) = false →
  py_eq_str (default JNull (dict_get d "status")) "mission_started" = false →
  status_update body e now s = (received s d, Ok ROk).
Proof.
  intros Hd Hcur Hst. rewrite (status_update_dict _ _ _ _ _ Hd). cbv zeta.
  unfold _update_mission_on_status. bstep.
  destruct (received_view s d) as (-> & _). rewrite Hcur. cbn [negb].
  rewrite deref_received, defaulted_status, Hst. by bstep.
Qed.

(** A report that finds a current id under which no mission is registered
    changes nothing more. *)
Lemma status_update_orphan body d e now s :
  get_payload body = JObj d →
  id_truthy (CURRENT_MISSION_ID s) = true →
  current_mission s = None →
  status_update body e now s = (received s d, Ok ROk).
Proof.
  intros Hd Hcur Hm. rewrite (status_update_dict _ _ _ _ _ Hd). cbv zeta.
  unfold _update_mission_on_status. bstep.
  destruct (received_view s d) as (-> & _). rewrite Hcur. cbn [negb].
  bstep. unfold fold_status. bstep. by rewrite received_current, Hm.
Qed.

(** A report folded into the current mission. *)
Lemma status_update_current body d e now s mid m :
  get_payload body = JObj d →
  id_truthy (CURRENT_MISSION_ID s) = true →
  current_mission s = Some (mid, m) →
  status_update body e now s
  = let '(m', terminal, r) :=
      report_effect d (length (heap s)) now m (LAST_TERMINAL_STATUS s) in
    (set_LAST_TERMINAL_STATUS terminal (with_mission (received s d) mid m'),
     reply_ok r).
Proof.
  intros Hd Hcur Hm. rewrite (status_update_dict _ _ _ _ _ Hd). cbv zeta.
  unfold _update_mission_on_status. bstep.
  destruct (received_view s d) as (Hc & _ & Ht & _). rewrite Hc, Hcur. cbn [negb].
  bstep. rewrite (fold_status_eq _ _ _ _ mid m) by by rewrite received_current.
  rewrite deref_received, report_effect_defaulted, Ht.
  by destruct (report_effect _ _ _ _ _) as [[m' t] r].
Qed.

(** A [mission_started] report that finds no current mission creates one and
    is folded into it. *)
Lemma status_update_fresh body d e now s :
  get_payload body = JObj d →
  id_truthy (CURRENT_MISSION_ID s) = false →
  py_eq_str (default JNull (dict_get d "status")) "mission_started" = true →
  status_update body e now s
  = let '(m', terminal, r) :=
      report_effect d (length (heap s)) now (fresh_mission e) None in
    (set_LAST_TERMINAL_STATUS terminal
       (with_mission (started (received s d) e) (_new_mission_id e) m'),
     reply_ok r).
Proof.
  intros Hd Hcur Hst. rewrite (status_update_dict _ _ _ _ _ Hd). cbv zeta.
  unfold _update_mission_on_status. bstep.
  destruct (received_view s d) as (Hc & _). rewrite Hc, Hcur. cbn [negb].
  rewrite deref_received, defaulted_status, Hst.
  rewrite (bind_step (_ ≫= _) _ (received s d) (started (received s d) e) true)
    by reflexivity.
  rewrite (fold_status_eq _ _ _ _ _ _ (started_current _ _)).
  rewrite report_effect_defaulted.
  by destruct (report_effect _ _ _ _ _) as [[m' t] r].
Qed.

Lemma status_update_not_dict body e now s :
  (∀ d, get_payload body ≠ JObj d) →
  status_update body e now s = (s, Raise AttributeError).
Proof.
  intros Hd. unfold status_update.
  destruct (get_payload body); try done. by destruct (Hd d).
Qed.

(** *** [_register_image_for_current_mission] *)

Lemma current_id_or_truthy s k d :
  CURRENT_MISSION_ID s = Some k → id_truthy (Some k) = true →
  current_id_or s d = k.
Proof.
  unfold current_id_or, id_truthy. intros ->. by destruct (String.eqb k "").
Qed.

Lemma register_image_current e s mid m :
  id_truthy (CURRENT_MISSION_ID s) = true →
  current_mission s = Some (mid, m) →
  register_image e s
  = (with_mission s mid (advance_pending (count_image m)), Ok (RImage mid)).
Proof.
  intros Htruthy Hcur.
  destruct (current_mission_Some _ _ _ Hcur) as [Hid Hm].
  unfold register_image, _register_image_for_current_mission.
  rewrite (bind_step (_ ≫= _) _ s
    (with_mission s mid (advance_pending (count_image m))) ()).
  - bstep. rewrite (current_id_or_truthy _ mid); [done|done|by rewrite <- Hid].
  - bstep. rewrite Htruthy. unfold when. cbn [negb]. bstep. bstep.
    rewrite Hcur. cbv beta iota. bstep.
    rewrite (update_mission_eq _ _ _ _ (with_mission_get _ _ _)).
    by rewrite with_mission_twice.
Qed.

Lemma register_image_fresh e s :
  id_truthy (CURRENT_MISSION_ID s) = false →
  register_image e s
  = (with_mission (started s e) (_new_mission_id e)
       (advance_pending (count_image (fresh_mission e))),
     Ok (RImage (_new_mission_id e))).
Proof.
  intros Hfalse.
  unfold register_image, _register_image_for_current_mission.
  rewrite (bind_step (_ ≫= _) _ s
    (with_mission (started s e) (_new_mission_id e)
       (advance_pending (count_image (fresh_mission e)))) ()).
  - by bstep.
  - bstep. rewrite Hfalse. unfold when. cbn [negb].
    rewrite (bind_step (_ ≫= _) _ s (started s e) ()) by reflexivity.
    bstep. rewrite started_current. cbv beta iota.
    destruct (current_mission_Some _ _ _ (started_current s e)) as [_ Hm].
    rewrite (bind_step _ _ _ _ _ (update_mission_eq _ _ _ _ Hm)).
    rewrite (update_mission_eq _ _ _ _ (with_mission_get _ _ _)).
    by rewrite !with_mission_twice.
Qed.

Lemma register_image_orphan e s :
  id_truthy (CURRENT_MISSION_ID s) = true →
  current_mission s = None →
  register_image e s = (s, Ok (RImage (current_id_or s "nomission"))).
Proof.
  intros Htruthy Hcur.
  unfold register_image, _register_image_for_current_mission.
  rewrite (bind_step (_ ≫= _) _ s s ()); [by bstep|].
  bstep. rewrite Htruthy. unfold when. cbn [negb]. bstep. bstep.
  by rewrite Hcur.
Qed.

(** *** Reports on a registry that holds one mission *)

Lemma get_single {V : Type} (k : string) (v : V) : dict_get [(k, v)] k = Some v.
Proof. simpl. by rewrite String.eqb_refl. Qed.

Lemma set_single {V : Type} (k : string) (v v' : V) :
  dict_set [(k, v)] k v' = [(k, v')].
Proof. simpl. by rewrite String.eqb_refl. Qed.

Lemma status_update_single body d e now s mid m m' terminal r :
  get_payload body = JObj d →
  CURRENT_MISSION_ID s = Some mid → String.eqb mid "" = false →
  MISSIONS s = [(mid, m)] →
  report_effect d (length (heap s)) now m (LAST_TERMINAL_STATUS s)
  = (m', terminal, r) →
  (status_update body e now s).2 = reply_ok r
  ∧ CURRENT_MISSION_ID (status_update body e now s).1 = Some mid
  ∧ MISSIONS (status_update body e now s).1 = [(mid, m')]
  ∧ LAST_TERMINAL_STATUS (status_update body e now s).1 = terminal.
Proof.
  intros Hd Hid Hne HM Heff.
  rewrite (status_update_current _ _ _ _ _ mid m Hd).
  - rewrite Heff. cbn [fst snd reply_ok].
    destruct (received_view s d) as (Hc & HM' & _).
    unfold with_mission.
    cbn [CURRENT_MISSION_ID MISSIONS LAST_TERMINAL_STATUS
         set_LAST_TERMINAL_STATUS set_MISSIONS].
    by rewrite Hc, HM', HM, set_single.
  - rewrite Hid. unfold id_truthy. by rewrite Hne.
  - unfold current_mission. by rewrite Hid, HM, get_single.
Qed.

Lemma status_update_first body d e now s m' terminal r :
  get_payload body = JObj d →
  CURRENT_MISSION_ID s = None → MISSIONS s = [] →
  py_eq_str (default JNull (dict_get d "status")) "mission_started" = true →
  report_effect d (length (heap s)) now (fresh_mission e) None
  = (m', terminal, r) →
  (status_update body e now s).2 = reply_ok r
  ∧ CURRENT_MISSION_ID (status_update body e now s).1 = Some (_new_mission_id e)
  ∧ MISSIONS (status_update body e now s).1 = [(_new_mission_id e, m')]
  ∧ LAST_TERMINAL_STATUS (status_update body e now s).1 = terminal.
Proof.
  intros Hd Hid HM Hst Heff.
  rewrite (status_update_fresh _ _ _ _ _ Hd); [|by rewrite Hid|done].
  rewrite Heff. cbn [fst snd reply_ok].
  destruct (received_view s d) as (Hc & HM' & _).
  unfold with_mission, started, with_mission.
  cbn [CURRENT_MISSION_ID MISSIONS LAST_TERMINAL_STATUS
       set_LAST_TERMINAL_STATUS set_MISSIONS set_CURRENT_MISSION_ID].
  rewrite HM', HM. by rewrite dict_set_set.
Qed.

(** ** Exceptions that escape the handlers *)

Lemma return_home_eq s :
  return_home s = (set_CONTROL_COMMAND "go_home" s, Raise NameError).
Proof. reflexivity. Qed.

(** C2 (fails on the code): [return_home] stores the command and then raises
    [NameError] in every state, where [abort_mission] returns its result; and
    a [waypoint_reached] report whose index is [abc], sent to a running
    mission, makes [status_update] raise [ValueError]. *)
Theorem C2_handlers_raise :
  (∀ s, return_home s = (set_CONTROL_COMMAND "go_home" s, Raise NameError))
  ∧ (∀ s, (abort_mission s).2 = Ok (RCommandSet "abort"))
  ∧ (∀ e now1 e2 now2,
       replies [StatusUpdate started_report e now1;
                StatusUpdate bad_index_report e2 now2] initial_state
       = [Ok ROk; Raise ValueError]).
Proof.
  split; [|split].
  - intros s. apply return_home_eq.
  - reflexivity.
  - intros e now1 e2 now2. unfold replies. rewrite !run_cons.
    cbn [run handle fst snd].
    edestruct (status_update_first started_report
                 [("status", JStr "mission_started")] e now1 initial_state)
      as (-> & Hid1 & HM1 & Ht1); [reflexivity..|].
    set (s1 := (status_update _ e now1 initial_state).1) in *.
    edestruct (status_update_single bad_index_report
                 [("status", JStr "waypoint_reached"); ("index", JStr "abc")]
                 e2 now2 s1)
      as (-> & _); [reflexivity|done|done|done|reflexivity|].
    reflexivity.
Qed.

(** ** The reference mission of the specification *)

(** C4: from a state with no mission, the reports [mission_started],
    [waypoint_reached 1], [waypoint_reached 3], [waypoint_unreachable 2],
    [mission_complete] are all accepted and leave exactly one mission, the one
    created by the first report: it is current, its status is [complete], its
    summary lists the waypoints reached [1; 3] and unreachable [2], its
    [ended_at] is the time of the last report, and [LAST_TERMINAL_STATUS] is
    [mission_complete]. *)
Theorem C4_report_sequence (s : state) (e e2 e3 e4 e5 : mission_env)
    (t1 t2 t3 t4 t5 : string) :
  MISSIONS s = [] → CURRENT_MISSION_ID s = None →
  let ops := [StatusUpdate (report "mission_started") e t1;
              StatusUpdate (report_at "waypoint_reached" 1) e2 t2;
              StatusUpdate (report_at "waypoint_reached" 3) e3 t3;
              StatusUpdate (report_at "waypoint_unreachable" 2) e4 t4;
              StatusUpdate (report "mission_complete") e5 t5] in
  replies ops s = [Ok ROk; Ok ROk; Ok ROk; Ok ROk; Ok ROk]
  ∧ ∃ m, MISSIONS (exec ops s) = [(_new_mission_id e, m)]
      ∧ CURRENT_MISSION_ID (exec ops s) = Some (_new_mission_id e)
      ∧ Mission.status m = "complete"
      ∧ Mission.ended_at m = Some t5
      ∧ _mission_summary m
        = Summary.mk (_new_mission_id e) (created e) (Some t5) "complete"
            [1; 3] [2] 0
      ∧ LAST_TERMINAL_STATUS (exec ops s) = Some "mission_complete".
Proof.
  intros HM Hid ops. unfold replies, exec, ops. rewrite !run_cons.
  cbn [run handle fst snd].
  edestruct (status_update_first (report "mission_started")
               [("status", JStr "mission_started")] e t1 s)
    as (-> & Hid1 & HM1 & Ht1); [reflexivity|done|done|reflexivity|reflexivity|].
  set (s1 := (status_update _ e t1 s).1) in *.
  edestruct (status_update_single (report_at "waypoint_reached" 1)
               [("status", JStr "waypoint_reached"); ("index", JInt 1)] e2 t2 s1)
    as (-> & Hid2 & HM2 & Ht2); [reflexivity|done|done|done|reflexivity|].
  set (s2 := (status_update _ e2 t2 s1).1) in *.
  edestruct (status_update_single (report_at "waypoint_reached" 3)
               [("status", JStr "waypoint_reached"); ("index", JInt 3)] e3 t3 s2)
    as (-> & Hid3 & HM3 & Ht3); [reflexivity|done|done|done|reflexivity|].
  set (s3 := (status_update _ e3 t3 s2).1) in *.
  edestruct (status_update_single (report_at "waypoint_unreachable" 2)
               [("status", JStr "waypoint_unreachable"); ("index", JInt 2)] e4 t4 s3)
    as (-> & Hid4 & HM4 & Ht4); [reflexivity|done|done|done|reflexivity|].
  set (s4 := (status_update _ e4 t4 s3).1) in *.
  edestruct (status_update_single (report "mission_complete")
               [("status", JStr "mission_complete")] e5 t5 s4)
    as (-> & Hid5 & HM5 & Ht5); [reflexivity|done|done|done|reflexivity|].
  split; [done|].
  eexists. split; [exact HM5|]. split; [exact Hid5|].
  split; [reflexivity|]. split; [reflexivity|]. split; [reflexivity|exact Ht5].
Qed.

(** The reference mission, run from the state the module is loaded in. *)
Lemma C4_report_sequence_witness :
  ∃ m, MISSIONS (exec [StatusUpdate (report "mission_started")
                         (mkEnv "20251210_123456" "AB12CD" "2025-12-10T12:34:56")
                         "2025-12-10T12:34:56";
                       StatusUpdate (report_at "waypoint_reached" 1)
                         (mkEnv "" "" "") "2025-12-10T12:35:10";
                       StatusUpdate (report_at "waypoint_reached" 3)
                         (mkEnv "" "" "") "2025-12-10T12:36:10";
                       StatusUpdate (report_at "waypoint_unreachable" 2)
                         (mkEnv "" "" "") "2025-12-10T12:37:10";
                       StatusUpdate (report "mission_complete")
                         (mkEnv "" "" "") "2025-12-10T12:38:10"]
                  initial_state)
       = [("mission_20251210_123456_AB12CD", m)]
     ∧ Mission.status m = "complete".
Proof.
  destruct (C4_report_sequence initial_state
    (mkEnv "20251210_123456" "AB12CD" "2025-12-10T12:34:56")
    (mkEnv "" "" "") (mkEnv "" "" "") (mkEnv "" "" "") (mkEnv "" "" "")
    "2025-12-10T12:34:56" "2025-12-10T12:35:10" "2025-12-10T12:36:10"
    "2025-12-10T12:37:10" "2025-12-10T12:38:10" eq_refl eq_refl)
    as (_ & m & HM & _ & Hst & _).
  exists m. split; [exact HM|exact Hst].
Defined.

(** ** Reports that find no mission *)

Lemma not_started_eq (o : option jvalue) :
  o ≠ Some (JStr "mission_started") →
  py_eq_str (default JNull o) "mission_started" = false.
Proof.
  intros Hne. destruct o as [v|]; [|done]. destruct v; try done. simpl.
  destruct (String.eqb s "mission_started") eqn:E; [|done].
  apply String.eqb_eq in E. by subst.
Qed.

(** C6: a report (a JSON object) whose status is not [mission_started],
    received while [CURRENT_MISSION_ID] is [None], is answered with ok; it
    leaves [MISSIONS], [CURRENT_MISSION_ID], [LAST_TERMINAL_STATUS] and the
    command register as they were and creates no mission, while [LAST_STATUS]
    becomes the payload completed with the defaults of [mission_state] and
    [mission_id]; the dicts that existed before are untouched. *)
Theorem C6_report_without_mission (s : state) (body : request_body)
    (d : dict) (e : mission_env) (now : string) :
  CURRENT_MISSION_ID s = None →
  get_payload body = JObj d →
  dict_get d "status" ≠ Some (JStr "mission_started") →
  let s' := (status_update body e now s).1 in
  let mission_state :=
    if py_eq_str (default (JStr "") (dict_get d "status")) "mission_idle"
    then "idle" else MISSION_STATE s in
  (status_update body e now s).2 = Ok ROk
  ∧ MISSIONS s' = MISSIONS s
  ∧ CURRENT_MISSION_ID s' = None
  ∧ LAST_TERMINAL_STATUS s' = LAST_TERMINAL_STATUS s
  ∧ CONTROL_COMMAND s' = CONTROL_COMMAND s
  ∧ deref s' (LAST_STATUS s')
    = dict_setdefault (dict_setdefault d "mission_state" (JStr mission_state))
        "mission_id" (JStr "—")
  ∧ (∀ a, (a < length (heap s))%nat → deref s' a = deref s a).
Proof.
  intros Hid Hd Hst s' ms. subst s'.
  rewrite (status_update_dropped _ _ _ _ _ Hd);
    [|by rewrite Hid|by apply not_started_eq].
  cbn [fst snd].
  destruct (received_view s d) as (Hc & HM & Ht & Hcc & Hls & Hh).
  rewrite Hc, HM, Ht, Hcc, Hls, deref_received.
  repeat apply conj; try done.
  - unfold defaulted, current_id_or. by rewrite Hid.
  - intros a Ha. by apply deref_received_old.
Qed.

(** A waypoint report sent to the freshly loaded module. *)
Lemma C6_report_without_mission_witness :
  MISSIONS (status_update (report_at "waypoint_reached" 1) (mkEnv "" "" "")
              "2025-12-10T12:35:10" initial_state).1 = []
  ∧ deref (status_update (report_at "waypoint_reached" 1) (mkEnv "" "" "")
             "2025-12-10T12:35:10" initial_state).1 1%nat
    = [("status", JStr "waypoint_reached"); ("index", JInt 1);
       ("mission_state", JStr "idle"); ("mission_id", JStr "—")].
Proof.
  destruct (C6_report_without_mission initial_state
              (report_at "waypoint_reached" 1)
              [("status", JStr "waypoint_reached"); ("index", JInt 1)]
              (mkEnv "" "" "") "2025-12-10T12:35:10" eq_refl eq_refl)
    as (_ & HM & _ & _ & _ & Hd & _); [done|].
  split; [exact HM|exact Hd].
Defined.

(** ** The read-only views *)

Lemma missions_eq s :
  missions s
  = (s, Ok (RMissions
              (sorted_reverse (fun x => str_or (Summary.started_at x) "")
                 (map _mission_summary (dict_values (MISSIONS s)))))).
Proof. reflexivity. Qed.

Lemma deref_nonempty_valid s a :
  deref s a ≠ [] → heap s !! a = Some (deref s a).
Proof. unfold deref. by destruct (heap s !! a). Qed.

Lemma with_snapshot_id s :
  (LAST_STATUS s < length (heap s))%nat →
  with_snapshot s (deref s (LAST_STATUS s)) = s.
Proof.
  intros Hlt. unfold with_snapshot, deref.
  destruct (heap s !! LAST_STATUS s) as [d|] eqn:Hd.
  - cbn [default]. rewrite list_insert_id by done. by destruct s.
  - apply lookup_ge_None in Hd. lia.
Qed.

Lemma deref_snapshot s x :
  (LAST_STATUS s < length (heap s))%nat →
  deref (with_snapshot s x) (LAST_STATUS s) = x.
Proof.
  intros Hlt. unfold with_snapshot, deref. cbn [heap set_heap].
  by rewrite list_lookup_insert_eq.
Qed.

Lemma deref_snapshot_ne s x a :
  a ≠ LAST_STATUS s → deref (with_snapshot s x) a = deref s a.
Proof.
  intros Hne. unfold with_snapshot, deref. cbn [heap set_heap].
  by rewrite list_lookup_insert_ne.
Qed.

Lemma mutate_snapshot s x f :
  (LAST_STATUS s < length (heap s))%nat →
  mutate (LAST_STATUS s) f (with_snapshot s x) = (with_snapshot s (f x), Ok ()).
Proof.
  intros Hlt. unfold mutate, modify. rewrite deref_snapshot by done.
  unfold with_snapshot. cbn [heap set_heap]. by rewrite list_insert_insert_eq.
Qed.

Lemma last_status_empty s :
  deref s (LAST_STATUS s) = [] → (last_status s).1 = s.
Proof. intros H. unfold last_status. bstep. by rewrite H. Qed.

Lemma last_status_snapshot s x :
  (LAST_STATUS s < length (heap s))%nat → x ≠ [] →
  last_status (with_snapshot s x)
  = (with_snapshot s (completed s x), Ok (RStatus (completed s x))).
Proof.
  intros Hlt Hne. unfold last_status, completed.
  rewrite (bind_step get _ _ _ _ eq_refl). cbv beta zeta.
  change (LAST_STATUS (with_snapshot s x)) with (LAST_STATUS s).
  change (MISSION_STATE (with_snapshot s x)) with (MISSION_STATE s).
  rewrite deref_snapshot by done.
  destruct x as [|p x]; [done|]. cbn [truthy negb]. set (d0 := p :: x).
  assert (Hmid : ∀ d1,
    (get ≫= λ s0 : state,
       when (negb (dict_mem (deref s0 (LAST_STATUS s)) "mission_id"))
         (mutate (LAST_STATUS s) (λ d : dict,
            dict_set d "mission_id" (JStr (current_id_or s0 "—"))));;
       mutate (LAST_STATUS s) (λ d : dict,
         dict_set d "terminal_status" (jopt (LAST_TERMINAL_STATUS s0)));;
       s1 ← get; jsonify (RStatus (deref s1 (LAST_STATUS s))))
      (with_snapshot s d1)
    = (let d2 := if dict_mem d1 "mission_id" then d1
                 else dict_set d1 "mission_id" (JStr (current_id_or s "—")) in
       let d3 := dict_set d2 "terminal_status" (jopt (LAST_TERMINAL_STATUS s)) in
       (with_snapshot s d3, Ok (RStatus d3)))).
  { intros d1. rewrite (bind_step get _ _ _ _ eq_refl). cbv beta zeta.
    rewrite deref_snapshot by done.
    change (LAST_TERMINAL_STATUS (with_snapshot s d1))
      with (LAST_TERMINAL_STATUS s).
    change (current_id_or (with_snapshot s d1) "—") with (current_id_or s "—").
    destruct (dict_mem d1 "mission_id"); unfold when; cbn [negb].
    - rewrite (bind_step (mret ()) _ _ _ _ eq_refl).
      rewrite (bind_step _ _ _ _ _ (mutate_snapshot _ _ _ Hlt)).
      rewrite (bind_step get _ _ _ _ eq_refl).
      by rewrite deref_snapshot.
    - rewrite (bind_step _ _ _ _ _ (mutate_snapshot _ _ _ Hlt)).
      rewrite (bind_step _ _ _ _ _ (mutate_snapshot _ _ _ Hlt)).
      rewrite (bind_step get _ _ _ _ eq_refl).
      by rewrite deref_snapshot. }
  destruct (dict_mem d0 "mission_state"); unfold when; cbn [negb].
  - rewrite (bind_step (mret ()) _ _ _ _ eq_refl). apply Hmid.
  - rewrite (bind_step _ _ _ _ _ (mutate_snapshot _ _ _ Hlt)). apply Hmid.
Qed.

Lemma last_status_nonempty s :
  deref s (LAST_STATUS s) ≠ [] →
  last_status s
  = (with_snapshot s (completed s (deref s (LAST_STATUS s))),
     Ok (RStatus (completed s (deref s (LAST_STATUS s))))).
Proof.
  intros Hne. pose proof (deref_nonempty_valid _ _ Hne) as Hval.
  assert (Hlt : (LAST_STATUS s < length (heap s))%nat)
    by (by eapply lookup_lt_Some).
  rewrite <- (last_status_snapshot s _ Hlt Hne).
  by rewrite with_snapshot_id.
Qed.

Lemma dict_get_completed_other s d k :
  k ≠ "mission_state" → k ≠ "mission_id" → k ≠ "terminal_status" →
  dict_get (completed s d) k = dict_get d k.
Proof.
  intros H1 H2 H3. unfold completed.
  rewrite dict_get_set_ne by done.
  destruct (dict_mem _ "mission_id"); [|rewrite dict_get_set_ne by done];
    (destruct (dict_mem d "mission_state"); [done|by rewrite dict_get_set_ne]).
Qed.

Lemma dict_get_completed_terminal s d :
  dict_get (completed s d) "terminal_status" = Some (jopt (LAST_TERMINAL_STATUS s)).
Proof. unfold completed. apply dict_get_set_eq. Qed.

Lemma completed_mission_state s d :
  dict_get (completed s d) "mission_state"
  = Some (default (JStr (MISSION_STATE s)) (dict_get d "mission_state")).
Proof.
  unfold completed, dict_mem. rewrite dict_get_set_ne by done.
  destruct (dict_get d "mission_state") as [v|] eqn:E; cbn [default].
  - destruct (dict_get d "mission_id"); [done|]. by rewrite dict_get_set_ne.
  - destruct (dict_get (dict_set d "mission_state" _) "mission_id");
      [|rewrite dict_get_set_ne by done]; by rewrite dict_get_set_eq.
Qed.

Lemma completed_mission_id s d :
  dict_get (completed s d) "mission_id"
  = Some (default (JStr (current_id_or s "—")) (dict_get d "mission_id")).
Proof.
  unfold completed. rewrite dict_get_set_ne by done.
  set (d1 := if dict_mem d "mission_state" then d else _).
  assert (H1 : dict_get d1 "mission_id" = dict_get d "mission_id").
  { subst d1. destruct (dict_mem d "mission_state"); [done|].
    by rewrite dict_get_set_ne. }
  unfold dict_mem at 1. rewrite <- H1.
  destruct (dict_get d1 "mission_id") eqn:E; [done|]. by rewrite dict_get_set_eq.
Qed.

(** C8 as stated fails: after one report, [last_status] writes the key
    [terminal_status] into the dict that is [LAST_STATUS]; that dict is also
    the [last_status] of the mission in the registry. *)
Lemma C8_last_status_writes :
  (last_status reported_state).1 ≠ reported_state
  ∧ match current_mission reported_state with
    | Some (_, m) => Mission.last_status m
    | None => None
    end = Some (LAST_STATUS reported_state)
  ∧ dict_get (deref reported_state (LAST_STATUS reported_state))
      "terminal_status" = None
  ∧ dict_get (deref (last_status reported_state).1 (LAST_STATUS reported_state))
      "terminal_status" = Some JNull.
Proof.
  repeat apply conj; try reflexivity.
  intros H. apply (f_equal (fun s => heap s !! 1%nat)) in H.
  vm_compute in H. discriminate H.
Qed.

(** C8 (amended): [missions] leaves the whole state as it is.  [last_status]
    leaves every module variable as it is, and the heap too when the dict
    [LAST_STATUS] refers to is empty; otherwise it writes into that one dict,
    where [terminal_status] becomes [LAST_TERMINAL_STATUS], where
    [mission_state] and [mission_id] keep their value if they have one and
    become [MISSION_STATE] and the current mission id (or the dash) if they
    are missing, and where every other key is as it was. *)
Theorem C8_queries_frame (s : state) :
  (missions s).1 = s
  ∧ MISSION_STATE (last_status s).1 = MISSION_STATE s
  ∧ LAST_STATUS (last_status s).1 = LAST_STATUS s
  ∧ CURRENT_MISSION_ID (last_status s).1 = CURRENT_MISSION_ID s
  ∧ MISSIONS (last_status s).1 = MISSIONS s
  ∧ CONTROL_COMMAND (last_status s).1 = CONTROL_COMMAND s
  ∧ LAST_TERMINAL_STATUS (last_status s).1 = LAST_TERMINAL_STATUS s
  ∧ (deref s (LAST_STATUS s) = [] → (last_status s).1 = s)
  ∧ (∀ a, a ≠ LAST_STATUS s → deref (last_status s).1 a = deref s a)
  ∧ (∀ k, k ≠ "mission_state" → k ≠ "mission_id" → k ≠ "terminal_status" →
       dict_get (deref (last_status s).1 (LAST_STATUS s)) k
       = dict_get (deref s (LAST_STATUS s)) k)
  ∧ (deref s (LAST_STATUS s) ≠ [] →
       dict_get (deref (last_status s).1 (LAST_STATUS s)) "terminal_status"
       = Some (jopt (LAST_TERMINAL_STATUS s)))
  ∧ (deref s (LAST_STATUS s) ≠ [] →
       dict_get (deref (last_status s).1 (LAST_STATUS s)) "mission_state"
       = Some (default (JStr (MISSION_STATE s))
                 (dict_get (deref s (LAST_STATUS s)) "mission_state")))
  ∧ (deref s (LAST_STATUS s) ≠ [] →
       dict_get (deref (last_status s).1 (LAST_STATUS s)) "mission_id"
       = Some (default (JStr (current_id_or s "—"))
                 (dict_get (deref s (LAST_STATUS s)) "mission_id"))).
Proof.
  split; [reflexivity|].
  destruct (deref s (LAST_STATUS s)) as [|p d] eqn:Hd.
  - rewrite (last_status_empty s Hd). rewrite Hd. by repeat apply conj.
  - assert (Hne : deref s (LAST_STATUS s) ≠ []) by (by rewrite Hd).
    assert (Hlt : (LAST_STATUS s < length (heap s))%nat)
      by (eapply lookup_lt_Some, deref_nonempty_valid, Hne).
    rewrite (last_status_nonempty s Hne). cbn [fst]. rewrite Hd.
    repeat apply conj; try reflexivity; try done.
    + intros a Ha. by apply deref_snapshot_ne.
    + intros k H1 H2 H3. rewrite deref_snapshot by done.
      by apply dict_get_completed_other.
    + intros _. rewrite deref_snapshot by done.
      apply dict_get_completed_terminal.
    + intros _. rewrite deref_snapshot by done.
      apply completed_mission_state.
    + intros _. rewrite deref_snapshot by done.
      apply completed_mission_id.
Qed.

(** ** The operator's start *)

Lemma dict_get_setdefault_eq {V : Type} (d : list (string * V)) k v :
  dict_get (dict_setdefault d k v) k = Some (default v (dict_get d k)).
Proof.
  unfold dict_setdefault. destruct (dict_get d k) eqn:E; [done|].
  by rewrite dict_get_set_eq.
Qed.

(** The state [start_mission] leaves. *)
Lemma start_mission_eq e s :
  start_mission e s
  = (let a := LAST_STATUS s in
     let d1 := dict_setdefault (deref s a) "status" (JStr "mission_idle") in
     let h1 := <[a := d1]> (heap s) in
     let d2 := dict_set (default [] (h1 !! a)) "mission_id"
                 (JStr (_new_mission_id e)) in
     set_LAST_TERMINAL_STATUS None
       (set_heap (<[a := d2]> h1) (started (set_MISSION_STATE "start" s) e)),
     Ok (RStartMission (_new_mission_id e))).
Proof. reflexivity. Qed.

(** [LAST_STATUS] always refers to a dict: it does when the module is
    loaded, and every request keeps it so. *)
Lemma snapshot_valid_handle o s :
  snapshot_valid s → snapshot_valid (handle o s).1.
Proof.
  unfold snapshot_valid. intros Hs.
  destruct o as [e| | | | |body e now| | |e]; cbn [handle]; try done.
  - rewrite start_mission_eq. cbv zeta.
    cbn [fst heap LAST_STATUS set_LAST_TERMINAL_STATUS set_heap].
    by rewrite !length_insert.
  - rewrite mission_state_eq. cbn [fst]. by destruct (String.eqb _ _).
  - assert (Hrec : ∀ d s', LAST_STATUS s' = LAST_STATUS (received s d) →
              heap s' = heap (received s d) →
              (LAST_STATUS s' < length (heap s'))%nat).
    { intros d s' -> ->. destruct (received_view s d) as (_&_&_&_& -> & ->).
      rewrite length_app. cbn. lia. }
    destruct (get_payload body) as [| | | | |l|d] eqn:Hp.
    1-6: by rewrite status_update_not_dict by (intros d'; congruence).
    destruct (id_truthy (CURRENT_MISSION_ID s)) eqn:Ht.
    + destruct (current_mission s) as [[k mk]|] eqn:Hcur.
      * rewrite (status_update_current _ _ _ _ _ k mk Hp Ht Hcur).
        destruct (report_effect _ _ _ _ _) as [[mk' t] r]. by apply (Hrec d).
      * rewrite (status_update_orphan _ _ _ _ _ Hp Ht Hcur). by apply (Hrec d).
    + destruct (py_eq_str (default JNull (dict_get d "status")) "mission_started")
        eqn:Hst.
      * rewrite (status_update_fresh _ _ _ _ _ Hp Ht Hst).
        destruct (report_effect _ _ _ _ _) as [[mk' t] r]. by apply (Hrec d).
      * rewrite (status_update_dropped _ _ _ _ _ Hp Ht Hst). by apply (Hrec d).
  - destruct (deref s (LAST_STATUS s)) as [|p d] eqn:Hd.
    + by rewrite (last_status_empty s Hd).
    + rewrite last_status_nonempty by (by rewrite Hd).
      unfold with_snapshot. cbn [fst heap LAST_STATUS set_heap].
      by rewrite length_insert.
  - destruct (id_truthy (CURRENT_MISSION_ID s)) eqn:Ht.
    + destruct (current_mission s) as [[k mk]|] eqn:Hcur.
      * by rewrite (register_image_current _ _ k mk Ht Hcur).
      * by rewrite (register_image_orphan _ _ Ht Hcur).
    + by rewrite (register_image_fresh _ _ Ht).
Qed.

Lemma snapshot_valid_exec ops :
  snapshot_valid (exec ops initial_state).
Proof.
  assert (H : ∀ s, snapshot_valid s → snapshot_valid (exec ops s)).
  { induction ops as [|o ops IH]; intros s Hs; [done|].
    rewrite exec_cons. by apply IH, snapshot_valid_handle. }
  apply H. unfold snapshot_valid. cbn. lia.
Qed.



(** ** [sorted]: permutation, order and stability *)

Section PySortedFacts.
Context {A K : Type} `{EqDecision K} (key : A → K) (before : K → K → bool).

Lemma insert_sorted_perm x l : insert_sorted key before x l ≡ₚ x :: l.
Proof.
  induction l as [|y l IH]; simpl; [done|].
  destruct (before (key x) (key y)); [done|].
  rewrite IH. apply Permutation_swap.
Qed.

Lemma py_sorted_perm l : py_sorted key before l ≡ₚ l.
Proof.
  induction l as [|x l IH]; simpl; [done|].
  by rewrite insert_sorted_perm, IH.
Qed.

Hypothesis before_total : ∀ a b, before a b = true ∨ before b a = true.
Hypothesis before_trans :
  ∀ a b c, before a b = true → before b c = true → before a c = true.

Lemma insert_sorted_sorted x l :
  StronglySorted (in_order key before) l →
  StronglySorted (in_order key before) (insert_sorted key before x l).
Proof.
  induction 1 as [|y l Hl IH Hy]; simpl.
  - by repeat constructor.
  - destruct (before (key x) (key y)) eqn:E.
    + constructor; [by constructor|]. constructor; [done|].
      eapply Forall_impl; [exact Hy|]. intros z Hz.
      by apply (before_trans _ (key y)).
    + constructor; [done|].
      rewrite insert_sorted_perm. constructor; [|done].
      by destruct (before_total (key x) (key y)) as [H'|H']; [congruence|].
Qed.

Lemma py_sorted_sorted l :
  StronglySorted (in_order key before) (py_sorted key before l).
Proof.
  induction l as [|x l IH]; simpl; [constructor|].
  by apply insert_sorted_sorted.
Qed.

(** Stability: the elements of any one key are met in the order of the input. *)
Lemma insert_sorted_stable k x l :
  filter (λ y, key y = k) (insert_sorted key before x l)
  = filter (λ y, key y = k) (x :: l).
Proof.
  induction l as [|y l IH]; simpl; [done|].
  destruct (before (key x) (key y)) eqn:E; [done|].
  rewrite filter_cons, IH, !filter_cons.
  destruct (decide (key y = k)) as [Hy|Hy], (decide (key x = k)) as [Hx|Hx];
    try done.
  destruct (before_total (key x) (key x)) as [H'|H']; congruence.
Qed.

Lemma py_sorted_stable k l :
  filter (λ y, key y = k) (py_sorted key before l) = filter (λ y, key y = k) l.
Proof.
  induction l as [|x l IH]; simpl; [done|].
  by rewrite insert_sorted_stable, !filter_cons, IH.
Qed.
End PySortedFacts.

Lemma str_or_empty a : str_or a "" = a.
Proof. unfold str_or. destruct (String.eqb a "") eqn:E; [|done]. by apply String.eqb_eq in E. Qed.

Lemma py_sorted_ext {A K : Type} (key key' : A → K) before l :
  (∀ x, key x = key' x) → py_sorted key before l = py_sorted key' before l.
Proof.
  intros Hk. induction l as [|x l IH]; simpl; [done|]. rewrite IH.
  generalize (py_sorted key' before l). intros l'.
  induction l' as [|y l' IH']; simpl; [done|]. by rewrite !Hk, IH'.
Qed.

Lemma leb_total_rev (a b : string) : String.leb b a = true ∨ String.leb a b = true.
Proof. destruct (String.leb_total a b); auto. Qed.

Lemma leb_trans_rev (a b c : string) :
  String.leb b a = true → String.leb c b = true → String.leb c a = true.
Proof.
  intros H1 H2. apply Is_true_true. apply Is_true_true in H1, H2.
  exact (transitivity (R:=String.le) H2 H1).
Qed.

(** ** The list of missions *)

(** C5 as stated fails on ties: of two missions with the same [started_at],
    [missions] lists the one created first in front, not the later one. *)
Lemma C5_ties_keep_insertion_order :
  MISSIONS tied_state
  = [("mission_20251210_123456_AAAAAA",
      Mission.mk "mission_20251210_123456_AAAAAA" "2025-12-10T12:34:56" None
        "pending" ∅ ∅ 0 None);
     ("mission_20251210_123456_BBBBBB",
      Mission.mk "mission_20251210_123456_BBBBBB" "2025-12-10T12:34:56" None
        "pending" ∅ ∅ 0 None)]
  ∧ (missions tied_state).2
    = Ok (RMissions
            [Summary.mk "mission_20251210_123456_AAAAAA" "2025-12-10T12:34:56"
               None "pending" [] [] 0;
             Summary.mk "mission_20251210_123456_BBBBBB" "2025-12-10T12:34:56"
               None "pending" [] [] 0])
  ∧ (missions tied_state).2
    ≠ Ok (RMissions
            [Summary.mk "mission_20251210_123456_BBBBBB" "2025-12-10T12:34:56"
               None "pending" [] [] 0;
             Summary.mk "mission_20251210_123456_AAAAAA" "2025-12-10T12:34:56"
               None "pending" [] [] 0]).
Proof.
  repeat apply conj; [reflexivity|reflexivity|].
  vm_compute. discriminate.
Qed.

(** C5 (amended): [missions] returns the summaries of the registered
    missions, sorted by [started_at] from the most recent to the oldest, and
    missions with the same [started_at] keep the order of their insertion
    into the registry (the one created first is listed first). *)
Theorem C5_missions_sorted (s : state) :
  let summaries := map _mission_summary (dict_values (MISSIONS s)) in
  ∃ items,
    (missions s).2 = Ok (RMissions items)
    ∧ items ≡ₚ summaries
    ∧ StronglySorted
        (λ x y, String.leb (Summary.started_at y) (Summary.started_at x) = true)
        items
    ∧ ∀ t, filter (λ x, Summary.started_at x = t) items
           = filter (λ x, Summary.started_at x = t) summaries.
Proof.
  intros summaries. rewrite missions_eq. cbn [snd]. eexists. split; [reflexivity|].
  unfold sorted_reverse.
  rewrite (py_sorted_ext _ Summary.started_at) by (intros; apply str_or_empty).
  split; [apply py_sorted_perm|]. split.
  - apply (py_sorted_sorted Summary.started_at (λ k1 k2, String.leb k2 k1)).
    + intros a b. apply leb_total_rev.
    + intros a b c. apply leb_trans_rev.
  - intros t. apply py_sorted_stable. intros a b. apply leb_total_rev.
Qed.

(** ** How one request changes a registered mission *)

Lemma waypoint_effect_fields payload add m m' :
  (∀ i m0, Mission.images_count (add i m0) = Mission.images_count m0
           ∧ Mission.status (add i m0) = Mission.status m0) →
  waypoint_effect payload add m = Ok m' →
  Mission.images_count m' = Mission.images_count m
  ∧ Mission.status m' = Mission.status m.
Proof.
  intros Hadd. unfold waypoint_effect.
  destruct (dict_get payload "index") as [idx|]; [|by intros [= <-]].
  destruct idx; try (by intros [= <-]);
    (destruct (py_int _); [intros [= <-]; apply Hadd|done]).
Qed.

Lemma waypoints_keep status payload m2 m3 :
  (if py_eq_str status "waypoint_reached"
   then waypoint_effect payload add_reached m2
   else if py_eq_str status "waypoint_unreachable"
   then waypoint_effect payload add_unreachable m2
   else Ok m2) = Ok m3 →
  Mission.images_count m3 = Mission.images_count m2
  ∧ Mission.status m3 = Mission.status m2.
Proof.
  destruct (py_eq_str status "waypoint_reached");
    [|destruct (py_eq_str status "waypoint_unreachable")].
  - intros H. by apply (waypoint_effect_fields payload add_reached) in H.
  - intros H. by apply (waypoint_effect_fields payload add_unreachable) in H.
  - by intros [= <-].
Qed.

Lemma report_effect_count payload a now m terminal :
  Mission.images_count (report_effect payload a now m terminal).1.1
  = Mission.images_count m.
Proof.
  unfold report_effect.
  set (status := default (JStr "") (dict_get payload "status")).
  set (m2 := if py_eq_str status "mission_started" then _ else _).
  assert (H2 : Mission.images_count m2 = Mission.images_count m)
    by (subst m2; by destruct (py_eq_str status "mission_started")).
  pose proof (waypoints_keep status payload m2) as H3.
  destruct (if py_eq_str status "waypoint_reached" then _ else _) as [m3|ex];
    [|done].
  destruct (H3 m3 eq_refl) as [H3' _].
  repeat case_match; simpl; congruence.
Qed.

Lemma report_effect_status payload a now m terminal :
  lifecycle_status payload = false →
  Mission.status (report_effect payload a now m terminal).1.1 = Mission.status m.
Proof.
  unfold lifecycle_status, report_effect.
  set (status := default (JStr "") (dict_get payload "status")).
  intros H. repeat (apply orb_false_elim in H as [H ?]).
  repeat match goal with
         | Hx : py_eq_str _ _ = false |- _ => rewrite Hx; clear Hx
         end.
  cbn [orb].
  pose proof (waypoints_keep status payload (Mission.set_last_status (Some a) m))
    as H3.
  destruct (if py_eq_str status "waypoint_reached" then _ else _) as [m3|ex];
    [|done].
  destruct (H3 m3 eq_refl) as [_ H3'].
  destruct (py_startswith status "home_unreachable") as [[|]|ex']; try done.
Qed.

Lemma quiet_same s s' mid m keeps :
  MISSIONS s' = MISSIONS s → CURRENT_MISSION_ID s' = CURRENT_MISSION_ID s →
  dict_get (MISSIONS s) mid = Some m → quiet s s' mid m keeps.
Proof.
  intros HM Hc Hm. exists m. rewrite HM, Hc. split_and!; try done; lia.
Qed.

Lemma quiet_touch s s' mid m k mk mk' keeps :
  dict_get (MISSIONS s) mid = Some m →
  CURRENT_MISSION_ID s = Some k → dict_get (MISSIONS s) k = Some mk →
  MISSIONS s' = dict_set (MISSIONS s) k mk' →
  CURRENT_MISSION_ID s' = CURRENT_MISSION_ID s →
  Mission.images_count mk ≤ Mission.images_count mk' →
  (k = mid → keeps → Mission.status mk' = Mission.status mk) →
  quiet s s' mid m keeps.
Proof.
  intros Hm Hc Hk HM Hc' Hcount Hst. unfold quiet. rewrite HM, Hc', Hc.
  destruct (decide (k = mid)) as [->|Hne].
  - exists mk'. rewrite dict_get_set_eq. assert (mk = m) as -> by congruence.
    split_and!; try done. by apply Hst.
  - exists m. rewrite dict_get_set_ne by done.
    split_and!; try done; try lia.
Qed.

Lemma quiet_started s s' mid m e m' keeps :
  _new_mission_id e ≠ mid →
  dict_get (MISSIONS s) mid = Some m →
  MISSIONS s' = dict_set (MISSIONS s) (_new_mission_id e) m' →
  CURRENT_MISSION_ID s' = Some (_new_mission_id e) →
  quiet s s' mid m keeps.
Proof.
  intros Hne Hm HM Hc. exists m. rewrite HM, Hc, dict_get_set_ne by done.
  split_and!; try done; try lia. intros _. split; congruence.
Qed.

Lemma advance_pending_fields m :
  Mission.images_count (advance_pending m) = Mission.images_count m
  ∧ (Mission.status m ≠ "pending" →
     Mission.status (advance_pending m) = Mission.status m).
Proof.
  unfold advance_pending.
  destruct (String.eqb (Mission.status m) "pending") eqn:E; [|done].
  apply String.eqb_eq in E. done.
Qed.

Lemma status_update_quiet body e now s mid m :
  _new_mission_id e ≠ mid →
  dict_get (MISSIONS s) mid = Some m →
  quiet s (status_update body e now s).1 mid m
    (lifecycle_report (StatusUpdate body e now) = false).
Proof.
  intros Hne Hm. cbn [lifecycle_report].
  destruct (get_payload body) as [| | | | |l|d] eqn:Hp.
  1-6: rewrite status_update_not_dict by (intros d'; congruence);
    by apply quiet_same.
  destruct (received_view s d) as (Hc & HM & _).
  destruct (id_truthy (CURRENT_MISSION_ID s)) eqn:Ht.
  - destruct (current_mission s) as [[k mk]|] eqn:Hcur.
    + rewrite (status_update_current _ _ _ _ _ k mk Hp Ht Hcur).
      destruct (current_mission_Some _ _ _ Hcur) as [Hid Hk].
      pose proof (report_effect_count d (length (heap s)) now mk
                    (LAST_TERMINAL_STATUS s)) as Hcount.
      pose proof (report_effect_status d (length (heap s)) now mk
                    (LAST_TERMINAL_STATUS s)) as Hst.
      destruct (report_effect _ _ _ _ _) as [[mk' t] r]. cbn [fst snd] in *.
      apply (quiet_touch s _ mid m k mk mk'); try done.
      * unfold with_mission. cbn [MISSIONS set_LAST_TERMINAL_STATUS set_MISSIONS].
        by rewrite HM.
      * lia.
    + rewrite (status_update_orphan _ _ _ _ _ Hp Ht Hcur). by apply quiet_same.
  - destruct (py_eq_str (default JNull (dict_get d "status")) "mission_started")
      eqn:Hst.
    + rewrite (status_update_fresh _ _ _ _ _ Hp Ht Hst).
      destruct (report_effect _ _ _ _ _) as [[mk' t] r]. cbn [fst snd].
      apply (quiet_started s _ mid m e mk'); try done.
      unfold with_mission, started, with_mission.
      cbn [MISSIONS set_LAST_TERMINAL_STATUS set_MISSIONS set_CURRENT_MISSION_ID].
      by rewrite HM, dict_set_set.
    + rewrite (status_update_dropped _ _ _ _ _ Hp Ht Hst). by apply quiet_same.
Qed.

Lemma register_image_quiet e s mid m :
  _new_mission_id e ≠ mid →
  dict_get (MISSIONS s) mid = Some m →
  quiet s (register_image e s).1 mid m (Mission.status m ≠ "pending").
Proof.
  intros Hne Hm.
  destruct (id_truthy (CURRENT_MISSION_ID s)) eqn:Ht.
  - destruct (current_mission s) as [[k mk]|] eqn:Hcur.
    + rewrite (register_image_current _ _ k mk Ht Hcur).
      destruct (current_mission_Some _ _ _ Hcur) as [Hid Hk].
      destruct (advance_pending_fields (count_image mk)) as [Hcount Hst].
      apply (quiet_touch s _ mid m k mk (advance_pending (count_image mk)));
        try done.
      * rewrite Hcount. cbn. lia.
      * intros -> Hp. rewrite Hst; [done|].
        assert (mk = m) as -> by congruence. done.
    + rewrite (register_image_orphan _ _ Ht Hcur). by apply quiet_same.
  - rewrite (register_image_fresh _ _ Ht). cbn [fst].
    apply (quiet_started s _ mid m e
             (advance_pending (count_image (fresh_mission e)))); try done.
    unfold with_mission, started, with_mission.
    cbn [MISSIONS set_LAST_TERMINAL_STATUS set_MISSIONS set_CURRENT_MISSION_ID].
    by rewrite dict_set_set.
Qed.

Lemma last_status_view s :
  MISSIONS (last_status s).1 = MISSIONS s
  ∧ CURRENT_MISSION_ID (last_status s).1 = CURRENT_MISSION_ID s.
Proof.
  destruct (deref s (LAST_STATUS s)) as [|p d] eqn:Hd.
  - by rewrite (last_status_empty s Hd).
  - by rewrite last_status_nonempty by (by rewrite Hd).
Qed.

(** Every request is quiet for every mission whose id it does not draw:
    the status can change only by a lifecycle report, or by a photo while it
    is [pending]. *)
Lemma handle_quiet o s mid m :
  drawn_id o ≠ Some mid →
  dict_get (MISSIONS s) mid = Some m →
  quiet s (handle o s).1 mid m
    (lifecycle_report o = false ∧ Mission.status m ≠ "pending").
Proof.
  intros Hne Hm.
  assert (Hweak : ∀ s' (P Q : Prop), (Q → P) →
            quiet s s' mid m P → quiet s s' mid m Q).
  { intros s' P Q HPQ (m' & H1 & H2 & H3 & H4). exists m'. eauto 10. }
  destruct o as [e| | | | |body e now| | |e]; cbn [handle].
  - rewrite start_mission_eq. cbv zeta. cbn [fst].
    apply (quiet_started s _ mid m e (fresh_mission e)); try done.
    intros Heq. apply Hne. cbn. by rewrite Heq.
  - rewrite mission_state_eq. cbn [fst].
    apply quiet_same; try done; by destruct (String.eqb _ _).
  - by apply quiet_same.
  - by apply quiet_same.
  - by apply quiet_same.
  - eapply Hweak; [|apply status_update_quiet; try done].
    + by intros [? _].
    + intros Heq. apply Hne. cbn. by rewrite Heq.
  - destruct (last_status_view s) as [HM Hc]. by apply quiet_same.
  - by apply quiet_same.
  - eapply Hweak; [|apply register_image_quiet; try done].
    + by intros [_ ?].
    + intros Heq. apply Hne. cbn. by rewrite Heq.
Qed.

(** ** Photos *)

Lemma register_image_single e s mid m :
  CURRENT_MISSION_ID s = Some mid → String.eqb mid "" = false →
  MISSIONS s = [(mid, m)] →
  (register_image e s).2 = Ok (RImage mid)
  ∧ CURRENT_MISSION_ID (register_image e s).1 = Some mid
  ∧ MISSIONS (register_image e s).1 = [(mid, advance_pending (count_image m))].
Proof.
  intros Hid Hne HM.
  rewrite (register_image_current e s mid m).
  - unfold with_mission. cbn [fst snd CURRENT_MISSION_ID MISSIONS set_MISSIONS].
    by rewrite Hid, HM, set_single.
  - rewrite Hid. unfold id_truthy. by rewrite Hne.
  - unfold current_mission. by rewrite Hid, HM, get_single.
Qed.

Lemma register_image_first e s :
  CURRENT_MISSION_ID s = None → MISSIONS s = [] →
  (register_image e s).2 = Ok (RImage (_new_mission_id e))
  ∧ CURRENT_MISSION_ID (register_image e s).1 = Some (_new_mission_id e)
  ∧ MISSIONS (register_image e s).1
    = [(_new_mission_id e, advance_pending (count_image (fresh_mission e)))].
Proof.
  intros Hid HM. rewrite register_image_fresh by (by rewrite Hid).
  unfold with_mission, started, with_mission.
  cbn [fst snd CURRENT_MISSION_ID MISSIONS set_MISSIONS
       set_LAST_TERMINAL_STATUS set_CURRENT_MISSION_ID].
  by rewrite HM, dict_set_set.
Qed.

(** C7 as stated fails: a mission started under the id of a registered
    mission replaces its record.  Here a mission is started and two photos
    are counted in it; a second start in the same second that draws the same
    suffix puts its [images_count] back from 2 to 0. *)
Lemma C7_redraw_resets_count :
  Mission.images_count
  <$> dict_get
        (MISSIONS (exec [StartMission first_env; RegisterImage first_env;
                         RegisterImage first_env] initial_state))
        (_new_mission_id first_env) = Some 2
  ∧ Mission.images_count
    <$> dict_get
          (MISSIONS (exec [StartMission first_env; RegisterImage first_env;
                           RegisterImage first_env; StartMission first_env]
                       initial_state))
          (_new_mission_id first_env) = Some 0
  ∧ drawn_id (StartMission first_env) = Some (_new_mission_id first_env).
Proof. split_and!; vm_compute; reflexivity. Qed.

(** C7 (amended): three photos registered from a state with no mission create
    one mission, on the first call; it is [running] with one image after the
    first call and has three images after the third.  And under any sequence
    of requests none of which draws the id of a registered mission again, the
    [images_count] of that mission never decreases. *)
Theorem C7_register_image :
  (∀ s e1 e2 e3,
     MISSIONS s = [] → CURRENT_MISSION_ID s = None →
     let mid := _new_mission_id e1 in
     replies [RegisterImage e1; RegisterImage e2; RegisterImage e3] s
     = [Ok (RImage mid); Ok (RImage mid); Ok (RImage mid)]
     ∧ (∃ m1, MISSIONS (exec [RegisterImage e1] s) = [(mid, m1)]
          ∧ Mission.status m1 = "running" ∧ Mission.images_count m1 = 1)
     ∧ (∃ m3, MISSIONS (exec [RegisterImage e1; RegisterImage e2;
                              RegisterImage e3] s) = [(mid, m3)]
          ∧ Mission.status m3 = "running" ∧ Mission.images_count m3 = 3))
  ∧ (∀ s ops mid m,
       Forall (λ o, drawn_id o ≠ Some mid) ops →
       dict_get (MISSIONS s) mid = Some m →
       ∃ m', dict_get (MISSIONS (exec ops s)) mid = Some m'
         ∧ Mission.images_count m ≤ Mission.images_count m').
Proof.
  split.
  - intros s e1 e2 e3 HM Hid mid. unfold replies, exec. rewrite !run_cons.
    cbn [run handle fst snd].
    destruct (register_image_first e1 s Hid HM) as (-> & Hid1 & HM1).
    set (s1 := (register_image e1 s).1) in *.
    destruct (register_image_single e2 s1 _ _ Hid1 eq_refl HM1)
      as (-> & Hid2 & HM2).
    set (s2 := (register_image e2 s1).1) in *.
    destruct (register_image_single e3 s2 _ _ Hid2 eq_refl HM2)
      as (-> & Hid3 & HM3).
    split; [done|]. split; eexists; (split; [eassumption|done]).
  - intros s ops. revert s.
    induction ops as [|o ops IH]; intros s mid m Hops Hm.
    + exists m. split; [done|lia].
    + apply Forall_cons in Hops as [Ho Hops]. rewrite exec_cons.
      destruct (handle_quiet o s mid m Ho Hm) as (m1 & Hm1 & Hle & _).
      destruct (IH _ mid m1 Hops Hm1) as (m' & Hm' & Hle').
      exists m'. split; [done|lia].
Qed.

(** Three photos sent to the freshly loaded module; and a mission that has
    counted one photo, through another photo, the start of another mission
    and a photo for that one. *)
Lemma C7_register_image_witness :
  (∃ m3, MISSIONS (exec [RegisterImage (mkEnv "20251210_123456" "AB12CD" "t0");
                         RegisterImage (mkEnv "20251210_123457" "AB12CE" "t1");
                         RegisterImage (mkEnv "20251210_123458" "AB12CF" "t2")]
                     initial_state)
         = [("mission_20251210_123456_AB12CD", m3)]
       ∧ Mission.status m3 = "running" ∧ Mission.images_count m3 = 3)
  ∧ (∃ m', dict_get
             (MISSIONS
                (exec [RegisterImage (mkEnv "20251210_123457" "AB12CE" "t1");
                       StartMission (mkEnv "20251210_123458" "AB12CF" "t2");
                       RegisterImage (mkEnv "20251210_123459" "AB12D0" "t3")]
                   (exec [RegisterImage first_env] initial_state)))
             "mission_20251210_123456_AB12CD" = Some m'
         ∧ 1 ≤ Mission.images_count m').
Proof.
  split.
  - exact (proj2 (proj2 (proj1 C7_register_image initial_state
      (mkEnv "20251210_123456" "AB12CD" "t0")
      (mkEnv "20251210_123457" "AB12CE" "t1")
      (mkEnv "20251210_123458" "AB12CF" "t2") eq_refl eq_refl))).
  - refine (proj2 C7_register_image
      (exec [RegisterImage first_env] initial_state)
      [RegisterImage (mkEnv "20251210_123457" "AB12CE" "t1");
       StartMission (mkEnv "20251210_123458" "AB12CF" "t2");
       RegisterImage (mkEnv "20251210_123459" "AB12D0" "t3")]
      "mission_20251210_123456_AB12CD"
      (Mission.mk "mission_20251210_123456_AB12CD" "2025-12-10T12:34:56" None
         "running" ∅ ∅ 1 None) _ eq_refl).
    repeat constructor; cbn; intros [=].
Defined.

(** ** Terminal statuses *)

Lemma terminal_not_pending status : terminal status = true → status ≠ "pending".
Proof. by intros H ->. Qed.

(** C3 as stated fails: a mission that is [complete] and still current goes
    back to [running] when a [mission_started] report arrives. *)
Lemma C3_terminal_status_changes :
  Mission.status
    <$> dict_get
          (MISSIONS (exec [StatusUpdate (report "mission_started") first_env "t1";
                           StatusUpdate (report "mission_complete") first_env "t2"]
                       initial_state))
          "mission_20251210_123456_AB12CD" = Some "complete"
  ∧ Mission.status
      <$> dict_get
            (MISSIONS (exec [StatusUpdate (report "mission_started") first_env "t1";
                             StatusUpdate (report "mission_complete") first_env "t2";
                             StatusUpdate (report "mission_started") first_env "t3"]
                         initial_state))
            "mission_20251210_123456_AB12CD" = Some "running".
Proof. split; reflexivity. Qed.

(** C3 (amended): the status of a mission that is [complete],
    [home_unreachable] or [aborted] is kept by every sequence of requests that
    do not draw its id again, provided that the mission is no longer the
    current one, or that none of the requests is a status report with a
    lifecycle status ([mission_started], [mission_complete],
    [mission_complete_after_abort], [home_unreachable...],
    [mission_aborted_by_operator]); photos, polls, commands and queries never
    change it. *)
Theorem C3_terminal_status_kept (s : state) (ops : list op) (mid : string)
    (m : Mission.t) :
  dict_get (MISSIONS s) mid = Some m →
  terminal (Mission.status m) = true →
  Forall (λ o, drawn_id o ≠ Some mid) ops →
  CURRENT_MISSION_ID s ≠ Some mid
  ∨ Forall (λ o, lifecycle_report o = false) ops →
  ∃ m', dict_get (MISSIONS (exec ops s)) mid = Some m'
    ∧ Mission.status m' = Mission.status m.
Proof.
  revert s m. induction ops as [|o ops IH]; intros s m Hm Hterm Hops Hcase.
  - by exists m.
  - apply Forall_cons in Hops as [Ho Hops]. rewrite exec_cons.
    destruct (handle_quiet o s mid m Ho Hm) as (m1 & Hm1 & _ & Hcur & Hkeep).
    destruct Hcase as [Hne|Hquiet].
    + destruct (Hcur Hne) as [-> Hne1].
      destruct (IH _ m Hm1 Hterm Hops (or_introl Hne1)) as (m' & ? & ?).
      by exists m'.
    + apply Forall_cons in Hquiet as [Hq Hquiet].
      assert (Hst : Mission.status m1 = Mission.status m)
        by (apply Hkeep; split; [done|by apply terminal_not_pending]).
      destruct (IH _ m1 Hm1) as (m' & ? & ?); [by rewrite Hst|done|by right|].
      exists m'. split; [done|congruence].
Qed.

(** A completed mission that then receives a photo, a waypoint report, an
    abort and a status query. *)
Lemma C3_terminal_status_kept_witness :
  ∃ m', dict_get
          (MISSIONS (exec [RegisterImage (mkEnv "a" "b" "t3");
                           StatusUpdate (report_at "waypoint_reached" 4)
                             (mkEnv "c" "d" "t4") "t5";
                           AbortMission; LastStatus]
                       (exec [StatusUpdate (report "mission_started") first_env "t1";
                              StatusUpdate (report "mission_complete") first_env "t2"]
                          initial_state)))
          "mission_20251210_123456_AB12CD" = Some m'
      ∧ Mission.status m' = "complete".
Proof.
  refine (C3_terminal_status_kept
    (exec [StatusUpdate (report "mission_started") first_env "t1";
           StatusUpdate (report "mission_complete") first_env "t2"] initial_state)
    [RegisterImage (mkEnv "a" "b" "t3");
     StatusUpdate (report_at "waypoint_reached" 4) (mkEnv "c" "d" "t4") "t5";
     AbortMission; LastStatus]
    "mission_20251210_123456_AB12CD"
    (Mission.mk "mission_20251210_123456_AB12CD" "2025-12-10T12:34:56"
       (Some "t2") "complete" ∅ ∅ 0 (Some 2%nat))
    eq_refl eq_refl _ _).
  - repeat constructor; cbn; intros [=].
  - right. repeat constructor.
Defined.

(** ** Concurrent polls of the control register *)

(** The two steps of one poller, taken together, are [control_state]. *)
Lemma poller_steps_control_state s :
  let '(s1, p1) := poller_step s BeforeRead in
  poller_step s1 p1 = ((control_state s).1, Returned (CONTROL_COMMAND s))
  ∧ (control_state s).2 = Ok (RCommand (CONTROL_COMMAND s)).
Proof. done. Qed.

Lemma race_inv_init cmd s n :
  CONTROL_COMMAND s = cmd → race_inv cmd (s, replicate n BeforeRead).
Proof.
  intros Hs. unfold race_inv. cbn [fst snd]. split_and!.
  - intros j p v [-> _]%lookup_replicate. done.
  - by left.
  - intros _ j p [-> _]%lookup_replicate. by left.
  - done.
Qed.

Lemma race_inv_step cmd c i :
  cmd ≠ "none" → race_inv cmd c → race_inv cmd (schedule_step c i).
Proof.
  intros Hcmd (HA & HB & HC & HD). destruct c as [s ps].
  unfold schedule_step. cbn [fst snd] in *.
  destruct (ps !! i) as [p|] eqn:Hi; [|done].
  assert (Hlt : (i < length ps)%nat) by (by eapply lookup_lt_Some).
  destruct p as [|v|v]; cbn [poller_step fst snd].
  - (* the read *)
    split_and!; cbn [fst snd]; try done.
    + intros j p v. rewrite list_lookup_insert by done.
      case_decide as Hj; [|by apply HA].
      destruct Hj as [<- _]. intros [= <-] [= <-]. done.
    + intros Hs j p. rewrite list_lookup_insert by done.
      case_decide as Hj; [|by apply HC].
      destruct Hj as [<- _]. intros [= <-]. right. by rewrite Hs.
    + intros Hs. destruct (HD Hs) as (j & p & Hj & Hp).
      exists j, p. split; [|done].
      rewrite list_lookup_insert_ne; [done|]. intros ->.
      rewrite Hi in Hj. by injection Hj as <-.
  - (* the write *)
    split_and!; cbn [fst snd CONTROL_COMMAND set_CONTROL_COMMAND]; try done.
    + intros j p w. rewrite list_lookup_insert by done.
      case_decide as Hj; [|by apply HA].
      destruct Hj as [<- _]. intros [= <-] [= <-]. by apply (HA i (BeforeWrite v)).
    + by right.
    + intros _. destruct (decide (CONTROL_COMMAND s = cmd)) as [Hs|Hs].
      * destruct (HC Hs i _ Hi) as [|[= ->]]; [done|].
        exists i, (Returned cmd). by rewrite list_lookup_insert_eq.
      * destruct (HD Hs) as (j & p & Hj & Hp).
        destruct (decide (i = j)) as [->|Hij].
        -- rewrite Hi in Hj. injection Hj as <-. injection Hp as ->.
           exists j, (Returned cmd). by rewrite list_lookup_insert_eq.
        -- exists j, p. by rewrite list_lookup_insert_ne.
  - (* already returned *)
    rewrite list_insert_id by done. done.
Qed.

Lemma race_inv_interleave cmd sched c :
  cmd ≠ "none" → race_inv cmd c → race_inv cmd (interleave sched c).
Proof.
  intros Hcmd. unfold interleave. revert c.
  induction sched as [|i sched IH]; intros c Hc; [done|].
  cbn [foldl]. apply IH. by apply race_inv_step.
Qed.

Lemma interleave_length sched c :
  length (interleave sched c).2 = length c.2.
Proof.
  unfold interleave. revert c. induction sched as [|i sched IH]; intros c; [done|].
  cbn [foldl]. rewrite IH. unfold schedule_step.
  destruct (c.2 !! i) as [p|]; [|done].
  destruct (poller_step c.1 p). cbn [snd]. by rewrite length_insert.
Qed.

Lemma polled_none n s :
  CONTROL_COMMAND s = "none" → polled n s = replicate n (Returned "none").
Proof.
  revert s. induction n as [|n IH]; intros s Hs; [done|].
  cbn [polled replicate]. rewrite Hs. by rewrite IH.
Qed.

Lemma schedule_step_middle s (front : list poller) p rest :
  schedule_step (s, front ++ p :: rest) (length front)
  = ((poller_step s p).1, front ++ (poller_step s p).2 :: rest).
Proof.
  unfold schedule_step. cbn [fst snd]. rewrite list_lookup_middle by done.
  destruct (poller_step s p) as [s' p']. cbn [fst snd].
  rewrite insert_app_r_alt by lia. by rewrite Nat.sub_diag.
Qed.

Lemma interleave_serial n (front : list poller) s :
  interleave (serial (length front) n) (s, front ++ replicate n BeforeRead)
  = (exec (repeat ControlState n) s, front ++ polled n s).
Proof.
  revert front s. induction n as [|n IH]; intros front s; [done|].
  cbn [serial replicate repeat polled]. unfold interleave. cbn [foldl].
  rewrite !schedule_step_middle. cbn [poller_step fst snd].
  rewrite exec_cons. cbn [handle]. rewrite control_state_eq. cbn [fst].
  specialize (IH (front ++ [Returned (CONTROL_COMMAND s)])
                (set_CONTROL_COMMAND "none" s)).
  rewrite length_app in IH. cbn [length] in IH.
  rewrite Nat.add_1_r, <- !app_assoc in IH. exact IH.
Qed.

(** C9 as stated fails: with two polls racing after one [abort_mission],
    the interleaving read, read, write, write hands [abort] to both. *)
Lemma C9_race_duplicates :
  racing_polls.2 = [Returned "abort"; Returned "abort"]
  ∧ CONTROL_COMMAND racing_polls.1 = "none".
Proof. split; reflexivity. Qed.

(** C9 (amended): after one [set] of a command, [n + 1] polls that run one
    after the other (no poll starts before the previous one has returned)
    hand the command to the first poll and [none] to all the others.  Under
    an arbitrary interleaving of their reads and writes, once all polls have
    returned, each has received the command or [none], at least one has
    received the command, and the register holds [none]: the command is not
    lost, but several polls may receive it. *)
Theorem C9_polls_race (s : state) (cmd : string) (n : nat) (sched : list nat) :
  CONTROL_COMMAND s = cmd → cmd ≠ "none" →
  Forall (λ p, has_returned p = true)
    (interleave sched (s, replicate (S n) BeforeRead)).2 →
  (interleave (serial 0 (S n)) (s, replicate (S n) BeforeRead)).2
  = Returned cmd :: replicate n (Returned "none")
  ∧ Forall (λ p, p = Returned cmd ∨ p = Returned "none")
      (interleave sched (s, replicate (S n) BeforeRead)).2
  ∧ (∃ j, (interleave sched (s, replicate (S n) BeforeRead)).2 !! j
          = Some (Returned cmd))
  ∧ CONTROL_COMMAND (interleave sched (s, replicate (S n) BeforeRead)).1 = "none".
Proof.
  intros Hs Hcmd Hret. split.
  - pose proof (interleave_serial (S n) [] s) as Hserial.
    cbn [length app] in Hserial. rewrite Hserial. cbn [snd polled].
    by rewrite Hs, polled_none.
  - pose proof (race_inv_interleave cmd sched _ Hcmd
                  (race_inv_init cmd s (S n) Hs)) as (HA & HB & HC & HD).
    pose proof (interleave_length sched (s, replicate (S n) BeforeRead)) as Hlen.
    set (c := interleave sched (s, replicate (S n) BeforeRead)) in *.
    cbn [snd] in Hlen. rewrite length_replicate in Hlen.
    assert (Hnone : CONTROL_COMMAND c.1 = "none").
    { destruct HB as [HB|HB]; [|done].
      destruct (lookup_lt_is_Some_2 c.2 0) as [p Hp]; [lia|].
      pose proof (Forall_lookup_1 _ _ _ _ Hret Hp) as Hr.
      by destruct (HC HB _ _ Hp) as [->| ->]. }
    split_and!; [|  |done].
    + apply Forall_lookup_2. intros j p Hp.
      pose proof (Forall_lookup_1 _ _ _ _ Hret Hp) as Hr.
      destruct p as [|v|v]; try done.
      destruct (HA j _ v Hp eq_refl) as [->| ->]; auto.
    + destruct HD as (j & p & Hp & Hobs); [by rewrite Hnone|].
      exists j. pose proof (Forall_lookup_1 _ _ _ _ Hret Hp) as Hr.
      destruct p as [|v|v]; try done. by injection Hobs as ->.
Qed.

(** The interleaving read, read, write, write of two polls. *)
Lemma C9_polls_race_witness :
  Forall (λ p, p = Returned "abort" ∨ p = Returned "none") racing_polls.2
  ∧ (∃ j, racing_polls.2 !! j = Some (Returned "abort")).
Proof.
  assert (Hret : Forall (λ p, has_returned p = true)
            (interleave [0; 1; 0; 1]%nat
               ((abort_mission initial_state).1, replicate 2 BeforeRead)).2)
    by (repeat constructor).
  destruct (C9_polls_race (abort_mission initial_state).1 "abort" 1
              [0; 1; 0; 1]%nat eq_refl ltac:(discriminate) Hret)
    as (_ & Hall & Hsome & _).
  split; [exact Hall|exact Hsome].
Defined.

(** * Further properties of the handlers *)

(** ** The post-state of [status_update] and of [register_image] *)

Lemma received_mission_state s d :
  MISSION_STATE (received s d)
  = if py_eq_str (default (JStr "") (dict_get d "status")) "mission_idle"
    then "idle" else MISSION_STATE s.
Proof. unfold received. by destruct (py_eq_str _ _). Qed.

(** The four ways of [status_update] on a JSON object, in one statement. *)
Lemma status_update_post body d e now s :
  get_payload body = JObj d →
  ∃ s1 r,
    status_update body e now s = (s1, reply_ok r)
    ∧ MISSION_STATE s1 = MISSION_STATE (received s d)
    ∧ CONTROL_COMMAND s1 = CONTROL_COMMAND s
    ∧ LAST_STATUS s1 = length (heap s)
    ∧ heap s1 = heap s ++ [defaulted s d]
    ∧ ((MISSIONS s1 = MISSIONS s
        ∧ CURRENT_MISSION_ID s1 = CURRENT_MISSION_ID s
        ∧ LAST_TERMINAL_STATUS s1 = LAST_TERMINAL_STATUS s
        ∧ r = Ok ())
       ∨ (∃ k m,
            id_truthy (CURRENT_MISSION_ID s) = true
            ∧ current_mission s = Some (k, m)
            ∧ MISSIONS s1
              = dict_set (MISSIONS s) k
                  (report_effect d (length (heap s)) now m
                     (LAST_TERMINAL_STATUS s)).1.1
            ∧ CURRENT_MISSION_ID s1 = CURRENT_MISSION_ID s
            ∧ LAST_TERMINAL_STATUS s1
              = (report_effect d (length (heap s)) now m
                   (LAST_TERMINAL_STATUS s)).1.2
            ∧ r = (report_effect d (length (heap s)) now m
                     (LAST_TERMINAL_STATUS s)).2)
       ∨ (id_truthy (CURRENT_MISSION_ID s) = false
          ∧ py_eq_str (default JNull (dict_get d "status")) "mission_started"
            = true
          ∧ MISSIONS s1
            = dict_set (MISSIONS s) (_new_mission_id e)
                (report_effect d (length (heap s)) now (fresh_mission e) None).1.1
          ∧ CURRENT_MISSION_ID s1 = Some (_new_mission_id e)
          ∧ LAST_TERMINAL_STATUS s1
            = (report_effect d (length (heap s)) now (fresh_mission e) None).1.2
          ∧ r = (report_effect d (length (heap s)) now (fresh_mission e) None).2)).
Proof.
  intros Hp.
  destruct (received_view s d) as (Hc & HM & Ht & Hcc & Hls & Hh).
  destruct (id_truthy (CURRENT_MISSION_ID s)) eqn:Htr.
  - destruct (current_mission s) as [[k mk]|] eqn:Hcur.
    + rewrite (status_update_current _ _ _ _ _ k mk Hp Htr Hcur).
      destruct (report_effect _ _ _ _ _) as [[mk' t] r] eqn:Heff.
      eexists _, r. split; [reflexivity|].
      unfold with_mission.
      cbn [MISSION_STATE CONTROL_COMMAND LAST_STATUS heap MISSIONS
           CURRENT_MISSION_ID LAST_TERMINAL_STATUS set_LAST_TERMINAL_STATUS
           set_MISSIONS fst snd].
      rewrite Hc, HM, Hcc, Hls, Hh. split_and!; try done.
      right. left. exists k, mk. by rewrite Heff.
    + rewrite (status_update_orphan _ _ _ _ _ Hp Htr Hcur).
      eexists _, (Ok ()). split; [reflexivity|]. split_and!; try done.
      by left.
  - destruct (py_eq_str (default JNull (dict_get d "status")) "mission_started")
      eqn:Hst.
    + rewrite (status_update_fresh _ _ _ _ _ Hp Htr Hst).
      destruct (report_effect _ _ _ _ _) as [[mk' t] r] eqn:Heff.
      eexists _, r. split; [reflexivity|].
      unfold with_mission, started, with_mission.
      cbn [MISSION_STATE CONTROL_COMMAND LAST_STATUS heap MISSIONS
           CURRENT_MISSION_ID LAST_TERMINAL_STATUS set_LAST_TERMINAL_STATUS
           set_MISSIONS set_CURRENT_MISSION_ID fst snd].
      rewrite HM, Hcc, Hls, Hh, dict_set_set. split_and!; try done.
      by right; right.
    + rewrite (status_update_dropped _ _ _ _ _ Hp Htr Hst).
      eexists _, (Ok ()). split; [reflexivity|]. split_and!; try done.
      by left.
Qed.

(** The three ways of [register_image], in one statement. *)
Lemma register_image_post e s :
  ∃ s1 k,
    register_image e s = (s1, Ok (RImage k))
    ∧ MISSION_STATE s1 = MISSION_STATE s
    ∧ CONTROL_COMMAND s1 = CONTROL_COMMAND s
    ∧ LAST_STATUS s1 = LAST_STATUS s
    ∧ heap s1 = heap s
    ∧ ((s1 = s ∧ id_truthy (CURRENT_MISSION_ID s) = true
        ∧ current_mission s = None ∧ k = current_id_or s "nomission")
       ∨ (∃ m,
            id_truthy (CURRENT_MISSION_ID s) = true
            ∧ current_mission s = Some (k, m)
            ∧ MISSIONS s1 = dict_set (MISSIONS s) k (advance_pending (count_image m))
            ∧ CURRENT_MISSION_ID s1 = CURRENT_MISSION_ID s
            ∧ LAST_TERMINAL_STATUS s1 = LAST_TERMINAL_STATUS s)
       ∨ (id_truthy (CURRENT_MISSION_ID s) = false
          ∧ k = _new_mission_id e
          ∧ MISSIONS s1
            = dict_set (MISSIONS s) (_new_mission_id e)
                (advance_pending (count_image (fresh_mission e)))
          ∧ CURRENT_MISSION_ID s1 = Some (_new_mission_id e)
          ∧ LAST_TERMINAL_STATUS s1 = None)).
Proof.
  destruct (id_truthy (CURRENT_MISSION_ID s)) eqn:Htr.
  - destruct (current_mission s) as [[k mk]|] eqn:Hcur.
    + rewrite (register_image_current _ _ k mk Htr Hcur).
      eexists _, k. split; [reflexivity|]. split_and!; try done.
      right. left. by exists mk.
    + rewrite (register_image_orphan _ _ Htr Hcur).
      eexists _, _. split; [reflexivity|]. split_and!; try done. by left.
  - rewrite (register_image_fresh _ _ Htr).
    eexists _, _. split; [reflexivity|]. split_and!; try done.
    right. right. split_and!; try done.
    unfold with_mission, started, with_mission.
    cbn [MISSIONS set_LAST_TERMINAL_STATUS set_MISSIONS set_CURRENT_MISSION_ID].
    by rewrite dict_set_set.
Qed.

(** Every request changes the registry by a [registry_step]. *)
Lemma handle_registry_step o s : registry_step o s (handle o s).1.
Proof.
  destruct o as [e| | | | |body e now| | |e]; cbn [handle].
  - right. right. exists e, (fresh_mission e). rewrite start_mission_eq.
    split_and!; try done. by left.
  - left. rewrite mission_state_eq. cbn [fst]. by destruct (String.eqb _ _).
  - by left.
  - by left.
  - by left.
  - destruct (get_payload body) as [| | | | |l|d] eqn:Hp.
    1-6: left; by rewrite status_update_not_dict by (intros d'; congruence).
    destruct (status_update_post body d e now s Hp)
      as (s1 & r & -> & _ & _ & _ & _ & Hcase). cbn [fst].
    destruct Hcase as [(HM & Hc & Ht & _)|[(k & m & Htr & Hcur & HM & Hc & Ht & _)
                                          |(Htr & _ & HM & Hc & Ht & _)]].
    + by left.
    + right. left. exists k, m, (report_effect d (length (heap s)) now m
                                   (LAST_TERMINAL_STATUS s)).1.1.
      split_and!; try done. right. left. exists d, (length (heap s)), now.
      rewrite Ht. by destruct (report_effect _ _ _ _ _) as [[??]?].
    + right. right. exists e, (report_effect d (length (heap s)) now
                                 (fresh_mission e) None).1.1.
      split_and!; try done. right. left. exists d, (length (heap s)), now.
      rewrite Ht. by destruct (report_effect _ _ _ _ _) as [[??]?].
  - left. destruct (last_status_view s) as [HM Hc].
    split_and!; try done.
    destruct (deref s (LAST_STATUS s)) as [|p d] eqn:Hd.
    + by rewrite (last_status_empty s Hd).
    + by rewrite last_status_nonempty by (by rewrite Hd).
  - by left.
  - destruct (register_image_post e s)
      as (s1 & k & -> & _ & _ & _ & _ & Hcase). cbn [fst].
    destruct Hcase as [(-> & _)|[(m & Htr & Hcur & HM & Hc & Ht)
                                |(Htr & -> & HM & Hc & Ht)]].
    + by left.
    + right. left. exists k, m, (advance_pending (count_image m)).
      split_and!; try done. right. right. by rewrite Ht.
    + right. right. exists e, (advance_pending (count_image (fresh_mission e))).
      split_and!; try done. right. right. by rewrite Ht.
Qed.

(** ** What a report does to the fields of a mission *)

Lemma more_waypoints_refl m : more_waypoints m m.
Proof. unfold more_waypoints. split_and!; done. Qed.

Lemma waypoint_branch_more status payload m2 m3 :
  (if py_eq_str status "waypoint_reached"
   then waypoint_effect payload add_reached m2
   else if py_eq_str status "waypoint_unreachable"
   then waypoint_effect payload add_unreachable m2
   else Ok m2) = Ok m3 →
  more_waypoints m2 m3.
Proof.
  assert (Hw : ∀ add, (∀ i m0, more_waypoints m0 (add i m0)) →
            waypoint_effect payload add m2 = Ok m3 → more_waypoints m2 m3).
  { intros add Hadd. unfold waypoint_effect.
    destruct (dict_get payload "index") as [idx|];
      [|intros [= <-]; apply more_waypoints_refl].
    destruct idx; try (intros [= <-]; apply more_waypoints_refl);
      (destruct (py_int _); [intros [= <-]; apply Hadd|done]). }
  destruct (py_eq_str status "waypoint_reached");
    [|destruct (py_eq_str status "waypoint_unreachable")].
  - apply Hw. intros i m0. unfold more_waypoints, add_reached. cbn.
    split_and!; try done. set_solver.
  - apply Hw. intros i m0. unfold more_waypoints, add_unreachable. cbn.
    split_and!; try done. set_solver.
  - intros [= <-]. apply more_waypoints_refl.
Qed.

(** All the fields of the mission a report was folded into. *)
Lemma report_effect_fields payload a now m t :
  let m' := (report_effect payload a now m t).1.1 in
  let t' := (report_effect payload a now m t).1.2 in
  Mission.id m' = Mission.id m
  ∧ Mission.started_at m' = Mission.started_at m
  ∧ Mission.images_count m' = Mission.images_count m
  ∧ Mission.last_status m' = Some a
  ∧ Mission.waypoints_reached m ⊆ Mission.waypoints_reached m'
  ∧ Mission.waypoints_unreachable m ⊆ Mission.waypoints_unreachable m'
  ∧ (((Mission.status m' = Mission.status m ∨ Mission.status m' = "running")
      ∧ Mission.ended_at m' = Mission.ended_at m ∧ t' = t)
     ∨ (Mission.ended_at m' = Some now
        ∧ ((Mission.status m' = "complete" ∧ t' = Some "mission_complete")
           ∨ (Mission.status m' = "home_unreachable"
              ∧ t' = Some "home_unreachable")
           ∨ (Mission.status m' = "aborted"
              ∧ t' = Some "mission_aborted_by_operator")))).
Proof.
  unfold report_effect.
  set (status := default (JStr "") (dict_get payload "status")).
  set (m2 := if py_eq_str status "mission_started" then _ else _).
  assert (H2 : Mission.id m2 = Mission.id m
               ∧ Mission.started_at m2 = Mission.started_at m
               ∧ Mission.images_count m2 = Mission.images_count m
               ∧ Mission.last_status m2 = Some a
               ∧ Mission.waypoints_reached m2 = Mission.waypoints_reached m
               ∧ Mission.waypoints_unreachable m2 = Mission.waypoints_unreachable m
               ∧ Mission.ended_at m2 = Mission.ended_at m
               ∧ (Mission.status m2 = Mission.status m
                  ∨ Mission.status m2 = "running")).
  { subst m2. destruct (py_eq_str status "mission_started"); cbn;
      split_and!; auto. }
  destruct H2 as (Hid & Hsa & Hic & Hls & Hwr & Hwu & Hea & Hst).
  pose proof (waypoint_branch_more status payload m2) as H3.
  destruct (if py_eq_str status "waypoint_reached" then _ else _) as [m3|ex].
  - destruct (H3 m3 eq_refl) as (Hid3 & Hsa3 & Hea3 & Hst3 & Hic3 & Hls3 & Hwr3 & Hwu3).
    rewrite <- Hwr, <- Hwu.
    destruct (_ || _); [|destruct (py_startswith _ _) as [[|]|ex];
      [| destruct (py_eq_str status "mission_aborted_by_operator")|]];
      cbn; split_and!; try congruence; auto 10.
    all: left; split_and!; try congruence.
    all: destruct Hst; [left|right]; congruence.
  - cbn. rewrite Hwr, Hwu. split_and!; try done. by left.
Qed.

(** ** Invariants of the registry *)

Lemma mission_step_fields m t m' t' :
  mission_step m t m' t' →
  Mission.id m' = Mission.id m
  ∧ Mission.started_at m' = Mission.started_at m
  ∧ Mission.images_count m ≤ Mission.images_count m'
  ∧ Mission.waypoints_reached m ⊆ Mission.waypoints_reached m'
  ∧ Mission.waypoints_unreachable m ⊆ Mission.waypoints_unreachable m'
  ∧ (mission_ok m → mission_ok m')
  ∧ (terminal_ok t → terminal_ok t').
Proof.
  intros [[-> ->]|[(payload & a & now & Heff)|[-> ->]]].
  - split_and!; try done; lia.
  - pose proof (report_effect_fields payload a now m t) as Hf. cbv zeta in Hf.
    rewrite <- Heff in Hf. cbn [fst snd] in Hf.
    destruct Hf as (Hid & Hsa & Hic & _ & Hwr & Hwu & Hcase).
    split_and!; try done; try lia.
    + intros (Hk & Hend & Hcount). unfold mission_ok. rewrite Hic.
      destruct Hcase as [([Hst|Hst] & Hea & _)|(Hea & [[Hst _]|[[Hst _]|[Hst _]]])];
        rewrite Hst, ?Hea; split_and!; done.
    + intros Ht.
      destruct Hcase as [(_ & _ & ->)|(_ & [[_ ->]|[[_ ->]|[_ ->]]])];
        unfold terminal_ok; auto.
  - assert (Hf : Mission.images_count (advance_pending (count_image m))
                 = Mission.images_count m + 1
                 ∧ (Mission.status (advance_pending (count_image m))
                    = Mission.status m
                    ∨ Mission.status (advance_pending (count_image m)) = "running")
                 ∧ Mission.ended_at (advance_pending (count_image m))
                   = Mission.ended_at m).
    { unfold advance_pending, count_image.
      destruct (String.eqb _ "pending"); cbn; auto. }
    destruct Hf as (Hic & Hst & Hea).
    split_and!; try done; try lia;
      try (unfold advance_pending, count_image;
           by destruct (String.eqb _ "pending")).
    intros (Hk & Hend & Hcount). unfold mission_ok. rewrite Hic, Hea.
    destruct Hst as [-> | ->]; split_and!; try done; lia.
Qed.

Lemma fresh_mission_ok e :
  Mission.id (fresh_mission e) = _new_mission_id e ∧ mission_ok (fresh_mission e).
Proof. split; [done|]. unfold mission_ok. cbn. split_and!; done. Qed.

Lemma registry_ok_handle o s : registry_ok s → registry_ok (handle o s).1.
Proof.
  intros (Hreg & Hcur & Hterm).
  destruct (handle_registry_step o s)
    as [(HM & Hc & Ht)|[(k & m & m' & Hcm & Htr & HM & Hc & Hstep)
                       |(e & m' & _ & HM & Hc & Hstep)]];
    unfold registry_ok; rewrite HM, Hc.
  - by rewrite Ht.
  - destruct (current_mission_Some _ _ _ Hcm) as [Hid Hk].
    destruct (Hreg _ _ Hk) as [Hidm Hokm].
    destruct (mission_step_fields _ _ _ _ Hstep) as (Hid' & _ & _ & _ & _ & Hok & Ht).
    split_and!.
    + intros k0 m0. destruct (decide (k = k0)) as [<-|Hne].
      * rewrite dict_get_set_eq. intros [= <-]. split; [congruence|auto].
      * rewrite dict_get_set_ne by done. apply Hreg.
    + rewrite Hid in *. destruct Hcur as [Hne _]. split; [done|].
      rewrite dict_get_set_eq. by eexists.
    + by apply Ht.
  - destruct (fresh_mission_ok e) as [Hidf Hokf].
    destruct (mission_step_fields _ _ _ _ Hstep) as (Hid' & _ & _ & _ & _ & Hok & Ht).
    split_and!.
    + intros k0 m0. destruct (decide (_new_mission_id e = k0)) as [<-|Hne].
      * rewrite dict_get_set_eq. intros [= <-]. split; [congruence|auto].
      * rewrite dict_get_set_ne by done. apply Hreg.
    + apply new_mission_id_truthy.
    + rewrite dict_get_set_eq. by eexists.
    + apply Ht. by left.
Qed.

Lemma registry_ok_initial : registry_ok initial_state.
Proof. unfold registry_ok. cbn. split_and!; try done. by left. Qed.

Lemma registry_ok_exec ops s : registry_ok s → registry_ok (exec ops s).
Proof.
  revert s. induction ops as [|o ops IH]; intros s Hs; [done|].
  rewrite exec_cons. by apply IH, registry_ok_handle.
Qed.

Lemma prefix_append (p s : string) : String.prefix p (p +:+ s) = true.
Proof.
  induction p as [|c p IH]; [by destruct s|].
  change (String c p +:+ s) with (String c (p +:+ s)).
  cbn [String.prefix]. by destruct (ascii_dec c c).
Qed.

Lemma keys_prefixed_exec ops :
  ∀ k m, dict_get (MISSIONS (exec ops initial_state)) k = Some m →
         String.prefix "mission_" k = true.
Proof.
  assert (H : ∀ s, (∀ k m, dict_get (MISSIONS s) k = Some m →
                           String.prefix "mission_" k = true) →
              ∀ k m, dict_get (MISSIONS (exec ops s)) k = Some m →
                     String.prefix "mission_" k = true).
  { induction ops as [|o ops IH]; intros s Hs; [done|].
    rewrite exec_cons. apply IH.
    destruct (handle_registry_step o s)
      as [(HM & _)|[(k & m & m' & Hcm & _ & HM & _)|(e & m' & _ & HM & _)]];
      rewrite HM; [done| |].
    - destruct (current_mission_Some _ _ _ Hcm) as [_ Hk].
      intros k0 m0. destruct (decide (k = k0)) as [<-|Hne].
      + intros _. by apply (Hs k m).
      + rewrite dict_get_set_ne by done. apply Hs.
    - intros k0 m0. destruct (decide (_new_mission_id e = k0)) as [<-|Hne].
      + intros _. apply (prefix_append "mission_").
      + rewrite dict_get_set_ne by done. apply Hs. }
  apply H. intros k m. cbn. done.
Qed.

(** X1: in every state the module can reach, each mission of the registry is
    filed under its own id, its status is one of [pending], [running],
    [complete], [home_unreachable], [aborted], it has an [ended_at] whenever
    its status is one of the last three, and its image count is not negative;
    [LAST_TERMINAL_STATUS] is [None] or one of the three terminal reports. *)
Theorem X1_reachable_registry (ops : list op) :
  (∀ k m, dict_get (MISSIONS (exec ops initial_state)) k = Some m →
     Mission.id m = k
     ∧ known_status (Mission.status m) = true
     ∧ (terminal (Mission.status m) = true → Mission.ended_at m ≠ None)
     ∧ 0 ≤ Mission.images_count m)
  ∧ terminal_ok (LAST_TERMINAL_STATUS (exec ops initial_state)).
Proof.
  destruct (registry_ok_exec ops _ registry_ok_initial) as (Hreg & _ & Ht).
  split; [|done]. intros k m Hk. by destruct (Hreg k m Hk) as [? (? & ? & ?)].
Qed.

(** X2: in every reachable state the current mission id is [None] or the
    non-empty key of a registered mission, so lines 89-90 and 130-131 never
    return early; a photo is therefore always filed under the id of a
    registered mission that has counted it, never under [nomission]. *)
Theorem X2_photo_has_mission (ops : list op) (e : mission_env) :
  let s := exec ops initial_state in
  (id_truthy (CURRENT_MISSION_ID s) = true → is_Some (current_mission s))
  ∧ ∃ k m,
      (register_image e s).2 = Ok (RImage k)
      ∧ k ≠ "nomission"
      ∧ CURRENT_MISSION_ID (register_image e s).1 = Some k
      ∧ dict_get (MISSIONS (register_image e s).1) k = Some m
      ∧ 1 ≤ Mission.images_count m
      ∧ Mission.status m ≠ "pending".
Proof.
  intros s.
  pose proof (registry_ok_exec ops _ registry_ok_initial) as (Hreg & Hcur & _).
  fold s in Hreg, Hcur.
  assert (Hsome : id_truthy (CURRENT_MISSION_ID s) = true →
                  is_Some (current_mission s)).
  { unfold current_mission. destruct (CURRENT_MISSION_ID s) as [k|]; [|done].
    intros _. destruct Hcur as [_ [m ->]]. by eexists. }
  split; [done|].
  assert (Hadv : ∀ m, 0 ≤ Mission.images_count m →
            1 ≤ Mission.images_count (advance_pending (count_image m))
            ∧ Mission.status (advance_pending (count_image m)) ≠ "pending").
  { intros m Hm. unfold advance_pending, count_image.
    destruct (String.eqb _ "pending") eqn:E; cbn in *; (split; [lia|]); [done|].
    intros Heq. rewrite Heq in E. done. }
  destruct (register_image_post e s)
    as (s1 & k & Heq & _ & _ & _ & _ & Hcase). rewrite Heq. cbn [fst snd].
  destruct Hcase as [(-> & Htr & Hnone & _)|[(m & Htr & Hcm & HM & Hc & _)
                                            |(Htr & -> & HM & Hc & _)]].
  - destruct (Hsome Htr) as [? Hm]. congruence.
  - destruct (current_mission_Some _ _ _ Hcm) as [Hid Hk].
    destruct (Hreg _ _ Hk) as [_ (_ & _ & Hcount)].
    destruct (Hadv m Hcount) as [H1 H2].
    exists k, (advance_pending (count_image m)). rewrite HM, Hc, dict_get_set_eq.
    split_and!; try done.
    intros ->. by pose proof (keys_prefixed_exec ops _ _ Hk).
  - destruct (Hadv (fresh_mission e)) as [H1 H2]; [done|].
    exists (_new_mission_id e), (advance_pending (count_image (fresh_mission e))).
    rewrite HM, Hc, dict_get_set_eq. split_and!; done.
Qed.

Lemma dict_set_keys_prefix {V : Type} (d : list (string * V)) k v :
  dict_keys d `prefix_of` dict_keys (dict_set d k v).
Proof.
  destruct (dict_get d k) as [v0|] eqn:E.
  - by rewrite (dict_set_present _ _ _ _ E).
  - rewrite (dict_set_absent _ _ _ E). unfold dict_keys. rewrite map_app.
    by apply prefix_app_r.
Qed.

(** X3: no request ever removes or reorders a mission of the registry: the
    list of registered ids before any sequence of requests is an initial
    segment of the list after it. *)
Theorem X3_registry_only_grows (s : state) (ops : list op) :
  dict_keys (MISSIONS s) `prefix_of` dict_keys (MISSIONS (exec ops s)).
Proof.
  revert s. induction ops as [|o ops IH]; intros s; [done|].
  rewrite exec_cons. etrans; [|apply IH].
  destruct (handle_registry_step o s)
    as [(HM & _)|[(k & m & m' & _ & _ & HM & _)|(e & m' & _ & HM & _)]];
    rewrite HM; [done|apply dict_set_keys_prefix..].
Qed.

(** ** What is kept of a mission *)

Lemma handle_history o s mid m :
  drawn_id o ≠ Some mid →
  dict_get (MISSIONS s) mid = Some m →
  ∃ m', dict_get (MISSIONS (handle o s).1) mid = Some m'
    ∧ Mission.id m' = Mission.id m
    ∧ Mission.started_at m' = Mission.started_at m
    ∧ Mission.waypoints_reached m ⊆ Mission.waypoints_reached m'
    ∧ Mission.waypoints_unreachable m ⊆ Mission.waypoints_unreachable m'.
Proof.
  intros Hne Hm.
  destruct (handle_registry_step o s)
    as [(HM & _)|[(k & mk & m' & Hcm & _ & HM & _ & Hstep)
                 |(e & m' & Hd & HM & _)]]; rewrite HM.
  - by exists m.
  - destruct (current_mission_Some _ _ _ Hcm) as [_ Hk].
    destruct (decide (k = mid)) as [->|Hk'].
    + assert (mk = m) as -> by congruence.
      destruct (mission_step_fields _ _ _ _ Hstep) as (? & ? & _ & ? & ? & _).
      exists m'. by rewrite dict_get_set_eq.
    + exists m. by rewrite dict_get_set_ne.
  - exists m. rewrite dict_get_set_ne; [done|].
    intros Heq. apply Hne. by rewrite Hd, Heq.
Qed.

Lemma sorted_ints_elem (X : gset Z) i : i ∈ sorted_ints (elements X) ↔ i ∈ X.
Proof.
  unfold sorted_ints. rewrite (py_sorted_perm (λ z, z) Z.leb (elements X)).
  apply elem_of_elements.
Qed.

(** X4: as long as no request draws its id again, a registered mission keeps
    its id and its [started_at], and every waypoint recorded as reached or as
    unreachable stays in the lists of its summary. *)
Theorem X4_history_kept (s : state) (ops : list op) (mid : string)
    (m : Mission.t) :
  Forall (λ o, drawn_id o ≠ Some mid) ops →
  dict_get (MISSIONS s) mid = Some m →
  ∃ m', dict_get (MISSIONS (exec ops s)) mid = Some m'
    ∧ Summary.id (_mission_summary m') = Summary.id (_mission_summary m)
    ∧ Summary.started_at (_mission_summary m')
      = Summary.started_at (_mission_summary m)
    ∧ (∀ i, i ∈ Summary.waypoints_reached (_mission_summary m) →
            i ∈ Summary.waypoints_reached (_mission_summary m'))
    ∧ (∀ i, i ∈ Summary.waypoints_unreachable (_mission_summary m) →
            i ∈ Summary.waypoints_unreachable (_mission_summary m')).
Proof.
  revert s m. induction ops as [|o ops IH]; intros s m Hops Hm.
  - by exists m.
  - apply Forall_cons in Hops as [Ho Hops]. rewrite exec_cons.
    destruct (handle_history o s mid m Ho Hm) as (m1 & Hm1 & Hid & Hsa & Hr & Hu).
    destruct (IH _ m1 Hops Hm1) as (m' & Hm' & Hid' & Hsa' & Hr' & Hu').
    exists m'. cbn [_mission_summary Summary.id Summary.started_at
                    Summary.waypoints_reached Summary.waypoints_unreachable] in *.
    split_and!; try congruence.
    + intros i Hi. apply Hr'. apply sorted_ints_elem.
      apply sorted_ints_elem in Hi. set_solver.
    + intros i Hi. apply Hu'. apply sorted_ints_elem.
      apply sorted_ints_elem in Hi. set_solver.
Qed.

(** A mission with two waypoints that then sees a photo and another start. *)
Lemma X4_history_kept_witness :
  ∃ m', dict_get
          (MISSIONS (exec [RegisterImage (mkEnv "a" "b" "t6");
                           StartMission (mkEnv "20251210_130000" "FFFFFF" "t7")]
                       (exec [StatusUpdate (report "mission_started") first_env "t1";
                              StatusUpdate (report_at "waypoint_reached" 3)
                                first_env "t2"] initial_state)))
          "mission_20251210_123456_AB12CD" = Some m'
      ∧ 3 ∈ Summary.waypoints_reached (_mission_summary m').
Proof.
  destruct (X4_history_kept
    (exec [StatusUpdate (report "mission_started") first_env "t1";
           StatusUpdate (report_at "waypoint_reached" 3) first_env "t2"]
       initial_state)
    [RegisterImage (mkEnv "a" "b" "t6");
     StartMission (mkEnv "20251210_130000" "FFFFFF" "t7")]
    "mission_20251210_123456_AB12CD"
    (Mission.mk "mission_20251210_123456_AB12CD" "2025-12-10T12:34:56" None
       "running" ({[3]} ∪ ∅) ∅ 0 (Some 2%nat)))
    as (m' & Hm' & _ & _ & Hr & _).
  - repeat constructor; cbn; intros [=].
  - reflexivity.
  - exists m'. split; [exact Hm'|]. apply Hr. cbn. set_solver.
Defined.

(** ** The latched command and start flag *)

Lemma handle_command o s :
  CONTROL_COMMAND (handle o s).1 = default (CONTROL_COMMAND s) (stored_command o).
Proof.
  destruct o as [e| | | | |body e now| | |e]; cbn [handle stored_command default];
    try done.
  - rewrite mission_state_eq. cbn [fst]. by destruct (String.eqb _ _).
  - destruct (get_payload body) as [| | | | |l|d] eqn:Hp.
    1-6: by rewrite status_update_not_dict by (intros d'; congruence).
    destruct (status_update_post body d e now s Hp)
      as (s1 & r & Heq & _ & Hcc & _). by rewrite Heq.
  - destruct (deref s (LAST_STATUS s)) as [|p d] eqn:Hd.
    + by rewrite (last_status_empty s Hd).
    + by rewrite last_status_nonempty by (by rewrite Hd).
  - destruct (register_image_post e s) as (s1 & k & Heq & _ & Hcc & _).
    by rewrite Heq.
Qed.

(** X5: a command stored by [abort_mission] or [return_home] stays pending
    through any number of requests to the other routes (reports, photos,
    starts, start polls, queries) and is what the next [control_state]
    returns, once; [return_home] stores [go_home] although it raises. *)
Theorem X5_command_latched (s : state) (set : op) (cmd : string)
    (ops : list op) :
  stored_command set = Some cmd →
  Forall (λ o, stored_command o = None) ops →
  replies [ControlState; ControlState] (exec (set :: ops) s)
  = [Ok (RCommand cmd); Ok (RCommand "none")].
Proof.
  intros Hset Hops.
  assert (Hcc : CONTROL_COMMAND (exec (set :: ops) s) = cmd).
  { rewrite exec_cons.
    assert (H1 : CONTROL_COMMAND (handle set s).1 = cmd)
      by (by rewrite handle_command, Hset).
    revert H1. generalize (handle set s).1. clear Hset.
    induction ops as [|o ops IH]; intros s1 H1; [done|].
    apply Forall_cons in Hops as [Ho Hops]. rewrite exec_cons.
    apply IH; [done|]. by rewrite handle_command, Ho. }
  unfold replies. rewrite !run_cons. cbn [run handle fst snd].
  rewrite !control_state_eq. cbn [fst snd]. by rewrite Hcc.
Qed.

(** [return_home], then a report, a photo and a status query, then two polls. *)
Lemma X5_command_latched_witness :
  replies [ControlState; ControlState]
    (exec [ReturnHome; StatusUpdate (report "mission_started") first_env "t1";
           RegisterImage first_env; LastStatus] initial_state)
  = [Ok (RCommand "go_home"); Ok (RCommand "none")].
Proof.
  apply (X5_command_latched initial_state ReturnHome "go_home"
           [StatusUpdate (report "mission_started") first_env "t1";
            RegisterImage first_env; LastStatus] eq_refl).
  repeat constructor.
Defined.

(** ** Reports by status *)

Lemma report_effect_unhandled d a now m t st :
  default (JStr "") (dict_get d "status") = JStr st →
  handled_status st = false →
  report_effect d a now m t = (Mission.set_last_status (Some a) m, t, Ok ()).
Proof.
  intros Hst Hun. unfold handled_status in Hun.
  repeat (apply orb_false_elim in Hun as [Hun ?]).
  unfold report_effect. rewrite Hst. cbn [py_eq_str py_startswith].
  by repeat match goal with Hx : _ = false |- _ => rewrite Hx; clear Hx end.
Qed.

Lemma not_started_default (o : option jvalue) st :
  default (JStr "") o = JStr st → String.eqb st "mission_started" = false →
  py_eq_str (default JNull o) "mission_started" = false.
Proof. destruct o as [v|]; cbn; [by intros ->|done]. Qed.

(** X6: a report whose status is [mission_idle] is accepted in every state
    and leaves [MISSION_STATE] at [idle]: a start that was pending is
    cancelled, and the poll that follows returns [idle]. *)
Theorem X6_idle_report_cancels_start (s : state) (body : request_body)
    (d : dict) (e : mission_env) (now : string) :
  get_payload body = JObj d →
  dict_get d "status" = Some (JStr "mission_idle") →
  (status_update body e now s).2 = Ok ROk
  ∧ MISSION_STATE (status_update body e now s).1 = "idle"
  ∧ replies [StatusUpdate body e now; MissionState] s
    = [Ok ROk; Ok (RMissionState "idle")].
Proof.
  intros Hp Hst.
  assert (Hdef : default (JStr "") (dict_get d "status") = JStr "mission_idle")
    by (by rewrite Hst).
  destruct (status_update_post body d e now s Hp)
    as (s1 & r & Heq & Hms & _ & _ & _ & Hcase).
  assert (Hr : r = Ok ()).
  { destruct Hcase as [(_ & _ & _ & ->)|[(k & m & _ & _ & _ & _ & _ & ->)
                                        |(_ & Hstart & _)]]; [done| |].
    - by rewrite (report_effect_unhandled _ _ _ _ _ _ Hdef).
    - by rewrite Hst in Hstart. }
  assert (Hidle : MISSION_STATE s1 = "idle")
    by (by rewrite Hms, received_mission_state, Hdef).
  unfold replies. rewrite !run_cons. cbn [run handle fst snd].
  rewrite mission_state_eq, Heq. cbn [fst snd]. by rewrite Hr, Hidle.
Qed.

(** A start, then an idle report. *)
Lemma X6_idle_report_cancels_start_witness :
  replies [StatusUpdate (report "mission_idle") first_env "t1"; MissionState]
    (exec [StartMission first_env] initial_state)
  = [Ok ROk; Ok (RMissionState "idle")].
Proof.
  exact (proj2 (proj2 (X6_idle_report_cancels_start
    (exec [StartMission first_env] initial_state) (report "mission_idle")
    [("status", JStr "mission_idle")] first_env "t1" eq_refl eq_refl))).
Defined.

(** X9: a report whose status is a string that lines 96-121 do not act on
    (an unknown status, the sentinel of a malformed body, a missing status)
    is accepted; of the registry it changes only the [last_status] reference
    of the current mission. *)
Theorem X9_unknown_status (s : state) (body : request_body) (d : dict)
    (e : mission_env) (now : string) (st : string) (k : string)
    (m : Mission.t) :
  get_payload body = JObj d →
  default (JStr "") (dict_get d "status") = JStr st →
  handled_status st = false →
  id_truthy (CURRENT_MISSION_ID s) = true →
  current_mission s = Some (k, m) →
  (status_update body e now s).2 = Ok ROk
  ∧ MISSIONS (status_update body e now s).1
    = dict_set (MISSIONS s) k (Mission.set_last_status (Some (length (heap s))) m)
  ∧ CURRENT_MISSION_ID (status_update body e now s).1 = CURRENT_MISSION_ID s
  ∧ LAST_TERMINAL_STATUS (status_update body e now s).1
    = LAST_TERMINAL_STATUS s
  ∧ LAST_STATUS (status_update body e now s).1 = length (heap s).
Proof.
  intros Hp Hst Hun Htr Hcm.
  rewrite (status_update_current _ _ _ _ _ k m Hp Htr Hcm).
  rewrite (report_effect_unhandled _ _ _ _ _ _ Hst Hun).
  destruct (received_view s d) as (Hc & HM & Ht & _ & Hls & _).
  unfold with_mission.
  cbn [fst snd reply_ok MISSIONS CURRENT_MISSION_ID LAST_TERMINAL_STATUS
       LAST_STATUS set_LAST_TERMINAL_STATUS set_MISSIONS].
  by rewrite HM, Hc, Hls.
Qed.

(** A report [{"status": "battery_low"}] sent to a running mission. *)
Lemma X9_unknown_status_witness :
  (status_update (report "battery_low") first_env "t2"
     (exec [StatusUpdate (report "mission_started") first_env "t1"]
        initial_state)).2 = Ok ROk.
Proof.
  exact (proj1 (X9_unknown_status
    (exec [StatusUpdate (report "mission_started") first_env "t1"] initial_state)
    (report "battery_low") [("status", JStr "battery_low")] first_env "t2"
    "battery_low" "mission_20251210_123456_AB12CD"
    (Mission.mk "mission_20251210_123456_AB12CD" "2025-12-10T12:34:56" None
       "running" ∅ ∅ 0 (Some 1%nat))
    eq_refl eq_refl eq_refl eq_refl eq_refl)).
Defined.

Lemma prefix_eqb_false (p st c : string) :
  String.prefix p st = true → String.prefix p c = false →
  String.eqb st c = false.
Proof.
  intros Hp Hc. destruct (String.eqb st c) eqn:E; [|done].
  apply String.eqb_eq in E. congruence.
Qed.

(** The state after a report was folded into the current mission [m] of id
    [k], when the mission becomes [m'] and the terminal status [t']. *)
Lemma status_update_folded body d e now s k m m' t' r :
  get_payload body = JObj d →
  id_truthy (CURRENT_MISSION_ID s) = true →
  current_mission s = Some (k, m) →
  report_effect d (length (heap s)) now m (LAST_TERMINAL_STATUS s) = (m', t', r) →
  (status_update body e now s).2 = reply_ok r
  ∧ MISSIONS (status_update body e now s).1 = dict_set (MISSIONS s) k m'
  ∧ CURRENT_MISSION_ID (status_update body e now s).1 = CURRENT_MISSION_ID s
  ∧ LAST_TERMINAL_STATUS (status_update body e now s).1 = t'
  ∧ LAST_STATUS (status_update body e now s).1 = length (heap s).
Proof.
  intros Hp Htr Hcm Heff.
  rewrite (status_update_current _ _ _ _ _ k m Hp Htr Hcm), Heff.
  destruct (received_view s d) as (Hc & HM & Ht & _ & Hls & _).
  unfold with_mission.
  cbn [fst snd MISSIONS CURRENT_MISSION_ID LAST_TERMINAL_STATUS
       LAST_STATUS set_LAST_TERMINAL_STATUS set_MISSIONS].
  by rewrite HM, Hc, Hls.
Qed.

(** X7: every status that starts with [home_unreachable], whatever follows
    the prefix, ends the current mission as [home_unreachable]: the report is
    accepted, the status and [LAST_TERMINAL_STATUS] become
    [home_unreachable], [ended_at] is the time of the report, and the
    waypoints and the image count are kept. *)
Theorem X7_home_unreachable_prefix (s : state) (body : request_body)
    (d : dict) (e : mission_env) (now : string) (st : string) (k : string)
    (m : Mission.t) :
  get_payload body = JObj d →
  dict_get d "status" = Some (JStr st) →
  String.prefix "home_unreachable" st = true →
  id_truthy (CURRENT_MISSION_ID s) = true →
  current_mission s = Some (k, m) →
  (status_update body e now s).2 = Ok ROk
  ∧ LAST_TERMINAL_STATUS (status_update body e now s).1 = Some "home_unreachable"
  ∧ dict_get (MISSIONS (status_update body e now s).1) k
    = Some (Mission.mk (Mission.id m) (Mission.started_at m) (Some now)
              "home_unreachable" (Mission.waypoints_reached m)
              (Mission.waypoints_unreachable m) (Mission.images_count m)
              (Some (length (heap s)))).
Proof.
  intros Hp Hst Hpre Htr Hcm.
  assert (Heff : report_effect d (length (heap s)) now m (LAST_TERMINAL_STATUS s)
    = (Mission.mk (Mission.id m) (Mission.started_at m) (Some now)
         "home_unreachable" (Mission.waypoints_reached m)
         (Mission.waypoints_unreachable m) (Mission.images_count m)
         (Some (length (heap s))),
       Some "home_unreachable", Ok ())).
  { unfold report_effect. rewrite Hst.
    change (default (JStr "") (Some (JStr st))) with (JStr st).
    cbn [py_eq_str py_startswith].
    rewrite !(prefix_eqb_false "home_unreachable" st) by done.
    by rewrite Hpre. }
  destruct (status_update_folded _ _ e _ _ _ _ _ _ _ Hp Htr Hcm Heff)
    as (-> & -> & _ & -> & _).
  by rewrite dict_get_set_eq.
Qed.

(** The report [home_unreachable_retry] sent to a running mission. *)
Lemma X7_home_unreachable_prefix_witness :
  LAST_TERMINAL_STATUS
    (status_update (report "home_unreachable_retry") first_env "t2"
       (exec [StatusUpdate (report "mission_started") first_env "t1"]
          initial_state)).1 = Some "home_unreachable".
Proof.
  exact (proj1 (proj2 (X7_home_unreachable_prefix
    (exec [StatusUpdate (report "mission_started") first_env "t1"] initial_state)
    (report "home_unreachable_retry")
    [("status", JStr "home_unreachable_retry")] first_env "t2"
    "home_unreachable_retry" "mission_20251210_123456_AB12CD"
    (Mission.mk "mission_20251210_123456_AB12CD" "2025-12-10T12:34:56" None
       "running" ∅ ∅ 0 (Some 1%nat))
    eq_refl eq_refl eq_refl eq_refl eq_refl))).
Defined.

(** X8: a [waypoint_reached] or [waypoint_unreachable] report whose [index]
    is missing or [null] is accepted and records no waypoint: of the registry
    it changes only the [last_status] reference of the current mission. *)
Theorem X8_waypoint_without_index (s : state) (body : request_body)
    (d : dict) (e : mission_env) (now : string) (st : string) (k : string)
    (m : Mission.t) :
  get_payload body = JObj d →
  dict_get d "status" = Some (JStr st) →
  st = "waypoint_reached" ∨ st = "waypoint_unreachable" →
  dict_get d "index" = None ∨ dict_get d "index" = Some JNull →
  id_truthy (CURRENT_MISSION_ID s) = true →
  current_mission s = Some (k, m) →
  (status_update body e now s).2 = Ok ROk
  ∧ MISSIONS (status_update body e now s).1
    = dict_set (MISSIONS s) k (Mission.set_last_status (Some (length (heap s))) m)
  ∧ LAST_TERMINAL_STATUS (status_update body e now s).1
    = LAST_TERMINAL_STATUS s.
Proof.
  intros Hp Hst Hwp Hidx Htr Hcm.
  assert (Heff : report_effect d (length (heap s)) now m (LAST_TERMINAL_STATUS s)
    = (Mission.set_last_status (Some (length (heap s))) m,
       LAST_TERMINAL_STATUS s, Ok ())).
  { unfold report_effect, waypoint_effect. rewrite Hst.
    destruct Hwp as [-> | ->], Hidx as [-> | ->]; reflexivity. }
  by destruct (status_update_folded _ _ e _ _ _ _ _ _ _ Hp Htr Hcm Heff)
    as (-> & -> & _ & -> & _).
Qed.

(** A [waypoint_reached] report with no index, sent to a running mission. *)
Lemma X8_waypoint_without_index_witness :
  (status_update (report "waypoint_reached") first_env "t2"
     (exec [StatusUpdate (report "mission_started") first_env "t1"]
        initial_state)).2 = Ok ROk.
Proof.
  exact (proj1 (X8_waypoint_without_index
    (exec [StatusUpdate (report "mission_started") first_env "t1"] initial_state)
    (report "waypoint_reached") [("status", JStr "waypoint_reached")]
    first_env "t2" "waypoint_reached" "mission_20251210_123456_AB12CD"
    (Mission.mk "mission_20251210_123456_AB12CD" "2025-12-10T12:34:56" None
       "running" ∅ ∅ 0 (Some 1%nat))
    eq_refl eq_refl (or_introl eq_refl) (or_introl eq_refl) eq_refl eq_refl)).
Defined.

(** X10: a report whose [status] is present but not a string (a number,
    [null], a list, ...) makes [status_update] raise [AttributeError] on line
    113 when a mission is current, after the payload became [LAST_STATUS]
    and the [last_status] of that mission; the status of the mission and
    [LAST_TERMINAL_STATUS] are left.  With no current mission the same
    report is accepted. *)
Theorem X10_status_not_a_string (s : state) (body : request_body) (d : dict)
    (e : mission_env) (now : string) (v : jvalue) :
  get_payload body = JObj d →
  dict_get d "status" = Some v →
  (∀ st, v ≠ JStr st) →
  (∀ k m,
     id_truthy (CURRENT_MISSION_ID s) = true →
     current_mission s = Some (k, m) →
     (status_update body e now s).2 = Raise AttributeError
     ∧ MISSIONS (status_update body e now s).1
       = dict_set (MISSIONS s) k
           (Mission.set_last_status (Some (length (heap s))) m)
     ∧ LAST_TERMINAL_STATUS (status_update body e now s).1
       = LAST_TERMINAL_STATUS s
     ∧ LAST_STATUS (status_update body e now s).1 = length (heap s))
  ∧ (id_truthy (CURRENT_MISSION_ID s) = false →
     (status_update body e now s).2 = Ok ROk
     ∧ MISSIONS (status_update body e now s).1 = MISSIONS s).
Proof.
  intros Hp Hst Hv. split.
  - intros k m Htr Hcm.
    assert (Heff : report_effect d (length (heap s)) now m (LAST_TERMINAL_STATUS s)
      = (Mission.set_last_status (Some (length (heap s))) m,
         LAST_TERMINAL_STATUS s, Raise AttributeError)).
    { unfold report_effect. rewrite Hst.
      destruct v; try reflexivity. by destruct (Hv s0). }
    by destruct (status_update_folded _ _ e _ _ _ _ _ _ _ Hp Htr Hcm Heff)
      as (-> & -> & _ & -> & ->).
  - intros Htr. rewrite (status_update_dropped _ _ _ _ _ Hp Htr).
    + cbn [fst snd]. by destruct (received_view s d) as (_ & -> & _).
    + rewrite Hst. destruct v; try reflexivity. by destruct (Hv s0).
Qed.

(** The report [{"status": 7}], sent to a running mission. *)
Lemma X10_status_not_a_string_witness :
  (status_update (Parsed (JObj [("status", JInt 7)])) first_env "t2"
     (exec [StatusUpdate (report "mission_started") first_env "t1"]
        initial_state)).2 = Raise AttributeError.
Proof.
  refine (proj1 (proj1 (X10_status_not_a_string
    (exec [StatusUpdate (report "mission_started") first_env "t1"] initial_state)
    (Parsed (JObj [("status", JInt 7)])) [("status", JInt 7)] first_env "t2"
    (JInt 7) eq_refl eq_refl _)
    "mission_20251210_123456_AB12CD"
    (Mission.mk "mission_20251210_123456_AB12CD" "2025-12-10T12:34:56" None
       "running" ∅ ∅ 0 (Some 1%nat)) eq_refl eq_refl)).
  intros st. discriminate.
Defined.

(** X16: a [waypoint_reached] (or [waypoint_unreachable]) report whose index
    [int] converts to [i] (an integer, a float, a boolean or a numeric string)
    is accepted and adds [i] to the reached (or unreachable) waypoints of the
    current mission, which then shows in its summary; the other set, the
    status and the image count are left. *)
Theorem X16_waypoint_recorded (s : state) (body : request_body) (d : dict)
    (e : mission_env) (now : string) (reached : bool) (idx : jvalue) (i : Z)
    (k : string) (m : Mission.t) :
  get_payload body = JObj d →
  dict_get d "status"
  = Some (JStr (if reached then "waypoint_reached" else "waypoint_unreachable")) →
  dict_get d "index" = Some idx → py_int idx = Ok i →
  id_truthy (CURRENT_MISSION_ID s) = true →
  current_mission s = Some (k, m) →
  (status_update body e now s).2 = Ok ROk
  ∧ ∃ m', dict_get (MISSIONS (status_update body e now s).1) k = Some m'
      ∧ Mission.status m' = Mission.status m
      ∧ Mission.images_count m' = Mission.images_count m
      ∧ (if reached
         then Mission.waypoints_reached m' = {[i]} ∪ Mission.waypoints_reached m
              ∧ Mission.waypoints_unreachable m' = Mission.waypoints_unreachable m
              ∧ i ∈ Summary.waypoints_reached (_mission_summary m')
         else Mission.waypoints_unreachable m'
              = {[i]} ∪ Mission.waypoints_unreachable m
              ∧ Mission.waypoints_reached m' = Mission.waypoints_reached m
              ∧ i ∈ Summary.waypoints_unreachable (_mission_summary m')).
Proof.
  intros Hp Hst Hidx Hint Htr Hcm.
  set (add := if reached then add_reached else add_unreachable).
  assert (Heff : report_effect d (length (heap s)) now m (LAST_TERMINAL_STATUS s)
    = (add i (Mission.set_last_status (Some (length (heap s))) m),
       LAST_TERMINAL_STATUS s, Ok ())).
  { unfold report_effect, waypoint_effect. rewrite Hst, Hidx.
    assert (Hnull : idx ≠ JNull) by (by intros ->).
    subst add. destruct reached; cbn [default from_option id py_eq_str];
      destruct idx; try done; by rewrite Hint. }
  destruct (status_update_folded _ _ e _ _ _ _ _ _ _ Hp Htr Hcm Heff)
    as (-> & -> & _).
  split; [done|]. eexists. rewrite dict_get_set_eq. split; [done|].
  subst add. destruct reached; cbn; split_and!; try done;
    apply sorted_ints_elem; cbn; set_solver.
Qed.

(** The report [waypoint_reached] with index ["12"], sent to a running
    mission. *)
Lemma X16_waypoint_recorded_witness :
  ∃ m', dict_get
          (MISSIONS (status_update
                       (Parsed (JObj [("status", JStr "waypoint_reached");
                                      ("index", JStr "12")]))
                       first_env "t2"
                       (exec [StatusUpdate (report "mission_started") first_env
                                "t1"] initial_state)).1)
          "mission_20251210_123456_AB12CD" = Some m'
      ∧ 12 ∈ Summary.waypoints_reached (_mission_summary m').
Proof.
  destruct (X16_waypoint_recorded
    (exec [StatusUpdate (report "mission_started") first_env "t1"] initial_state)
    (Parsed (JObj [("status", JStr "waypoint_reached"); ("index", JStr "12")]))
    [("status", JStr "waypoint_reached"); ("index", JStr "12")]
    first_env "t2" true (JStr "12") 12 "mission_20251210_123456_AB12CD"
    (Mission.mk "mission_20251210_123456_AB12CD" "2025-12-10T12:34:56" None
       "running" ∅ ∅ 0 (Some 1%nat))
    eq_refl eq_refl eq_refl eq_refl eq_refl eq_refl)
    as (_ & m' & Hm' & _ & _ & _ & _ & Hin).
  exists m'. split; [exact Hm'|exact Hin].
Defined.

(** ** The body of a status request *)

(** X11: a body that parses to a JSON value that is true in Python but is no
    object (a non-empty list or string, a non-zero number, [true]) makes
    [status_update] raise [AttributeError] on line 515 and leaves the whole
    state as it was; a body that parses to a false value ([null], [false],
    [0], [""], an empty list) is handled exactly as the empty object. *)
Theorem X11_body_not_an_object (s : state) (v : jvalue) (e : mission_env)
    (now : string) :
  (∀ d, v ≠ JObj d) →
  status_update (Parsed v) e now s
  = if truthy v then (s, Raise AttributeError)
    else status_update (Parsed (JObj [])) e now s.
Proof.
  intros Hv. destruct (truthy v) eqn:Ht.
  - apply status_update_not_dict. intros d. cbn [get_payload]. rewrite Ht.
    apply Hv.
  - unfold status_update. cbn [get_payload truthy]. by rewrite Ht.
Qed.

(** The body [[1]]. *)
Lemma X11_body_not_an_object_witness :
  status_update (Parsed (JArr [JInt 1])) first_env "t1" initial_state
  = (initial_state, Raise AttributeError).
Proof.
  apply (X11_body_not_an_object initial_state (JArr [JInt 1]) first_env "t1").
  intros d. discriminate.
Defined.

(** X12: a body that cannot be parsed never fails the request, in any state:
    the reply is ok, [LAST_STATUS] becomes a payload whose status is
    [bad_status_payload], no mission is created or removed, and no mission
    changes its status, its waypoints or its image count. *)
Theorem X12_unparseable_body (s : state) (e : mission_env) (now : string) :
  (status_update Unparseable e now s).2 = Ok ROk
  ∧ dict_get (deref (status_update Unparseable e now s).1
                (LAST_STATUS (status_update Unparseable e now s).1)) "status"
    = Some (JStr "bad_status_payload")
  ∧ dict_keys (MISSIONS (status_update Unparseable e now s).1)
    = dict_keys (MISSIONS s)
  ∧ LAST_TERMINAL_STATUS (status_update Unparseable e now s).1
    = LAST_TERMINAL_STATUS s
  ∧ ∀ k m, dict_get (MISSIONS s) k = Some m →
      ∃ m', dict_get (MISSIONS (status_update Unparseable e now s).1) k = Some m'
        ∧ Mission.status m' = Mission.status m
        ∧ Mission.ended_at m' = Mission.ended_at m
        ∧ Mission.waypoints_reached m' = Mission.waypoints_reached m
        ∧ Mission.waypoints_unreachable m' = Mission.waypoints_unreachable m
        ∧ Mission.images_count m' = Mission.images_count m.
Proof.
  set (d := [("status", JStr "bad_status_payload")]).
  assert (Hp : get_payload Unparseable = JObj d) by done.
  destruct (status_update_post Unparseable d e now s Hp)
    as (s1 & r & Heq & _ & _ & Hls & Hh & Hcase). rewrite Heq. cbn [fst snd].
  assert (Hsnap : dict_get (deref s1 (LAST_STATUS s1)) "status"
                  = Some (JStr "bad_status_payload")).
  { unfold deref. rewrite Hls, Hh, lookup_last_alloc.
    exact (defaulted_status s d). }
  destruct Hcase as [(HM & _ & Ht & ->)
                    |[(k & m & _ & Hcm & HM & _ & Ht & ->)|(_ & Hstart & _)]].
  - rewrite HM, Ht. split_and!; try done. intros k m Hk. by exists m.
  - destruct (current_mission_Some _ _ _ Hcm) as [_ Hk].
    rewrite (report_effect_unhandled d _ _ _ _ "bad_status_payload") in HM, Ht
      by done.
    cbn [fst snd] in HM, Ht. rewrite HM, Ht.
    split_and!; try done.
    + eapply dict_set_present, Hk.
    + intros k0 m0 Hk0. destruct (decide (k = k0)) as [<-|Hne].
      * rewrite dict_get_set_eq. assert (m0 = m) as -> by congruence.
        by eexists.
      * rewrite dict_get_set_ne by done. by exists m0.
  - done.
Qed.

(** ** What [last_status] returns *)

Lemma completed_idem s d : completed s (completed s d) = completed s d.
Proof.
  pose proof (completed_mission_state s d) as H1.
  pose proof (completed_mission_id s d) as H2.
  pose proof (dict_get_completed_terminal s d) as H3.
  generalize dependent (completed s d). intros c H1 H2 H3.
  unfold completed, dict_mem. rewrite H1, H2. by apply dict_set_same.
Qed.

Lemma defaulted_mission_state s d :
  dict_get (defaulted s d) "mission_state"
  = Some (default (JStr (MISSION_STATE (received s d))) (dict_get d "mission_state")).
Proof.
  unfold defaulted. rewrite dict_get_setdefault_ne by done.
  by rewrite dict_get_setdefault_eq, received_mission_state.
Qed.

Lemma defaulted_mission_id s d :
  dict_get (defaulted s d) "mission_id"
  = Some (default (JStr (current_id_or s "—")) (dict_get d "mission_id")).
Proof.
  unfold defaulted. rewrite dict_get_setdefault_eq.
  by rewrite dict_get_setdefault_ne.
Qed.

Lemma defaulted_other s d k :
  k ≠ "mission_state" → k ≠ "mission_id" →
  dict_get (defaulted s d) k = dict_get d k.
Proof. intros H1 H2. unfold defaulted. by rewrite !dict_get_setdefault_ne. Qed.

(** X13: what [last_status] returns right after a report is that report:
    every key the agent sent comes back with the value it sent, also
    [mission_state] and [mission_id] if it sent them; otherwise
    [mission_state] is the start flag after the report and [mission_id] is
    the current id from before the report ([—] for the report that creates
    the mission); [terminal_status] is always [LAST_TERMINAL_STATUS], also
    when the agent sent that key. *)
Theorem X13_report_then_query (s : state) (body : request_body) (d : dict)
    (e : mission_env) (now : string) :
  get_payload body = JObj d →
  let s1 := (status_update body e now s).1 in
  ∃ reply,
    (last_status s1).2 = Ok (RStatus reply)
    ∧ (∀ k, k ≠ "mission_state" → k ≠ "mission_id" → k ≠ "terminal_status" →
         dict_get reply k = dict_get d k)
    ∧ dict_get reply "mission_state"
      = Some (default (JStr (MISSION_STATE s1)) (dict_get d "mission_state"))
    ∧ dict_get reply "mission_id"
      = Some (default (JStr (current_id_or s "—")) (dict_get d "mission_id"))
    ∧ dict_get reply "terminal_status" = Some (jopt (LAST_TERMINAL_STATUS s1)).
Proof.
  intros Hp s1.
  destruct (status_update_post body d e now s Hp)
    as (s1' & r & Heq & Hms & _ & Hls & Hh & _).
  assert (s1 = s1') as -> by (subst s1; by rewrite Heq).
  assert (Hsnap : deref s1' (LAST_STATUS s1') = defaulted s d).
  { unfold deref. by rewrite Hls, Hh, lookup_last_alloc. }
  assert (Hne : deref s1' (LAST_STATUS s1') ≠ []).
  { rewrite Hsnap. intros Hnil.
    pose proof (defaulted_mission_state s d) as H. by rewrite Hnil in H. }
  rewrite (last_status_nonempty s1' Hne), Hsnap. cbn [snd].
  eexists. split; [reflexivity|]. split_and!.
  - intros k H1 H2 H3.
    by rewrite dict_get_completed_other, defaulted_other.
  - rewrite completed_mission_state, defaulted_mission_state. cbn [default].
    by rewrite Hms.
  - by rewrite completed_mission_id, defaulted_mission_id.
  - apply dict_get_completed_terminal.
Qed.

(** A waypoint report with a battery level, then the query. *)
Lemma X13_report_then_query_witness :
  ∃ reply,
    (last_status
       (status_update
          (Parsed (JObj [("status", JStr "waypoint_reached"); ("index", JInt 2);
                         ("battery", JInt 71)]))
          first_env "t1" initial_state).1).2 = Ok (RStatus reply)
    ∧ dict_get reply "battery" = Some (JInt 71).
Proof.
  destruct (X13_report_then_query initial_state
    (Parsed (JObj [("status", JStr "waypoint_reached"); ("index", JInt 2);
                   ("battery", JInt 71)]))
    [("status", JStr "waypoint_reached"); ("index", JInt 2); ("battery", JInt 71)]
    first_env "t1" eq_refl) as (reply & Hr & Hk & _).
  exists reply. split; [exact Hr|].
  rewrite (Hk "battery"); [reflexivity|discriminate..].
Defined.

(** X14: asking [last_status] twice in a row gives the same reply twice, and
    the second call changes nothing: the write of the first call is done
    once. *)
Theorem X14_last_status_twice (s : state) :
  last_status (last_status s).1 = ((last_status s).1, (last_status s).2).
Proof.
  destruct (deref s (LAST_STATUS s)) as [|p d] eqn:Hd.
  - pose proof (last_status_empty s Hd) as H1.
    destruct (last_status s) as [s' r] eqn:E. cbn [fst snd] in *. by subst s'.
  - assert (Hne : deref s (LAST_STATUS s) ≠ []) by (by rewrite Hd).
    assert (Hlt : (LAST_STATUS s < length (heap s))%nat)
      by (eapply lookup_lt_Some, deref_nonempty_valid, Hne).
    rewrite (last_status_nonempty s Hne). cbn [fst snd].
    rewrite last_status_snapshot; [by rewrite completed_idem|done|].
    intros Hnil. pose proof (dict_get_completed_terminal s (deref s (LAST_STATUS s))).
    by rewrite Hnil in H.
Qed.

(** ** Mission ids, the listing after a start, the lists of a summary *)

Lemma append_inj_length (a a' b b' : string) :
  String.length a = String.length a' → a +:+ b = a' +:+ b' → a = a' ∧ b = b'.
Proof.
  revert a'. induction a as [|c a IH]; intros [|c' a'] Hlen Heq; try done.
  change (String c (a +:+ b) = String c' (a' +:+ b')) in Heq.
  injection Heq as -> Heq. injection Hlen as Hlen.
  destruct (IH a' Hlen Heq) as [-> ->]. done.
Qed.

(** X15: the id drawn for a mission determines the clock reading and the
    random suffix it was built from, for clock readings of one length (the
    format of line 49 always gives 15 characters): two draws give the same
    id only if they fall in the same second and draw the same suffix. *)
Theorem X15_mission_id_injective (e e' : mission_env) :
  String.length (ts e) = String.length (ts e') →
  _new_mission_id e = _new_mission_id e' →
  ts e = ts e' ∧ short e = short e'.
Proof.
  intros Hlen Heq. unfold _new_mission_id in Heq.
  apply (append_inj_length "mission_" "mission_") in Heq as [_ Heq]; [|done].
  apply append_inj_length in Heq as [Hts Heq]; [|done].
  split; [done|].
  by apply (append_inj_length "_" "_") in Heq as [_ Heq].
Qed.

(** Two draws in the same second with the same suffix. *)
Lemma X15_mission_id_injective_witness :
  ts first_env = ts (mkEnv "20251210_123456" "AB12CD" "2025-12-10T12:34:57")
  ∧ short first_env = short (mkEnv "20251210_123456" "AB12CD" "2025-12-10T12:34:57").
Proof.
  apply (X15_mission_id_injective first_env
    (mkEnv "20251210_123456" "AB12CD" "2025-12-10T12:34:57")); reflexivity.
Defined.





Lemma sorted_ints_ascending (X : gset Z) :
  StronglySorted Z.lt (sorted_ints (elements X)).
Proof.
  assert (Hs : StronglySorted (in_order (λ z : Z, z) Z.leb) (sorted_ints (elements X))).
  { apply py_sorted_sorted.
    - intros a b. rewrite !Z.leb_le. lia.
    - intros a b c. rewrite !Z.leb_le. lia. }
  assert (Hn : NoDup (sorted_ints (elements X))).
  { unfold sorted_ints. rewrite (py_sorted_perm (λ z, z) Z.leb (elements X)).
    apply NoDup_elements. }
  induction Hs as [|x l Hl IH Hx]; [constructor|].
  apply NoDup_cons in Hn as [Hnx Hn]. constructor; [by apply IH|].
  apply Forall_forall. intros y Hy.
  pose proof (proj1 (Forall_forall _ _) Hx y Hy) as Hxy.
  unfold in_order in Hxy. apply Z.leb_le in Hxy.
  assert (x ≠ y) by (intros ->; done). lia.
Qed.

(** X18: in the summary of a mission the two waypoint lists are strictly
    ascending, so without repetition, and hold exactly the indices of the
    mission's two sets. *)
Theorem X18_summary_lists (m : Mission.t) :
  let r := _mission_summary m in
  StronglySorted Z.lt (Summary.waypoints_reached r)
  ∧ StronglySorted Z.lt (Summary.waypoints_unreachable r)
  ∧ (∀ i, i ∈ Summary.waypoints_reached r ↔ i ∈ Mission.waypoints_reached m)
  ∧ (∀ i, i ∈ Summary.waypoints_unreachable r
          ↔ i ∈ Mission.waypoints_unreachable m).
Proof.
  cbn. split_and!.
  - apply sorted_ints_ascending.
  - apply sorted_ints_ascending.
  - intros i. apply sorted_ints_elem.
  - intros i. apply sorted_ints_elem.
Qed.

(** * The photo routes *)

Lemma foldl_app {A B : Type} (f : list B → A → list B) (g : A → list B) l acc :
  (∀ acc x, f acc x = acc ++ g x) → foldl f acc l = acc ++ (l ≫= g).
Proof.
  intros Hf. revert acc. induction l as [|x l IH]; intros acc; cbn [foldl].
  - by rewrite app_nil_r.
  - rewrite IH, Hf. by rewrite <- app_assoc.
Qed.

Lemma StronglySorted_app_r {A : Type} (R : A → A → Prop) l1 l2 :
  StronglySorted R (l1 ++ l2) → StronglySorted R l2.
Proof.
  induction l1 as [|x l1 IH]; [done|]. cbn [app]. intros H.
  apply StronglySorted_inv in H as [H _]. by apply IH.
Qed.

Lemma StronglySorted_drop {A : Type} (R : A → A → Prop) n l :
  StronglySorted R l → StronglySorted R (drop n l).
Proof.
  intros H. rewrite <- (take_drop n l) in H. by apply StronglySorted_app_r in H.
Qed.

Lemma StronglySorted_lfilter {A : Type} (R : A → A → Prop) (P : A → bool) l :
  StronglySorted R l → StronglySorted R (List.filter P l).
Proof.
  induction 1 as [|x l Hl IH Hx]; cbn [List.filter]; [constructor|].
  destruct (P x); [|done]. constructor; [done|].
  apply Forall_forall. intros y Hy.
  apply list_elem_of_In, filter_In in Hy as [Hy _].
  apply (proj1 (Forall_forall _ _) Hx). by apply list_elem_of_In.
Qed.

Lemma elem_of_lfilter {A : Type} (P : A → bool) (x : A) l :
  x ∈ List.filter P l ↔ x ∈ l ∧ P x = true.
Proof. by rewrite !list_elem_of_In, filter_In. Qed.

Lemma StronglySorted_last {A : Type} (R : A → A → Prop) l x y :
  StronglySorted R l → last l = Some x → y ∈ l → y = x ∨ R y x.
Proof.
  intros Hs Hl Hy. apply last_Some in Hl as [l' ->].
  apply elem_of_app in Hy as [Hy|Hy].
  - right. induction l' as [|z l' IH]; [by apply elem_of_nil in Hy|].
    cbn [app] in Hs. apply StronglySorted_inv in Hs as [Hs Hz].
    apply elem_of_cons in Hy as [->|Hy]; [|by apply IH].
    apply (proj1 (Forall_forall _ _) Hz). apply elem_of_app. right. by left.
  - left. by apply list_elem_of_singleton in Hy.
Qed.

Lemma leb_refl (a : string) : String.leb a a = true.
Proof. by destruct (String.leb_total a a). Qed.

Lemma leb_trans (a b c : string) :
  String.leb a b = true → String.leb b c = true → String.leb a c = true.
Proof. intros H1 H2. by apply (leb_trans_rev c b a). Qed.

Lemma sorted_strings_sorted l :
  StronglySorted (λ a b, String.leb a b = true) (sorted_strings l).
Proof.
  apply (py_sorted_sorted (λ x : string, x) String.leb).
  - apply String.leb_total.
  - apply leb_trans.
Qed.

Lemma sorted_strings_elem l x : x ∈ sorted_strings l ↔ x ∈ l.
Proof. unfold sorted_strings. by rewrite (py_sorted_perm (λ x, x) String.leb l). Qed.

(** The folder and the file of each entry before the cut to eight. *)
Lemma latest_photos_picks (fs : disk) (root : string) :
  ∀ mission_id,
  foldl (fun photos wp_name =>
           let wp_path := path_join fs root wp_name in
           if negb (isdir fs wp_path) then photos
           else
             let files :=
               List.filter photo_name (sorted_strings (listdir fs wp_path)) in
             match last files with
             | None => photos
             | Some last_file =>
                 let url :=
                   "/photo/" +:+ mission_id +:+ "/" +:+ wp_name +:+ "/"
                     +:+ last_file in
                 let label := wp_name +:+ " · " +:+ last_file in
                 photos ++ [Photo.mk url label]
             end)
    [] (sorted_strings (listdir fs root))
  = photo_entry mission_id
    <$> (sorted_strings (listdir fs root) ≫= λ wp,
           if isdir fs (path_join fs root wp)
           then match last (List.filter photo_name
                              (sorted_strings (listdir fs (path_join fs root wp)))) with
                | Some f => [(wp, f)]
                | None => []
                end
           else []).
Proof.
  intros mission_id.
  rewrite (foldl_app _ (λ wp,
    photo_entry mission_id
    <$> (if isdir fs (path_join fs root wp)
         then match last (List.filter photo_name
                            (sorted_strings (listdir fs (path_join fs root wp)))) with
              | Some f => [(wp, f)]
              | None => []
              end
         else []))).
  - cbn [app]. generalize (sorted_strings (listdir fs root)). intros l.
    induction l as [|x l IH]; [done|].
    rewrite !bind_cons, fmap_app. by rewrite IH.
  - intros acc wp. cbv zeta.
    destruct (isdir fs (path_join fs root wp)); cbn [negb];
      [|by rewrite app_nil_r].
    destruct (last _); [done|by rewrite app_nil_r].
Qed.

Lemma latest_photos_eq (fs : disk) (s : state) :
  latest_photos fs s
  = (s, Ok (RPhotos
      (if id_truthy (CURRENT_MISSION_ID s)
          && isdir fs (path_join fs (BASE_SAVE_DIR fs) (current_id_or s ""))
       then
         let root := path_join fs (BASE_SAVE_DIR fs) (current_id_or s "") in
         photo_entry (current_id_or s "")
         <$> last_eight
               (sorted_strings (listdir fs root) ≫= λ wp,
                  if isdir fs (path_join fs root wp)
                  then match last (List.filter photo_name
                                     (sorted_strings
                                        (listdir fs (path_join fs root wp)))) with
                       | Some f => [(wp, f)]
                       | None => []
                       end
                  else [])
       else []))).
Proof.
  unfold latest_photos. bstep.
  destruct (id_truthy (CURRENT_MISSION_ID s)); cbn [negb andb]; [|done].
  destruct (isdir fs _); cbn [negb]; [|done].
  rewrite latest_photos_picks. unfold last_eight.
  by rewrite fmap_drop, length_fmap.
Qed.

(** X19: [latest_photos] changes no global and returns at most eight
    entries; it returns none when there is no current mission (whatever is
    on the disk) and none when the current mission has no folder. *)
Theorem X19_latest_photos_bounds (fs : disk) (s : state) :
  ∃ photos,
    latest_photos fs s = (s, Ok (RPhotos photos))
    ∧ (length photos ≤ 8)%nat
    ∧ (id_truthy (CURRENT_MISSION_ID s) = false → photos = [])
    ∧ (isdir fs (path_join fs (BASE_SAVE_DIR fs) (current_id_or s "")) = false →
       photos = []).
Proof.
  rewrite latest_photos_eq. eexists. split; [reflexivity|]. split_and!.
  - destruct (_ && _); cbn [length]; [|lia].
    cbv zeta. rewrite length_fmap. unfold last_eight. rewrite length_drop. lia.
  - by intros ->.
  - intros ->. by rewrite andb_false_r.
Qed.

(** X20: the entries of [latest_photos] are built from pairs of a folder and
    a file, in the order of the folder names as strings; each folder is a
    directory listed in the folder of the current mission, and its file is,
    among the names of that directory that start with [img] and end with
    [.jpg], the greatest one in the order of strings. *)
Theorem X20_latest_photos_pick (fs : disk) (s : state) :
  let mid := current_id_or s "" in
  let root := path_join fs (BASE_SAVE_DIR fs) mid in
  ∃ picks : list (string * string),
    (latest_photos fs s).2 = Ok (RPhotos (photo_entry mid <$> picks))
    ∧ StronglySorted (λ p q, String.leb p.1 q.1 = true) picks
    ∧ ∀ wp f, (wp, f) ∈ picks →
        wp ∈ listdir fs root
        ∧ isdir fs (path_join fs root wp) = true
        ∧ f ∈ listdir fs (path_join fs root wp)
        ∧ photo_name f = true
        ∧ ∀ g, g ∈ listdir fs (path_join fs root wp) → photo_name g = true →
               String.leb g f = true.
Proof.
  intros mid root. rewrite latest_photos_eq. cbn [snd].
  destruct (_ && _); [|exists []; split_and!; [done|constructor|]];
    [|by intros wp f Hin; apply elem_of_nil in Hin].
  cbv zeta. fold mid. fold root.
  set (pick := λ wp : string, if isdir fs (path_join fs root wp)
                 then match last (List.filter photo_name
                        (sorted_strings (listdir fs (path_join fs root wp)))) with
                      | Some f => [(wp, f)]
                      | None => []
                      end
                 else []).
  assert (Hpick : ∀ wp p, p ∈ pick wp →
    p.1 = wp ∧ isdir fs (path_join fs root wp) = true
    ∧ last (List.filter photo_name
              (sorted_strings (listdir fs (path_join fs root wp)))) = Some p.2).
  { intros wp p. unfold pick. destruct (isdir fs _); [|by intros ?%elem_of_nil].
    destruct (last _) as [f|]; [|by intros ?%elem_of_nil].
    by intros ->%list_elem_of_singleton. }
  eexists. split; [reflexivity|]. split.
  - unfold last_eight. apply StronglySorted_drop.
    pose proof (sorted_strings_sorted (listdir fs root)) as Hs.
    induction Hs as [|wp l Hl IH Hwp]; [constructor|].
    rewrite bind_cons.
    assert (Hrest : Forall (λ q : string * string, String.leb wp q.1 = true)
                      (l ≫= pick)).
    { apply Forall_forall. intros q Hq.
      apply list_elem_of_bind in Hq as (wp' & Hq & Hwp').
      apply Hpick in Hq as [-> _].
      by apply (proj1 (Forall_forall _ _) Hwp). }
    destruct (pick wp) as [|p [|p' ps]] eqn:Ep; [done| |].
    + cbn [app]. constructor; [done|].
      assert (p.1 = wp) as ->; [|done].
      apply (Hpick wp). rewrite Ep. by left.
    + exfalso. revert Ep. unfold pick. destruct (isdir fs _); [|done].
      by destruct (last _).
  - intros wp f Hin. unfold last_eight in Hin.
    apply (λ H, elem_of_sublist _ _ _ H (sublist_drop _ _)) in Hin.
    apply list_elem_of_bind in Hin as (wp' & Hin & Hwp').
    apply Hpick in Hin as (Hfst & Hdir & Hlast). cbn [fst snd] in *. subst wp'.
    apply (proj1 (sorted_strings_elem _ _)) in Hwp'.
    pose proof (last_Some_elem_of _ _ Hlast) as Hf.
    apply elem_of_lfilter in Hf as [Hf Hname].
    apply (proj1 (sorted_strings_elem _ _)) in Hf. split_and!; try done.
    intros g Hg Hgname.
    destruct (StronglySorted_last (λ a b, String.leb a b = true)
                (List.filter photo_name
                   (sorted_strings (listdir fs (path_join fs root wp)))) f g)
      as [->|Hle]; try done.
    + apply StronglySorted_lfilter, sorted_strings_sorted.
    + apply elem_of_lfilter. split; [|done]. by apply sorted_strings_elem.
    + apply leb_refl.
Qed.

(** ** [upload_photo] *)

Lemma upload_photo_registers (u : upload) (e : mission_env) (s s1 : state)
    (file k : string) :
  image u = Some file →
  register_image e s = (s1, Ok (RImage k)) →
  upload_photo u e s
  = (s1, Ok (if disk_ok u
             then RSaved
                    (upload_filename (default "0" (dict_get (form u) "image_index"))
                       (clock u))
                    ("wp" +:+ default "unknown" (dict_get (form u) "waypoint_index"))
                    k
             else RSaveFailed)).
Proof.
  intros Himg Hreg. unfold upload_photo. rewrite Himg.
  unfold register_image in Hreg. unfold mbind, M_bind in *.
  destruct (_register_image_for_current_mission e s) as [s1' [[]|ex]];
    [|discriminate].
  cbn in Hreg. injection Hreg as -> <-. cbn.
  by destruct (disk_ok u).
Qed.

(** X21: an upload without the field [image] is answered with the error body
    and changes no global.  An upload with it, while the current mission is
    registered, counts the image in that mission before anything is written:
    [images_count] is one more also when saving the file fails; when it
    goes through, the reply names the current mission, the folder [wp]
    followed by the field [waypoint_index] ([unknown] if absent) and the
    file [img], the field [image_index] ([0] if absent), [_], the clock
    reading and [.jpg]. *)
Theorem X21_upload_counts_before_saving (u : upload) (e : mission_env)
    (s : state) :
  (image u = None → upload_photo u e s = (s, Ok RNoImage))
  ∧ (∀ file mid m,
       image u = Some file →
       id_truthy (CURRENT_MISSION_ID s) = true →
       current_mission s = Some (mid, m) →
       ∃ s1 m',
         upload_photo u e s
         = (s1, Ok (if disk_ok u
                    then RSaved
                           (upload_filename
                              (default "0" (dict_get (form u) "image_index"))
                              (clock u))
                           ("wp" +:+ default "unknown"
                                       (dict_get (form u) "waypoint_index"))
                           mid
                    else RSaveFailed))
         ∧ dict_get (MISSIONS s1) mid = Some m'
         ∧ Mission.images_count m' = Mission.images_count m + 1).
Proof.
  split.
  - intros Himg. unfold upload_photo. by rewrite Himg.
  - intros file mid m Himg Htruthy Hcur.
    pose proof (register_image_current e s mid m Htruthy Hcur) as Hreg.
    eexists _, _. split; [exact (upload_photo_registers u e s _ file mid Himg Hreg)|].
    split; [apply with_mission_get|].
    unfold advance_pending, count_image. by destruct (String.eqb _ _).
Qed.

(** A photo for waypoint 3 sent to a fresh mission, on a disk that refuses
    the file: the mission counts one image. *)
Lemma X21_upload_counts_before_saving_witness :
  ∃ s1 m',
    upload_photo
      (mkUpload [("waypoint_index", "3")] (Some "jpeg") "20251210_123500" false)
      first_env (start_mission first_env initial_state).1
    = (s1, Ok RSaveFailed)
    ∧ dict_get (MISSIONS s1) (_new_mission_id first_env) = Some m'
    ∧ Mission.images_count m' = 1.
Proof.
  destruct (proj2 (X21_upload_counts_before_saving
                     (mkUpload [("waypoint_index", "3")] (Some "jpeg")
                        "20251210_123500" false)
                     first_env (start_mission first_env initial_state).1)
              "jpeg" (_new_mission_id first_env) (fresh_mission first_env)
              eq_refl eq_refl eq_refl)
    as (s1 & m' & H1 & H2 & H3).
  exists s1, m'. split; [exact H1|]. split; [exact H2|exact H3].
Defined.

(** ** The names of the files *)

Lemma append_cons (c : ascii) (a b : string) :
  String c a +:+ b = String c (a +:+ b).
Proof. reflexivity. Qed.

Lemma length_append (a b : string) :
  String.length (a +:+ b) = (String.length a + String.length b)%nat.
Proof.
  induction a as [|c a IH]; [done|].
  rewrite append_cons. cbn [String.length]. by rewrite IH.
Qed.

Lemma append_assoc (a b c : string) : (a +:+ b) +:+ c = a +:+ (b +:+ c).
Proof.
  induction a as [|x a IH]; [done|]. rewrite !append_cons. by rewrite IH.
Qed.

Lemma str_endswith_append (a b suffix : string) :
  str_endswith b suffix = true → str_endswith (a +:+ b) suffix = true.
Proof.
  intros H. induction a as [|c a IH]; [done|].
  rewrite append_cons. cbn [str_endswith]. rewrite IH. apply orb_true_r.
Qed.

Lemma str_endswith_length (a b suffix : string) :
  String.length b = String.length suffix → String.eqb b suffix = false →
  str_endswith (a +:+ b) suffix = str_endswith b suffix.
Proof.
  intros Hlen Hne. induction a as [|c a IH]; [done|].
  rewrite append_cons. cbn [str_endswith]. rewrite IH.
  replace (String.eqb (String c (a +:+ b)) suffix) with false; [done|].
  symmetry. apply String.eqb_neq. intros H.
  apply (f_equal String.length) in H. cbn [String.length] in H.
  rewrite length_append in H. lia.
Qed.

(** X22: the three names [upload_photo] writes under are kept apart by the
    two listings: the name of the photo passes the filter of
    [latest_photos] and not that of [latest_predictions], the name of the
    image with the boxes passes the filter of [latest_predictions] and not
    that of [latest_photos], and the name of the file of detections passes
    neither; this holds for every [image_index] and every clock reading. *)
Theorem X22_file_names (image_index ts : string) :
  let filename := upload_filename image_index ts in
  photo_name filename = true
  ∧ prediction_name filename = false
  ∧ prediction_name (pred_filename filename) = true
  ∧ photo_name (pred_filename filename) = false
  ∧ photo_name (dets_filename image_index) = false
  ∧ prediction_name (dets_filename image_index) = false.
Proof.
  assert (Hjpg : ∀ a, str_endswith (a +:+ ".jpg") ".jpg" = true)
    by (intros a; by apply str_endswith_append).
  assert (Hjson : ∀ a, str_endswith (a +:+ "json") ".jpg" = false)
    by (intros a; by rewrite str_endswith_length).
  unfold photo_name, prediction_name, str_startswith, pred_filename,
    upload_filename, dets_filename.
  split_and!.
  - apply andb_true_iff. split; [apply prefix_append|].
    do 3 apply str_endswith_append. done.
  - done.
  - apply andb_true_iff. split; [apply prefix_append|].
    do 4 apply str_endswith_append. done.
  - done.
  - done.
  - apply andb_false_iff. right.
    change ("pred_dets_" +:+ image_index +:+ ".json")
      with ("pred_dets_" +:+ (image_index +:+ ("." +:+ "json"))).
    rewrite <- !append_assoc. apply Hjson.
Qed.

(** ** The index in the name of a prediction image *)

Lemma py_split_cons (sep : ascii) (s : string) :
  ∃ piece pieces, py_split sep s = piece :: pieces.
Proof.
  induction s as [|c s (piece & pieces & IH)]; [by eexists _, _|].
  cbn [py_split]. rewrite IH. destruct (Ascii.eqb c sep); by eexists _, _.
Qed.

Lemma py_split_append (sep : ascii) (a b : string) :
  str_avoids sep a = true →
  py_split sep (a +:+ String sep b) = a :: py_split sep b.
Proof.
  induction a as [|c a IH]; intros Ha.
  - change ("" +:+ String sep b) with (String sep b). cbn [py_split].
    by rewrite Ascii.eqb_refl.
  - cbn [str_avoids] in Ha. apply andb_true_iff in Ha as [Hc Ha].
    rewrite append_cons. cbn [py_split].
    apply negb_true_iff in Hc. rewrite Hc. by rewrite IH.
Qed.

Lemma replace_from_cons (old new : string) (c : ascii) (s : string) :
  replace_from old new 0 (String c s)
  = if String.prefix old (String c s)
    then new +:+ replace_from old new (String.length old - 1) s
    else String c (replace_from old new 0 s).
Proof. reflexivity. Qed.

Lemma replace_from_skip (old new : string) (k : nat) (c : ascii) (s : string) :
  replace_from old new (S k) (String c s) = replace_from old new k s.
Proof. reflexivity. Qed.

Lemma replace_from_avoids (c : ascii) (old new s : string) :
  str_avoids c s = true →
  replace_from (String c old) new 0 s = s.
Proof.
  induction s as [|c' s IH]; [done|]. intros Hs.
  cbn [str_avoids] in Hs. apply andb_true_iff in Hs as [Hc Hs].
  apply negb_true_iff, Ascii.eqb_neq in Hc.
  cbn [replace_from String.prefix].
  destruct (ascii_dec c c') as [->|_]; [done|]. by rewrite IH.
Qed.

Lemma prefix_inv (p s : string) :
  String.prefix p s = true → ∃ r, s = p +:+ r.
Proof.
  revert s. induction p as [|c p IH]; intros s H; [by exists s|].
  destruct s as [|c' s]; [done|]. cbn [String.prefix] in H.
  destruct (ascii_dec c c') as [->|]; [|done].
  destruct (IH s H) as [r ->]. by exists r.
Qed.

(** X23: for the prediction image of a photo that [upload_photo] saved,
    [latest_predictions] reads back the [image_index] of the upload, and so
    looks for the detections under the name they were written under,
    provided the index holds neither [_] nor [i] (digits, for one). *)
Theorem X23_image_index_round_trip (image_index ts : string) :
  str_avoids "_" image_index = true →
  str_avoids "i" image_index = true →
  image_index_of (pred_filename (upload_filename image_index ts)) = image_index.
Proof.
  intros Hsep Hi. unfold image_index_of, pred_filename, upload_filename.
  change ("pred_" +:+ ("img" +:+ image_index +:+ "_" +:+ ts +:+ ".jpg"))
    with ("pred" +:+ String "_"
            (String "i" (String "m" (String "g" image_index))
               +:+ String "_" (ts +:+ ".jpg"))).
  rewrite py_split_append by done.
  rewrite py_split_append by (cbn [str_avoids]; by rewrite Hsep).
  cbn [lookup list_lookup]. unfold py_replace.
  assert (Hp : String.prefix "img"
                 (String "i" (String "m" (String "g" image_index))) = true)
    by exact (prefix_append "img" image_index).
  rewrite replace_from_cons, Hp.
  change (String.length "img" - 1)%nat with 2%nat.
  rewrite !replace_from_skip.
  change ("" +:+ replace_from "img" "" 0 image_index)
    with (replace_from "img" "" 0 image_index).
  by apply (replace_from_avoids "i" "mg" "").
Qed.

(** The photo of index [12] taken at the first clock reading. *)
Lemma X23_image_index_round_trip_witness :
  image_index_of (pred_filename (upload_filename "12" "20251210_123456")) = "12".
Proof.
  apply (X23_image_index_round_trip "12" "20251210_123456"); reflexivity.
Defined.

(** X24: the fallback [unknown] of lines 610-611 is never taken for a file
    [latest_predictions] lists: a name that starts with [pred_] always has a
    second piece between underscores, and the index is that piece without
    its occurrences of [img]. *)
Theorem X24_index_fallback_unused (file : string) :
  prediction_name file = true →
  ∃ img_part,
    py_split "_" file !! 1%nat = Some img_part
    ∧ image_index_of file = py_replace "img" "" img_part.
Proof.
  intros Hname. apply andb_true_iff in Hname as [Hpre _].
  apply prefix_inv in Hpre as [r ->].
  destruct (py_split_cons "_" r) as (piece & pieces & Hr).
  exists piece. unfold image_index_of.
  change ("pred_" +:+ r) with ("pred" +:+ String "_" r).
  rewrite py_split_append by done. by rewrite Hr.
Qed.

(** A name with the prefix and nothing else. *)
Lemma X24_index_fallback_unused_witness :
  ∃ img_part,
    py_split "_" "pred_.jpg" !! 1%nat = Some img_part
    ∧ image_index_of "pred_.jpg" = py_replace "img" "" img_part.
Proof. apply (X24_index_fallback_unused "pred_.jpg"). reflexivity. Defined.

(** ** [latest_predictions] *)

Lemma bind_singleton {A B : Type} (f : A → B) (l : list A) :
  (l ≫= λ x, [f x]) = f <$> l.
Proof. induction l as [|x l IH]; [done|]. by rewrite bind_cons, fmap_cons, IH. Qed.

Lemma latest_predictions_eq (fs : disk) (s : state) :
  latest_predictions fs s
  = (s, Ok (RPredictions
      (if id_truthy (CURRENT_MISSION_ID s)
          && isdir fs (path_join fs (BASE_SAVE_DIR fs) (current_id_or s ""))
       then
         let root := path_join fs (BASE_SAVE_DIR fs) (current_id_or s "") in
         sorted_strings (listdir fs root) ≫= λ wp,
           if isdir fs (path_join fs root wp)
           then prediction_entry fs (current_id_or s "") root wp
                <$> List.filter prediction_name
                      (sorted_strings (listdir fs (path_join fs root wp)))
           else []
       else []))).
Proof.
  unfold latest_predictions. bstep.
  destruct (id_truthy (CURRENT_MISSION_ID s)); cbn [negb andb]; [|done].
  destruct (isdir fs _); cbn [negb]; [|done].
  cbv zeta. do 3 f_equal.
  rewrite (foldl_app _ (λ wp,
    if isdir fs (path_join fs (path_join fs (BASE_SAVE_DIR fs) (current_id_or s "")) wp)
    then prediction_entry fs (current_id_or s "")
           (path_join fs (BASE_SAVE_DIR fs) (current_id_or s "")) wp
         <$> List.filter prediction_name
               (sorted_strings
                  (listdir fs
                     (path_join fs
                        (path_join fs (BASE_SAVE_DIR fs) (current_id_or s "")) wp)))
    else [])); [done|].
  intros acc wp. destruct (isdir fs _); cbn [negb]; [|by rewrite app_nil_r].
  rewrite (foldl_app _ (λ file,
    [prediction_entry fs (current_id_or s "")
       (path_join fs (BASE_SAVE_DIR fs) (current_id_or s "")) wp file]));
    [|done].
  by rewrite bind_singleton.
Qed.

(** X25: [latest_predictions] changes no global and returns no entry when
    there is no current mission; when the current mission has a folder, its
    entries are exactly those of the files whose names start with [pred_]
    and end with [.jpg] in the directories listed in that folder, every one
    of them (there is no cut to eight here), each with the detections read
    from the file named after its index, or with none if that file is absent
    or unreadable. *)
Theorem X25_latest_predictions_entries (fs : disk) (s : state) :
  let mid := current_id_or s "" in
  let root := path_join fs (BASE_SAVE_DIR fs) mid in
  ∃ photos,
    latest_predictions fs s = (s, Ok (RPredictions photos))
    ∧ (id_truthy (CURRENT_MISSION_ID s) = false → photos = [])
    ∧ (id_truthy (CURRENT_MISSION_ID s) = true → isdir fs root = true →
       ∀ p, p ∈ photos ↔
            ∃ wp file,
              wp ∈ listdir fs root
              ∧ isdir fs (path_join fs root wp) = true
              ∧ file ∈ listdir fs (path_join fs root wp)
              ∧ prediction_name file = true
              ∧ p = prediction_entry fs mid root wp file).
Proof.
  intros mid root. rewrite latest_predictions_eq. eexists. split; [reflexivity|].
  split; [by intros ->|]. intros -> Hroot. fold mid. fold root.
  rewrite Hroot. cbn [andb]. cbv zeta. intros p.
  rewrite list_elem_of_bind. split.
  - intros (wp & Hp & Hwp). apply (proj1 (sorted_strings_elem _ _)) in Hwp.
    destruct (isdir fs (path_join fs root wp)) eqn:Hdir;
      [|by apply elem_of_nil in Hp].
    apply list_elem_of_fmap in Hp as (file & -> & Hfile).
    apply elem_of_lfilter in Hfile as [Hfile Hname].
    apply (proj1 (sorted_strings_elem _ _)) in Hfile.
    by exists wp, file.
  - intros (wp & file & Hwp & Hdir & Hfile & Hname & ->).
    exists wp. split; [|by apply sorted_strings_elem].
    rewrite Hdir. apply list_elem_of_fmap. exists file. split; [done|].
    apply elem_of_lfilter. split; [|done]. by apply sorted_strings_elem.
Qed.
